(** * Preview server: workspace lifecycle and build orchestration

    A shallow embedding of the two server variants of the repository:

    - [LocalServer]  : src/unnamed/part_000 (local publish into [public/{id}]),
    - [VercelServer] : src/preview-server.js (remote publish).

    JavaScript strings are modelled by [string]; the only characters the
    code inspects (the slash, the newline and the backquote) are ASCII, so
    splitting and prefix tests agree on UTF-8 bytes and on UTF-16 units.
    The file system is a finite map from resolved absolute paths (lists of
    segments) to nodes, the external commands ([npm install],
    [npm run build]) are an oracle of the environment, and every effectful
    function of the source is a computation in a state-and-error monad over
    a [World] holding the file system and the trace of effects. *)

From Stdlib Require Import Ascii ZArith.
From Stdlib Require String.
From stdpp Require Import base option list strings gmap fin_maps.

Open Scope Z_scope.

(** ** JavaScript string and array primitives *)

Module Js.

(** [s.startsWith(p)] *)
Definition startsWith (s p : string) : bool := String.prefix p s.

(** [s.includes(t)]: [t] occurs in [s] at some offset. *)
Fixpoint includes (s t : string) : bool :=
  String.prefix t s
  || match s with
     | EmptyString => false
     | String _ s' => includes s' t
     end.

(** [s.endsWith(c)] for a single character. *)
Fixpoint endsWithChar (s : string) (c : ascii) : bool :=
  match s with
  | EmptyString => false
  | String a EmptyString => Ascii.eqb a c
  | String _ s' => endsWithChar s' c
  end.

(** [s.split(c)] for a one-character separator: never the empty array,
    [''.split(c)] is [['']]. *)
Fixpoint split (c : ascii) (s : string) : list string :=
  match s with
  | EmptyString => [EmptyString]
  | String a s' =>
      if Ascii.eqb a c then EmptyString :: split c s'
      else match split c s' with
           | x :: r => String a x :: r
           | [] => [String a EmptyString]
           end
  end.

(** [c] does not occur in [s]. *)
Fixpoint lacks (c : ascii) (s : string) : bool :=
  match s with
  | EmptyString => true
  | String a s' => negb (Ascii.eqb a c) && lacks c s'
  end.

(** [l.join(sep)] *)
Definition join (sep : string) (l : list string) : string :=
  String.concat sep l.

(** [l.slice(start, end)] with JavaScript's treatment of negative and
    out-of-range indices. *)
Definition slice {A} (start stop : Z) (l : list A) : list A :=
  let len := Z.of_nat (length l) in
  let k := if start <? 0 then Z.max (len + start) 0 else Z.min start len in
  let fin := if stop <? 0 then Z.max (len + stop) 0 else Z.min stop len in
  take (Z.to_nat (fin - k)) (drop (Z.to_nat k) l).

End Js.

(** ** Node's POSIX [path] module *)

Module Path.

Definition slash : ascii := "/"%char.

Definition is_dot (s : string) : bool := String.eqb s ".".
Definition is_dotdot (s : string) : bool := String.eqb s "..".

(** [normalizeString]: one pass over the segments with a stack (most
    recent segment first). Empty and [.] segments are skipped; [..] pops
    the last segment, and is kept only when the path is relative
    ([allowAboveRoot]) and nothing is left to pop. *)
Fixpoint normalizeString (allowAboveRoot : bool) (stack segs : list string)
  : list string :=
  match segs with
  | [] => stack
  | s :: rest =>
      if String.eqb s EmptyString || is_dot s then
        normalizeString allowAboveRoot stack rest
      else if is_dotdot s then
        match stack with
        | top :: below =>
            if is_dotdot top
            then normalizeString allowAboveRoot
                   (if allowAboveRoot then s :: stack else stack) rest
            else normalizeString allowAboveRoot below rest
        | [] =>
            normalizeString allowAboveRoot
              (if allowAboveRoot then [s] else []) rest
        end
      else normalizeString allowAboveRoot (s :: stack) rest
  end.

Definition isAbsolute (p : string) : bool := Js.startsWith p "/".

(** [path.normalize] *)
Definition normalize (p : string) : string :=
  if String.eqb p EmptyString then "."
  else
    let abs := isAbsolute p in
    let trailing := Js.endsWithChar p slash in
    let body :=
      Js.join "/" (rev (normalizeString (negb abs) [] (Js.split slash p))) in
    if String.eqb body EmptyString then
      if abs then "/" else if trailing then "./" else "."
    else
      (if abs then "/" else EmptyString) +:+ body +:+ (if trailing then "/" else EmptyString).

(** [path.join(a, b)]: the non-empty arguments joined by a slash, then
    normalized. *)
Definition join (a b : string) : string :=
  if String.eqb a EmptyString then (if String.eqb b EmptyString then "." else normalize b)
  else if String.eqb b EmptyString then normalize a
  else normalize (a +:+ "/" +:+ b).

Definition is_slash (c : ascii) : bool := Ascii.eqb c slash.

Fixpoint drop_while (f : ascii -> bool) (l : list ascii) : list ascii :=
  match l with
  | [] => []
  | c :: r => if f c then drop_while f r else l
  end.

(** [path.dirname]: scan from the end, skipping trailing slashes and then
    the last segment, down to index 1. *)
Definition dirname (p : string) : string :=
  match p with
  | EmptyString => "."
  | String c0 tl =>
      let hasRoot := is_slash c0 in
      let r := drop_while (fun c => negb (is_slash c))
                 (drop_while is_slash (rev (String.list_ascii_of_string tl))) in
      match r with
      | [] => if hasRoot then "/" else "."
      | _ :: before =>
          match before with
          | [] => if hasRoot then "//" else String c0 EmptyString
          | _ => String c0 (String.string_of_list_ascii (rev before))
          end
      end
  end.

(** The directory entry a path string names: its segments from the root,
    [.] and [..] resolved. All paths of the servers derive from the
    absolute [__dirname]. *)
Definition resolve (p : string) : list string :=
  rev (normalizeString false [] (Js.split slash p)).

End Path.

(** ** The file system *)

Inductive Node : Type :=
| File (content : string)
| Dir.

Abbreviation FS := (gmap (list string) Node).

(** ** Errors, effects and the world *)

Inductive Error : Type :=
| Err (message : string)                           (* [new Error(message)] *)
| TypeError (message : string)
| ExecError (cmd : string) (code : Z) (stderr : string) (* a rejected [exec] *)
| SystemError (code : string) (path : string).     (* a failed fs call *)

(** [error.message] *)
Definition message (e : Error) : string :=
  match e with
  | Err m => m
  | TypeError m => m
  | ExecError cmd _ stderr => "Command failed: " +:+ cmd +:+ String "010"%char stderr
  | SystemError code p => code +:+ ": " +:+ p
  end.

(** [error.stderr], present on rejected [exec] calls only. *)
Definition stderr_of (e : Error) : option string :=
  match e with
  | ExecError _ _ s => Some s
  | _ => None
  end.

Inductive Event : Type :=
| EvExec (cmd cwd : string)
| EvReaddir (p : string)
| EvPathExists (p : string) (found : bool)
| EvEnsureDir (p : string)
| EvCopy (src dst : string)
| EvWriteFile (p content : string)
| EvRemove (p : string)
| EvWarn (msg : string).

Record World : Type := mkWorld { fs : FS; trace : list Event }.

Definition emit (e : Event) (w : World) : World :=
  mkWorld (fs w) (trace w ++ [e]).

Definition set_fs (f : FS) (w : World) : World := mkWorld f (trace w).

Inductive ExecOutcome : Type :=
| ExitOk (stdout : string)
| ExitFail (code : Z) (stderr : string).

Inductive Result (A : Type) : Type :=
| Ok (a : A)
| Throw (e : Error).
Arguments Ok {A} a.
Arguments Throw {A} e.

(** What the remote strategy answers: [{ url, deployment_id, project_id }]. *)
Record Deployment : Type := mkDeployment {
  deployment_url : string;
  deployment_id : string;
  project_id : string
}.

(** The environment: what an external command does to the file system and
    how it exits, whether the operating system refuses a removal, the
    outcome of the exchange with the remote hosting API (outside the core,
    one oracle call), and, for a recursive copy that fails on the way,
    which entries of the source (named by their path below its top) had
    been written when it failed: the order in which [fs-extra] visits a
    directory is the order of the listing of the operating system. *)
Record Env : Type := mkEnv {
  run : string -> string -> World -> ExecOutcome * FS;
  remove_denied : string -> World -> bool;
  deploy : string -> World -> Result Deployment;
  copy_reached : string -> string -> World -> list string -> bool
}.

Definition M (A : Type) : Type := World -> Result A * World.

Definition ret {A} (a : A) : M A := fun w => (Ok a, w).
Definition throw {A} (e : Error) : M A := fun w => (Throw e, w).
Definition bind {A B} (m : M A) (k : A -> M B) : M B :=
  fun w => match m w with
           | (Ok a, w') => k a w'
           | (Throw e, w') => (Throw e, w')
           end.

(** [try { m } catch (e) { h e }] *)
Definition try_catch {A} (m : M A) (h : Error -> M A) : M A :=
  fun w => match m w with
           | (Ok a, w') => (Ok a, w')
           | (Throw e, w') => h e w'
           end.

(** A line logged with type [warn]; the other log lines do not take part
    in the control flow and are left out. *)
Definition warn (msg : string) : M unit := fun w => (Ok tt, emit (EvWarn msg) w).

Notation "'let*' x ':=' m 'in' k" := (bind m (fun x => k))
  (at level 10, x name, m at level 100, k at level 200).
Notation "m ';;;' k" := (bind m (fun _ => k))
  (at level 100, k at level 200, right associativity).

(** ** The [fs-extra] calls the servers make *)

Module Fs.

(** The root directory always exists. *)
Definition lookup_node (f : FS) (k : list string) : option Node :=
  match k with
  | [] => Some Dir
  | _ => f !! k
  end.

Definition is_file (f : FS) (k : list string) : bool :=
  match lookup_node f k with Some (File _) => true | _ => false end.

Definition is_dir (f : FS) (k : list string) : bool :=
  match lookup_node f k with Some Dir => true | _ => false end.

Definition exists_at (f : FS) (k : list string) : bool :=
  match lookup_node f k with Some _ => true | None => false end.

Definition parent (k : list string) : list string := removelast k.

(** The non-empty prefixes of a path, shortest first. *)
Definition ancestors_and_self (k : list string) : list (list string) :=
  map (fun n => take n k) (seq 1 (length k)).

Definition mkdirs (f : FS) (k : list string) : FS :=
  foldr (fun d acc => <[d := Dir]> acc) f (ancestors_and_self k).

(** Everything at or below [k]. *)
Definition subtree (k : list string) (f : FS) : FS :=
  filter (fun kv => k `prefix_of` kv.1) f.

Definition prune (k : list string) (f : FS) : FS :=
  filter (fun kv => ¬ k `prefix_of` kv.1) f.

Definition graft (s d : list string) (f : FS) : FS :=
  foldr (fun kv acc => <[d ++ drop (length s) kv.1 := kv.2]> acc)
        f (map_to_list (subtree s f)).

Definition same_kind (a b : Node) : bool :=
  match a, b with
  | File _, File _ => true
  | Dir, Dir => true
  | _, _ => false
  end.

(** The entries of the source tree [s] whose counterpart below [d] is
    of the other kind: a directory over a file, a file over a
    directory. [fs-extra] checks every pair before it copies the item. *)
Definition clashes (s d : list string) (f : FS) : list (list string * Node) :=
  List.filter
    (fun kv => match f !! (d ++ drop (length s) kv.1) with
               | Some n => negb (same_kind kv.2 n)
               | None => false
               end)
    (map_to_list (subtree s f)).

(** An entry at or below one of the entries [cl]. *)
Definition blocked (cl : list (list string * Node)) (k : list string) : bool :=
  existsb (fun c => bool_decide (c.1 `prefix_of` k)) cl.

(** The copy of the entries of the source tree selected by [reached]. *)
Definition graft_some (reached : list string -> bool) (s d : list string)
    (f : FS) : FS :=
  foldr (fun kv acc => <[d ++ drop (length s) kv.1 := kv.2]> acc)
        f (List.filter (fun kv => reached kv.1) (map_to_list (subtree s f))).

(** The error of a pair of items of different kinds, the item being
    [r] below the two tops. *)
Definition clash_error (src dst : string) (r : list string) (n : Node) : Error :=
  let srcItem := Path.join src (Js.join "/" r) in
  let destItem := Path.join dst (Js.join "/" r) in
  match n with
  | Dir =>
      Err ("Cannot overwrite non-directory '" +:+ destItem
           +:+ "' with directory '" +:+ srcItem +:+ "'.")
  | File _ =>
      Err ("Cannot overwrite directory '" +:+ destItem
           +:+ "' with non-directory '" +:+ srcItem +:+ "'.")
  end.

(** [fs.pathExists(p)]: never throws. *)
Definition pathExists (p : string) : M bool :=
  fun w => let b := exists_at (fs w) (Path.resolve p) in
           (Ok b, emit (EvPathExists p b) w).

(** [fs.ensureDir(p)]: [mkdir -p]; fails when [p] or one of its ancestors
    is a file. *)
Definition ensureDir (p : string) : M unit :=
  fun w =>
    let w1 := emit (EvEnsureDir p) w in
    let k := Path.resolve p in
    if existsb (is_file (fs w)) (ancestors_and_self k)
    then (Throw (SystemError "EEXIST" p), w1)
    else (Ok tt, set_fs (mkdirs (fs w) k) w1).

(** [fs.writeFile(p, content)]: the parent must be a directory and the
    target must not be one. *)
Definition writeFile (p content : string) : M unit :=
  fun w =>
    let w1 := emit (EvWriteFile p content) w in
    let k := Path.resolve p in
    if Js.endsWithChar p Path.slash || is_dir (fs w) k
    then (Throw (SystemError "EISDIR" p), w1)
    else if is_dir (fs w) (parent k)
    then (Ok tt, set_fs (<[k := File content]> (fs w)) w1)
    else (Throw (SystemError "ENOENT" p), w1).

(** [fs.readdir(p)]: the names of the entries directly below [p]. *)
Definition readdir (p : string) : M (list string) :=
  fun w =>
    let w1 := emit (EvReaddir p) w in
    let k := Path.resolve p in
    match lookup_node (fs w) k with
    | None => (Throw (SystemError "ENOENT" p), w1)
    | Some (File _) => (Throw (SystemError "ENOTDIR" p), w1)
    | Some Dir =>
        (Ok (omap (fun kv => if bool_decide (parent kv.1 = k)
                             then last kv.1 else None)
                  (map_to_list (fs w))), w1)
    end.

(** [fs.copy(src, dst)]: recursive copy that overwrites; fails when the
    source is missing, when the destination lies in the source, and when
    a directory and a non-directory would replace one another, at the
    top or at any item below it. A failure at the top leaves the file
    system as it is. A failure at an item below the top comes after the
    parent of the destination and the destination itself were made and
    after some of the other items were copied: the ones the environment
    names, never an item of different kinds or one below it. When
    several items are of different kinds, the error is the one of the
    first in the order of the map. *)
Definition copy (env : Env) (src dst : string) : M unit :=
  fun w =>
    let w1 := emit (EvCopy src dst) w in
    let s := Path.resolve src in
    let d := Path.resolve dst in
    match lookup_node (fs w) s with
    | None => (Throw (SystemError "ENOENT" src), w1)
    | Some n =>
        if bool_decide (s `prefix_of` d)
        then (Throw (Err ("Cannot copy '" +:+ src +:+ "' to a subdirectory of itself, '" +:+ dst +:+ "'.")), w1)
        else
          match n, lookup_node (fs w) d with
          | File _, Some Dir =>
              (Throw (Err ("Cannot overwrite directory '" +:+ dst +:+ "' with non-directory '" +:+ src +:+ "'.")), w1)
          | Dir, Some (File _) =>
              (Throw (Err ("Cannot overwrite non-directory '" +:+ dst +:+ "' with directory '" +:+ src +:+ "'.")), w1)
          | _, _ =>
              if existsb (is_file (fs w)) (ancestors_and_self (parent d))
              then (Throw (SystemError "EEXIST" dst), w1)
              else
                let f := mkdirs (fs w) (parent d) in
                match clashes s d f with
                | [] => (Ok tt, set_fs (graft s d f) w1)
                | c :: rest =>
                    let reached := fun k =>
                      (bool_decide (k = s)
                       || copy_reached env src dst w (drop (length s) k))
                      && negb (blocked (c :: rest) k) in
                    (Throw (clash_error src dst (drop (length s) c.1) c.2),
                     set_fs (graft_some reached s d f) w1)
                end
          end
    end.

(** [fs.remove(p)]: [rm -rf]; a missing path is not an error, a refusal
    of the operating system is. The refusal is taken to come before
    anything is deleted; a removal that fails after it deleted a part
    of the tree is not modelled, and what is stated for a refused
    removal beyond its error holds under this assumption only. *)
Definition remove (env : Env) (p : string) : M unit :=
  fun w =>
    let w1 := emit (EvRemove p) w in
    if remove_denied env p w
    then (Throw (SystemError "EPERM" p), w1)
    else (Ok tt, set_fs (prune (Path.resolve p) (fs w)) w1).

End Fs.

(** [execAsync(cmd, { cwd })]: resolves with the captured output when the
    command exits with status 0, rejects otherwise. *)
Definition execAsync (env : Env) (cmd cwd : string) : M string :=
  fun w =>
    let w1 := emit (EvExec cmd cwd) w in
    match run env cmd cwd w with
    | (ExitOk out, f) => (Ok out, set_fs f w1)
    | (ExitFail code err, f) => (Throw (ExecError cmd code err), set_fs f w1)
    end.

(** ** Requests and responses *)

(** [file.content]: absent ([undefined] or [null]), a string, or any other
    JSON value. *)
Inductive Content : Type :=
| Absent
| Str (s : string)
| NonString.

(** A submitted node: [{ type, path, content, children }]; [children] is
    [None] when the field is missing or is not an array. *)
#[warnings="-register-all"]
Inductive FileNode : Type :=
| mkFileNode (type path : string) (content : Content)
             (children : option (list FileNode)).

Definition node_type (f : FileNode) : string :=
  match f with mkFileNode t _ _ _ => t end.
Definition node_path (f : FileNode) : string :=
  match f with mkFileNode _ p _ _ => p end.
Definition node_content (f : FileNode) : Content :=
  match f with mkFileNode _ _ c _ => c end.
Definition node_children (f : FileNode) : option (list FileNode) :=
  match f with mkFileNode _ _ _ ch => ch end.

(** The body of [POST /api/preview/create]; [dependencies] defaults to the
    empty list. *)
Record CreateRequest : Type := mkCreateRequest {
  req_id : string;
  req_files : list FileNode;
  req_dependencies : list string
}.

Inductive Body : Type :=
| BodyPreview (url preview_id : string)
| BodyDeployment (d : Deployment)
| BodySuccess
| BodyError (error : string).

Record Response : Type := mkResponse { status : Z; body : Body }.

(** [res.json(b)] and [res.status(500).json({ error })]; the [details]
    field (a stack trace) is not modelled. *)
Definition res_json (b : Body) : Response := mkResponse 200 b.
Definition res_error (e : Error) : Response := mkResponse 500 (BodyError (message e)).

Definition newline : ascii := "010"%char.
Definition nl : string := String newline EmptyString.
Definition fence : string := "```".

(** The fence handling both servers apply to string content
    (part_000 lines 329-332, preview-server.js lines 424-427 and 435-438):
    [if (content.startsWith(fence)) content = content.split(newline).slice(1, -1).join(newline)]. *)
Definition stripFence (content : string) : string :=
  if Js.startsWith content fence
  then Js.join nl (Js.slice 1 (-1) (Js.split newline content))
  else content.

(** [for (const x of xs) { await body(x) }] *)
Fixpoint for_of {A} (xs : list A) (body : A -> M unit) : M unit :=
  match xs with
  | [] => ret tt
  | x :: rest => body x ;;; for_of rest body
  end.

(** ** src/unnamed/part_000: the local publish strategy *)

Module LocalServer.
Section Server.

Variable env : Env.
(** [__dirname] is absolute: a slash followed by [root]. *)
Variable root : string.

Definition __dirname : string := String Path.slash root.
Definition BASE_TEMPLATE_DIR : string := Path.join __dirname "template".
Definition PREVIEW_DIR : string := Path.join __dirname "previews".
Definition PUBLIC_DIR : string := Path.join __dirname "public".

Definition defaultRequiredFiles : list string := ["index.html"].

Fixpoint verifyBuildArtifacts (buildPath : string) (requiredFiles : list string)
  : M unit :=
  match requiredFiles with
  | [] => ret tt
  | file :: rest =>
      let* found := Fs.pathExists (Path.join buildPath file) in
      if found : bool then verifyBuildArtifacts buildPath rest
      else throw (Err ("Required build artifact not found: " +:+ file))
  end.

Definition installAdditionalDependencies (sitePath : string)
    (dependencies : list string) : M unit :=
  try_catch
    (let depString := Js.join " " dependencies in
     let* result := execAsync env ("npm install " +:+ depString) sitePath in
     ret tt)
    (fun error => throw error).

Definition createPreview (sitePath id : string) : M Body :=
  try_catch
    (let* dirContents := Fs.readdir sitePath in
     let* installed := execAsync env "npm install" sitePath in
     try_catch
       (let* buildResult := execAsync env "npm run build" sitePath in
        let distPath := Path.join sitePath "dist" in
        let* distExists := Fs.pathExists distPath in
        if distExists : bool
        then verifyBuildArtifacts distPath defaultRequiredFiles
        else throw (Err "Build completed but dist folder not found"))
       (fun buildError => throw buildError) ;;;
     let publicPath := Path.join PUBLIC_DIR id in
     Fs.ensureDir publicPath ;;;
     let distPath := Path.join sitePath "dist" in
     Fs.copy env distPath publicPath ;;;
     verifyBuildArtifacts publicPath defaultRequiredFiles ;;;
     let* listing := Fs.readdir publicPath in
     ret (BodyPreview ("/preview/" +:+ id) id))
    (fun error => throw error).

(** The closure [processFile] of the create handler; its [createdPaths]
    array is written and never read, and is left out. *)
Fixpoint processFile (file : FileNode) (basePath : string) {struct file} : M unit :=
  match file with
  | mkFileNode type path content children =>
      let filePath := Path.join basePath path in
      if String.eqb type "folder" then
        Fs.ensureDir filePath ;;;
        match children with
        | Some children =>
            (fix each (l : list FileNode) : M unit :=
               match l with
               | [] => ret tt
               | childFile :: rest => processFile childFile basePath ;;; each rest
               end) children
        | None => ret tt
        end
      else if String.eqb type "file" then
        Fs.ensureDir (Path.dirname filePath) ;;;
        match content with
        | Str s => Fs.writeFile filePath (stripFence s)
        | NonString =>
            throw (TypeError "The data argument must be of type string or an instance of Buffer, TypedArray, or DataView.")
        | Absent => Fs.writeFile filePath EmptyString
        end
      else ret tt
  end.

(** [previewPath && previewPath !== publicOutputPath && !previewPath.includes(PUBLIC_DIR)] *)
Definition cleanupGuard (previewPath publicOutputPath : string) : bool :=
  negb (String.eqb previewPath EmptyString)
  && negb (String.eqb previewPath publicOutputPath)
  && negb (Js.includes previewPath PUBLIC_DIR).

(** [app.post("/api/preview/create", ...)]; the one-second pause before
    the cleanup is not modelled. *)
Definition createHandler (req : CreateRequest) : M Response :=
  let id := req_id req in
  let files := req_files req in
  let dependencies := req_dependencies req in
  let previewPath := Path.join PREVIEW_DIR id in
  let publicOutputPath := Path.join PUBLIC_DIR id in
  try_catch
    (Fs.ensureDir previewPath ;;;
     Fs.copy env BASE_TEMPLATE_DIR previewPath ;;;
     for_of files (fun file =>
       try_catch (processFile file previewPath) (fun error => throw error)) ;;;
     (if (0 <? Z.of_nat (length dependencies))
      then installAdditionalDependencies previewPath dependencies
      else ret tt) ;;;
     let* previewResult := createPreview previewPath id in
     try_catch
       (if cleanupGuard previewPath publicOutputPath
        then Fs.remove env previewPath
        else ret tt)
       (fun cleanupError =>
          warn ("Warning: Failed to cleanup preview directory: " +:+ previewPath)) ;;;
     ret (res_json previewResult))
    (fun error =>
       (if cleanupGuard previewPath publicOutputPath
        then try_catch (Fs.remove env previewPath)
               (fun cleanupError =>
                  warn ("Warning: Failed to cleanup preview directory after error: " +:+ previewPath))
        else ret tt) ;;;
       ret (res_error error)).

(** [app.post("/api/preview/cleanup", ...)] *)
Definition cleanupHandler (id : string) : M Response :=
  try_catch
    (let previewPath := Path.join PUBLIC_DIR id in
     let* found := Fs.pathExists previewPath in
     (if found : bool then Fs.remove env previewPath else ret tt) ;;;
     ret (res_json BodySuccess))
    (fun error => ret (res_error error)).

End Server.
End LocalServer.

(** ** src/preview-server.js: the remote publish strategy *)

Module VercelServer.
Section Server.

Variable env : Env.
Variable root : string.

Definition __dirname : string := String Path.slash root.
Definition BASE_TEMPLATE_DIR : string := Path.join __dirname "template".
Definition PREVIEW_DIR : string := Path.join __dirname "previews".

Definition installAdditionalDependencies (sitePath : string)
    (dependencies : list string) : M unit :=
  try_catch
    (let depString := Js.join " " dependencies in
     let* result := execAsync env ("npm install " +:+ depString) sitePath in
     ret tt)
    (fun error => throw error).

(** [deployToVercel]: the build, then the exchange with the hosting API. *)
Definition deployToVercel (sitePath : string) : M Deployment :=
  try_catch
    (let* buildResult := execAsync env "npm run build" sitePath in
     fun w => (deploy env sitePath w, w))
    (fun error => throw error).

(** [let content = node.content; if (content.startsWith(fence)) {...};
    await fs.writeFile(target, content)]: the method call on an absent
    or non-string content throws before anything is written. *)
Definition writeContent (target : string) (content : Content) : M unit :=
  match content with
  | Absent =>
      throw (TypeError "Cannot read properties of undefined (reading 'startsWith')")
  | NonString => throw (TypeError "content.startsWith is not a function")
  | Str s => Fs.writeFile target (stripFence s)
  end.

(** The body of the [for (const file of files)] loop of the create
    handler: children of a folder are all written as files, one level
    deep; every node that is not a folder is written as a file. The
    test on [file.children] is for presence only; a value that is
    present and is not an array is outside this model. *)
Definition processEntry (previewPath : string) (file : FileNode) : M unit :=
  try_catch
    (let filePath := Path.join previewPath (node_path file) in
     if String.eqb (node_type file) "folder" then
       Fs.ensureDir filePath ;;;
       match node_children file with
       | Some children =>
           for_of children (fun childFile =>
             let childPath := Path.join previewPath (node_path childFile) in
             Fs.ensureDir (Path.dirname childPath) ;;;
             writeContent childPath (node_content childFile))
       | None => ret tt
       end
     else
       Fs.ensureDir (Path.dirname filePath) ;;;
       writeContent filePath (node_content file))
    (fun error => throw error).

(** [app.post("/api/preview/create", ...)]: both removals of the
    workspace are commented out in the source, so neither path removes
    anything. *)
Definition createHandler (req : CreateRequest) : M Response :=
  let id := req_id req in
  let files := req_files req in
  let dependencies := req_dependencies req in
  let previewPath := Path.join PREVIEW_DIR id in
  try_catch
    (Fs.ensureDir previewPath ;;;
     Fs.copy env BASE_TEMPLATE_DIR previewPath ;;;
     for_of files (processEntry previewPath) ;;;
     let* installed := execAsync env "npm install" previewPath in
     (if (0 <? Z.of_nat (length dependencies))
      then installAdditionalDependencies previewPath dependencies
      else ret tt) ;;;
     let* deploymentResult := deployToVercel previewPath in
     ret (res_json (BodyDeployment deploymentResult)))
    (fun error => ret (res_error error)).

End Server.
End VercelServer.

(** ** Concrete environments and requests *)

Module Demo.

Definition root : string := "app".

(** A disk after start-up: the template and the three directories. *)
Definition disk0 : FS :=
  list_to_map
    [ (["app"], Dir);
      (["app"; "template"], Dir);
      (["app"; "template"; "index.html"], File "<div id='root'></div>");
      (["app"; "template"; "package.json"], File "{}");
      (["app"; "template"; "src"], Dir);
      (["app"; "template"; "src"; "App.tsx"], File "export default App;");
      (["app"; "previews"], Dir);
      (["app"; "public"], Dir) ].

Definition world0 : World := mkWorld disk0 [].

(** A toolchain whose build writes [dist/index.html] and [dist/assets]. *)
Definition build_output (cwd : string) (f : FS) : FS :=
  let d := Path.resolve (Path.join cwd "dist") in
  <[d ++ ["assets"] := Dir]>
    (<[d ++ ["index.html"] := File "<html></html>"]> (<[d := Dir]> f)).

Definition toolchain_ok (cmd cwd : string) (w : World) : ExecOutcome * FS :=
  if String.eqb cmd "npm run build"
  then (ExitOk "built", build_output cwd (fs w))
  else (ExitOk "installed", fs w).

(** The build exits with status 1. *)
Definition toolchain_build_fails (cmd cwd : string) (w : World) : ExecOutcome * FS :=
  if String.eqb cmd "npm run build"
  then (ExitFail 1 "error TS2304: Cannot find name 'x'.", fs w)
  else (ExitOk "installed", fs w).


(** A build script that writes into the public directory of the id
    and exits with status 1. *)
Definition toolchain_strays (cmd cwd : string) (w : World) : ExecOutcome * FS :=
  if String.eqb cmd "npm run build"
  then (ExitFail 1 "build failed",
        <[["app"; "public"; "abc123"; "index.html"] := File "<html>stray</html>"]>
          (<[["app"; "public"; "abc123"] := Dir]> (fs w)))
  else (ExitOk "installed", fs w).


(** The build exits with status 0 and writes nothing. *)
Definition toolchain_no_dist (cmd cwd : string) (w : World) : ExecOutcome * FS :=
  (ExitOk "done", fs w).

Definition deployed : Deployment :=
  mkDeployment "https://preview.example" "dpl_1" "prj_1".

Definition never_denied (p : string) (w : World) : bool := false.
Definition always_denied (p : string) (w : World) : bool := true.
Definition deploy_ok (p : string) (w : World) : Result Deployment := Ok deployed.

(** A failing copy that got no further than the destination itself. *)
Definition stops_early (src dst : string) (w : World) (r : list string) : bool := false.

Definition env_ok : Env := mkEnv toolchain_ok never_denied deploy_ok stops_early.
Definition env_denied : Env := mkEnv toolchain_ok always_denied deploy_ok stops_early.
Definition env_build_fails : Env := mkEnv toolchain_build_fails never_denied deploy_ok stops_early.
Definition env_no_dist : Env := mkEnv toolchain_no_dist never_denied deploy_ok stops_early.
Definition env_strays : Env := mkEnv toolchain_strays never_denied deploy_ok stops_early.

(** The scenario of the specification: one fenced source file. *)
Definition fenced_app : string :=
  "```" +:+ nl +:+ "export default function App(){return null}" +:+ nl +:+ "```".

Definition scenario : CreateRequest :=
  mkCreateRequest "abc123"
    [mkFileNode "file" "src/App.tsx" (Str fenced_app) None] [].

Definition with_dependencies : CreateRequest :=
  mkCreateRequest "abc123"
    [mkFileNode "file" "src/App.tsx" (Str fenced_app) None]
    ["axios"; "zustand"].

Definition empty_file : CreateRequest :=
  mkCreateRequest "abc123" [mkFileNode "file" "src/empty.ts" Absent None] [].

(** An id that leaves the previews directory. *)
Definition escaping : CreateRequest :=
  mkCreateRequest "../public/abc123"
    [mkFileNode "file" "src/App.tsx" (Str fenced_app) None] [].

(** A file path that leaves the workspace for the public directory of
    the id. *)
Definition escaping_file : CreateRequest :=
  mkCreateRequest "abc123"
    [mkFileNode "file" "../../public/abc123/index.html" (Str "<html>draft</html>") None]
    [].

End Demo.

(** ** Vocabulary of the statements *)

(** The content split on newlines, without its first and its last
    element, joined again. *)
Definition kept (content : string) : string :=
  Js.join nl (removelast (tail (Js.split newline content))).

(** A segment a normalized absolute path is made of. *)
Definition clean (s : string) : Prop :=
  s ≠ EmptyString ∧ Path.is_dot s = false ∧ Path.is_dotdot s = false
  ∧ Js.lacks Path.slash s = true.

(** The absolute path string [path.normalize] prints for a stack of
    segments (most recent first). *)
Definition render (stack : list string) (trailing : bool) : string :=
  let body := Js.join "/" (rev stack) in
  if String.eqb body EmptyString then "/"
  else "/" +:+ body +:+ (if trailing then "/" else EmptyString).

(** The external commands of a trace, in order. *)
Definition exec_calls (t : list Event) : list (string * string) :=
  omap (fun e => match e with EvExec cmd cwd => Some (cmd, cwd) | _ => None end) t.

Module LocalStages.
Section Stages.

Variable env : Env.
Variable root : string.

Let PREVIEW_DIR := LocalServer.PREVIEW_DIR root.
Let PUBLIC_DIR := LocalServer.PUBLIC_DIR root.

Definition previewPath (req : CreateRequest) : string :=
  Path.join PREVIEW_DIR (req_id req).
Definition publicOutputPath (req : CreateRequest) : string :=
  Path.join PUBLIC_DIR (req_id req).

(** The stages of [LocalServer.createHandler], cut out of its [try]
    block: materialization, the optional extra install, and the whole
    pipeline up to the return of [createPreview]. *)
Definition materialize (req : CreateRequest) : M unit :=
  Fs.ensureDir (previewPath req) ;;;
  Fs.copy env (LocalServer.BASE_TEMPLATE_DIR root) (previewPath req) ;;;
  for_of (req_files req) (fun file =>
    try_catch (LocalServer.processFile file (previewPath req))
              (fun error => throw error)).

Definition installExtras (req : CreateRequest) : M unit :=
  if (0 <? Z.of_nat (length (req_dependencies req)))
  then LocalServer.installAdditionalDependencies env (previewPath req)
         (req_dependencies req)
  else ret tt.

Definition pipeline (req : CreateRequest) : M Body :=
  materialize req ;;;
  installExtras req ;;;
  LocalServer.createPreview env root (previewPath req) (req_id req).

(** Everything before [createPreview] is called. *)
Definition prepared (req : CreateRequest) : M unit :=
  materialize req ;;; installExtras req.

(** The two cleanup blocks of the handler. *)
Definition cleanupAfterSuccess (req : CreateRequest) : M unit :=
  try_catch
    (if LocalServer.cleanupGuard root (previewPath req) (publicOutputPath req)
     then Fs.remove env (previewPath req)
     else ret tt)
    (fun cleanupError =>
       warn ("Warning: Failed to cleanup preview directory: " +:+ previewPath req)).

Definition cleanupAfterError (req : CreateRequest) : M unit :=
  if LocalServer.cleanupGuard root (previewPath req) (publicOutputPath req)
  then try_catch (Fs.remove env (previewPath req))
         (fun cleanupError =>
            warn ("Warning: Failed to cleanup preview directory after error: "
                  +:+ previewPath req))
  else ret tt.

(** The first two steps of [createPreview]: listing and plain install. *)
Definition installed (sitePath : string) : M string :=
  let* dirContents := Fs.readdir sitePath in
  execAsync env "npm install" sitePath.

(** ... and the build command after them. *)
Definition built (sitePath : string) : M string :=
  let* out := installed sitePath in
  execAsync env "npm run build" sitePath.

(** What [createPreview] does once the build command has exited with
    status 0: the check of [dist], the verification, the publication. *)
Definition verifyAndPublish (sitePath id : string) : M Body :=
  let distPath := Path.join sitePath "dist" in
  let* distExists := Fs.pathExists distPath in
  (if distExists : bool
   then LocalServer.verifyBuildArtifacts distPath LocalServer.defaultRequiredFiles
   else throw (Err "Build completed but dist folder not found")) ;;;
  let publicPath := Path.join PUBLIC_DIR id in
  Fs.ensureDir publicPath ;;;
  Fs.copy env distPath publicPath ;;;
  LocalServer.verifyBuildArtifacts publicPath LocalServer.defaultRequiredFiles ;;;
  let* listing := Fs.readdir publicPath in
  ret (BodyPreview ("/preview/" +:+ id) id).

End Stages.
End LocalStages.

(** An effect that writes into the public directory [pub]. *)
Definition populates (pub : string) (e : Event) : Prop :=
  e = EvEnsureDir pub ∨ ∃ src, e = EvCopy src pub.

(** In [events], every effect that writes into [pub] comes after the
    effect [check]. *)
Definition only_after (check : Event) (pub : string) (events : list Event) : Prop :=
  ∀ i e, events !! i = Some e → populates pub e →
         ∃ j, (j < i)%nat ∧ events !! j = Some check.

(** The errors the specification calls [BuildError]. *)
Definition BuildError (e : Error) : Prop :=
  (∃ code err, e = ExecError "npm run build" code err)
  ∨ e = Err "Build completed but dist folder not found".


(** The workspace directory of a request is gone when the local create
    handler has answered. *)
Definition workspace_removed (env : Env) (root : string) (req : CreateRequest)
    (w : World) : Prop :=
  Fs.exists_at (fs (LocalServer.createHandler env root req w).2)
    (Path.resolve (LocalStages.previewPath root req)) = false.

(** The same for the remote strategy. *)
Definition remote_workspace_removed (env : Env) (root : string)
    (req : CreateRequest) (w : World) : Prop :=
  Fs.exists_at (fs (VercelServer.createHandler env root req w).2)
    (Path.resolve (Path.join (VercelServer.PREVIEW_DIR root) (req_id req))) = false.

(** The environment with another answer to removals. *)
Definition with_removals (env : Env) (denied : string -> World -> bool) : Env :=
  mkEnv (run env) denied (deploy env) (copy_reached env).

(** The errors of the steps of [createPreview] after the build. *)
Definition publish_error (e : Error) : Prop :=
  (∃ code p, e = SystemError code p)
  ∨ (∃ m, e = Err ("Cannot " +:+ m))
  ∨ e = Err "Required build artifact not found: index.html".

Module VercelStages.
Section Stages.

Variable env : Env.
Variable root : string.

Definition previewPath (req : CreateRequest) : string :=
  Path.join (VercelServer.PREVIEW_DIR root) (req_id req).

(** The materialization stage of [VercelServer.createHandler]. *)
Definition materialize (req : CreateRequest) : M unit :=
  Fs.ensureDir (previewPath req) ;;;
  Fs.copy env (VercelServer.BASE_TEMPLATE_DIR root) (previewPath req) ;;;
  for_of (req_files req) (VercelServer.processEntry (previewPath req)).

(** The rest of the [try] block: the installs and the deployment. *)
Definition installAndDeploy (req : CreateRequest) : M Response :=
  let* installed := execAsync env "npm install" (previewPath req) in
  (if (0 <? Z.of_nat (length (req_dependencies req)))
   then VercelServer.installAdditionalDependencies env (previewPath req)
          (req_dependencies req)
   else ret tt) ;;;
  let* deploymentResult := VercelServer.deployToVercel env (previewPath req) in
  ret (res_json (BodyDeployment deploymentResult)).

End Stages.
End VercelStages.

(** A computation that runs no external command. *)
Definition quiet {A} (m : M A) : Prop :=
  ∀ w, exec_calls (trace (m w).2) = exec_calls (trace w).

(** C5 as written: the plain install is the first command, the install of
    the extra dependencies the second. *)
Definition plain_install_then_extras (p : string) (deps : list string)
    (calls : list (string * string)) : Prop :=
  ∃ rest, calls = ("npm install", p)
                  :: ("npm install " +:+ Js.join " " deps, p) :: rest.

(** ** The other functions of the servers *)

(** [path.join(...args)] with any number of arguments: the non-empty ones
    joined by a slash, then normalized. *)
Definition path_join_all (args : list string) : string :=
  match filter (fun a => a ≠ EmptyString) args with
  | [] => "."
  | a :: rest => Path.normalize (Js.join "/" (a :: rest))
  end.

(** [initializeBaseTemplate] (part_000 lines 260-278, preview-server.js
    lines 237-393): the entries of [baseFiles] are written in order, then
    the dependencies of the template are installed. The table of file
    contents is a parameter; its keys are [baseFilePaths]. *)
Module Template.
Section Template.

Variable env : Env.
Variable root : string.
Variable baseFiles : list (string * string).

Definition writeBaseFile (entry : string * string) : M unit :=
  let fullPath := Path.join (LocalServer.BASE_TEMPLATE_DIR root) entry.1 in
  Fs.ensureDir (Path.dirname fullPath) ;;;
  Fs.writeFile fullPath entry.2.

Definition initializeBaseTemplate : M unit :=
  try_catch
    (for_of baseFiles writeBaseFile ;;;
     let* installed := execAsync env "npm install" (LocalServer.BASE_TEMPLATE_DIR root) in
     ret tt)
    (fun error => throw error).

End Template.

(** The keys of [baseFiles] in part_000, in insertion order. *)
Definition baseFilePaths : list string :=
["index.html"; "src/main.tsx"; "src/App.tsx"; "src/styles.css";
 "package.json"; "postcss.config.js"; "tailwind.config.js";
 "tsconfig.json"; "tsconfig.node.json"; "vite.config.ts"].

End Template.

(** The read-only routes of part_000. *)
Module Routes.

Inductive RouteResponse : Type :=
| SendFile (fullPath : string)                     (* [res.sendFile(fullPath)] *)
| NotFound (message checkedPath : string).         (* status 404 *)

Section Routes.

Variable root : string.

(** [app.get('/preview/:id/*', ...)] (lines 401-417). *)
Definition previewRoute (id : string) : M RouteResponse :=
  let fullPath := path_join_all [LocalServer.PUBLIC_DIR root; id; "index.html"] in
  let* found := Fs.pathExists fullPath in
  if found : bool then ret (SendFile fullPath)
  else ret (NotFound ("File not found: " +:+ fullPath) fullPath).




End Routes.
End Routes.

(** ** Vocabulary of the further statements *)

(** Every effect a computation adds to the trace satisfies [P]. *)
Definition emits_only {A} (P : Event -> Prop) (m : M A) : Prop :=
  ∀ w, ∃ events, trace (m w).2 = trace w ++ events ∧ Forall P events.

(** All nodes of a submitted tree, the node itself first. *)
Fixpoint nodes (f : FileNode) : list FileNode :=
  f :: match f with
       | mkFileNode _ _ _ (Some children) =>
           (fix each (l : list FileNode) : list FileNode :=
              match l with
              | [] => []
              | child :: rest => nodes child ++ each rest
              end) children
       | mkFileNode _ _ _ None => []
       end.

(** A path whose slash-separated segments are ordinary names: none is
    empty, [.] or [..]. *)
Definition ordinary (path : string) : Prop :=
  Forall clean (Js.split Path.slash path).

(** A request whose id and whose node paths, at every depth, are
    ordinary. *)
Definition ordinary_request (req : CreateRequest) : Prop :=
  ordinary (req_id req)
  ∧ ∀ file n, file ∈ req_files req → n ∈ nodes file → ordinary (node_path n).

(** The paths a request makes the server write to during materialization
    stay out of [d]: the workspace is neither at, below nor above [d],
    and no node path joined to the workspace, nor the parent directory of
    that path, is at or below [d]. *)
Definition keeps_out (d : list string) (root : string) (req : CreateRequest) : Prop :=
  let p := LocalStages.previewPath root req in
  ¬ d `prefix_of` Path.resolve p
  ∧ ¬ Path.resolve p `prefix_of` d
  ∧ ∀ file n, file ∈ req_files req → n ∈ nodes file →
      ¬ d `prefix_of` Path.resolve (Path.join p (node_path n))
      ∧ ¬ d `prefix_of` Path.resolve (Path.dirname (Path.join p (node_path n))).

(** An effect of the server itself that can create or overwrite an entry
    at or below [d]: an [ensureDir] or a [writeFile] whose target is at
    or below [d], a [copy] whose destination is at or below [d] or
    leads to it. The commands the server runs are not its own effects. *)
Definition writes_into (d : list string) (e : Event) : Prop :=
  match e with
  | EvEnsureDir p => d `prefix_of` Path.resolve p
  | EvWriteFile p _ => d `prefix_of` Path.resolve p
  | EvCopy _ p => d `prefix_of` Path.resolve p ∨ Path.resolve p `prefix_of` d
  | _ => False
  end.

(** In [events], every effect with [Q] comes after the effect [check]. *)
Definition comes_after (check : Event) (Q : Event -> Prop) (events : list Event) : Prop :=
  ∀ i e, events !! i = Some e → Q e →
         ∃ j, (j < i)%nat ∧ events !! j = Some check.

(** The commands run in [cwd] leave everything at or below [d] as it
    is. *)
Definition spares (d : list string) (env : Env) (cwd : string) : Prop :=
  ∀ cmd w k, d `prefix_of` k → (run env cmd cwd w).2 !! k = fs w !! k.

(** Two file systems with the same entries at and below [d]. *)
Definition same_below (d : list string) (f f' : FS) : Prop :=
  ∀ k, d `prefix_of` k → f' !! k = f !! k.

(** What the local strategy writes for the content of a file node. *)
Definition written (content : Content) : option string :=
  match content with
  | Str s => Some (stripFence s)
  | Absent => Some EmptyString
  | NonString => None
  end.

(** An effect of the materialization of node [n] below [basePath]. *)
Definition materializes (basePath : string) (n : FileNode) (e : Event) : Prop :=
  e = EvEnsureDir (Path.join basePath (node_path n))
  ∨ e = EvEnsureDir (Path.dirname (Path.join basePath (node_path n)))
  ∨ ∃ c, written (node_content n) = Some c
         ∧ e = EvWriteFile (Path.join basePath (node_path n)) c.

(** The entries one file system has are kept by the other: a directory
    stays a directory, a file stays a file, and a file keeps its content
    unless its path is one of [targets]. *)
Definition keeps (targets : list (list string)) (f f' : FS) : Prop :=
  ∀ k, match f !! k with
       | Some Dir => f' !! k = Some Dir
       | Some (File c) =>
           f' !! k = Some (File c) ∨ (k ∈ targets ∧ ∃ c', f' !! k = Some (File c'))
       | None => True
       end.

(** Neither path lies in the other. *)
Definition apart (a b : list string) : Prop :=
  ¬ a `prefix_of` b ∧ ¬ b `prefix_of` a.

(** An effect that is neither a removal nor a warning. *)
Definition not_removal (e : Event) : Prop :=
  (∀ p, e ≠ EvRemove p) ∧ (∀ msg, e ≠ EvWarn msg).

(** A computation under which the file system [keeps] its entries. *)
Definition keeping {A} (targets : list (list string)) (m : M A) : Prop :=
  ∀ w, keeps targets (fs w) (fs (m w).2).

(** Outside [d], what one file system has the other has unchanged, and
    what is new in the other is a directory that leads to [d]. *)
Definition grows_into (d : list string) (f f' : FS) : Prop :=
  ∀ k, ¬ d `prefix_of` k →
       match f !! k with
       | Some n => f' !! k = Some n
       | None => f' !! k = None ∨ (k `prefix_of` d ∧ f' !! k = Some Dir)
       end.

(** A computation whose effect on the file system is within [R]. *)
Definition fs_within {A : Type} (R : FS -> FS -> Prop) (m : M A) : Prop :=
  ∀ w, R (fs w) (fs (m w).2).

(** The entry a base file of the template is written to. *)
Definition template_entry (root : string) (filePath : string) : list string :=
  Path.resolve (Path.join (LocalServer.BASE_TEMPLATE_DIR root) filePath).

(** * Verification *)

(** ** Strings: splitting and joining *)

Section Strings.

Implicit Types (c : ascii) (s t : string) (l : list string).

Lemma append_nil_l s : EmptyString +:+ s = s.
Proof. reflexivity. Qed.

Lemma append_cons a s t : String a s +:+ t = String a (s +:+ t).
Proof. reflexivity. Qed.

Lemma append_nil_r s : s +:+ EmptyString = s.
Proof. induction s; rewrite ?append_nil_l, ?append_cons; congruence. Qed.

Lemma append_assoc s t u : (s +:+ t) +:+ u = s +:+ t +:+ u.
Proof. induction s; rewrite ?append_nil_l, ?append_cons; congruence. Qed.

Lemma split_nonempty c s : Js.split c s ≠ [].
Proof.
  destruct s as [|a s]; simpl; [discriminate|].
  destruct (Ascii.eqb a c); [discriminate|].
  destruct (Js.split c s); discriminate.
Qed.

Lemma split_cons c s : ∃ x r, Js.split c s = x :: r.
Proof.
  destruct (Js.split c s) as [|x r] eqn:E; [by apply split_nonempty in E|eauto].
Qed.

Lemma split_lacks c s : Js.lacks c s = true → Js.split c s = [s].
Proof.
  induction s as [|a s IH]; simpl; [done|].
  intros [Ha Hs]%andb_prop. apply negb_true_iff in Ha. rewrite Ha.
  by rewrite (IH Hs).
Qed.

(** Splitting distributes over a separator occurrence. *)
Lemma split_app c s t :
  Js.split c (s +:+ String c t) = Js.split c s ++ Js.split c t.
Proof.
  induction s as [|a s IH]; rewrite ?append_nil_l, ?append_cons; simpl.
  - by rewrite Ascii.eqb_refl.
  - destruct (Ascii.eqb a c); [by rewrite IH|].
    rewrite IH. destruct (split_cons c s) as (x & r & ->). done.
Qed.

Lemma split_segments_lack c s : Forall (fun x => Js.lacks c x = true) (Js.split c s).
Proof.
  induction s as [|a s IH]; simpl; [by repeat constructor|].
  destruct (Ascii.eqb a c) eqn:E; [by constructor|].
  destruct (Js.split c s) as [|x r]; [by repeat constructor; simpl; rewrite E|].
  inversion IH; subst. constructor; [|done]. simpl. by rewrite E.
Qed.

Lemma join_cons sep x y l :
  Js.join sep (x :: y :: l) = x +:+ sep +:+ Js.join sep (y :: l).
Proof. done. Qed.

Lemma join_app sep l1 l2 :
  l1 ≠ [] → l2 ≠ [] →
  Js.join sep (l1 ++ l2) = Js.join sep l1 +:+ sep +:+ Js.join sep l2.
Proof.
  intros H1 H2. induction l1 as [|x l1 IH]; [done|].
  destruct l1 as [|y l1].
  - destruct l2; [done|]. done.
  - change ((x :: y :: l1) ++ l2) with (x :: y :: (l1 ++ l2)).
    rewrite !join_cons. change (y :: l1 ++ l2) with ((y :: l1) ++ l2).
    rewrite IH by done. by rewrite !append_assoc.
Qed.

(** [s.split(c).join(c)] is [s]. *)
Lemma join_split c s : Js.join (String c EmptyString) (Js.split c s) = s.
Proof.
  induction s as [|a s IH]; simpl; [done|].
  destruct (Ascii.eqb a c) eqn:E.
  - apply Ascii.eqb_eq in E as ->.
    destruct (split_cons c s) as (x & r & Hs). rewrite Hs in IH |- *.
    rewrite join_cons, append_cons, append_nil_l. by rewrite IH.
  - destruct (split_cons c s) as (x & r & Hs). rewrite Hs in IH |- *.
    destruct r as [|y r]; [simpl in *; congruence|].
    rewrite join_cons in IH |- *. rewrite append_cons. congruence.
Qed.

(** [l.slice(1, -1)] drops the first and the last element. *)
Lemma slice_1_m1 {A} (l : list A) : Js.slice 1 (-1) l = removelast (tail l).
Proof.
  unfold Js.slice. destruct l as [|a r]; [done|].
  cbn [length tail]. rewrite removelast_firstn_len.
  replace (1 <? 0) with false by done. replace (-1 <? 0) with true by done.
  replace (Z.to_nat (Z.min 1 (Z.of_nat (S (length r))))) with 1%nat by lia.
  cbn [drop]. f_equal. lia.
Qed.

Lemma removelast_snoc {A} (l : list A) (x : A) : removelast (l ++ [x]) = l.
Proof. apply removelast_last. Qed.

Lemma startsWith_append s t p :
  Js.startsWith s p = true → Js.startsWith (s +:+ t) p = true.
Proof.
  unfold Js.startsWith. revert s.
  induction p as [|a p IH]; intros s; [by destruct (s +:+ t)|].
  destruct s as [|b s]; rewrite ?append_nil_l, ?append_cons; simpl; [done|].
  destruct (ascii_dec a b); [apply IH|done].
Qed.

End Strings.

(** ** The primitives on concrete inputs *)

Example split_on_slash : Js.split "/"%char "/a//b/" = [""; "a"; ""; "b"; ""]%list.
Proof. reflexivity. Qed.

Example join_plain : Path.join "/app/previews" "abc" = "/app/previews/abc".
Proof. reflexivity. Qed.

Example join_climbs : Path.join "/app/previews" "../public/x/" = "/app/public/x/".
Proof. reflexivity. Qed.

Example join_stops_at_root : Path.join "/app/previews" "../../../.." = "/".
Proof. reflexivity. Qed.

Example join_relative : Path.join "a" "../../b" = "../b".
Proof. reflexivity. Qed.

Example dirname_of_file :
  Path.dirname "/app/previews/abc/src/App.tsx" = "/app/previews/abc/src".
Proof. reflexivity. Qed.

Example dirname_trailing_slash : Path.dirname "/app/x/" = "/app".
Proof. reflexivity. Qed.

Example dirname_top : Path.dirname "/app" = "/".
Proof. reflexivity. Qed.

Example slice_inner : Js.slice 1 (-1) ["a"; "b"; "c"; "d"] = ["b"; "c"].
Proof. reflexivity. Qed.

Example includes_inside : Js.includes "/app/previews/x/app/public" "/app/public" = true.
Proof. reflexivity. Qed.

(** ** Fence handling *)

Section Fence.

Implicit Types (content opening body final : string).

Lemma stripFence_fenced content :
  Js.startsWith content fence = true →
  stripFence content = kept content.
Proof. intros H. unfold stripFence, kept. by rewrite H, slice_1_m1. Qed.

Lemma stripFence_verbatim content :
  Js.startsWith content fence = false → stripFence content = content.
Proof. intros H. unfold stripFence. by rewrite H. Qed.

(** The lines of a text that starts with a one-line opening. *)
Lemma split_opening opening rest :
  Js.lacks newline opening = true →
  Js.split newline (opening +:+ String newline rest)
  = opening :: Js.split newline rest.
Proof. intros H. by rewrite split_app, (split_lacks _ _ H). Qed.

(** Opening line, body, and a last line without a newline after it: the
    body is what is kept, whatever the last line holds. *)
Lemma kept_last_line_dropped opening body final :
  Js.lacks newline opening = true →
  Js.lacks newline final = true →
  kept (opening +:+ nl +:+ body +:+ nl +:+ final) = body.
Proof.
  intros Ho Hl. unfold kept.
  change (opening +:+ nl +:+ body +:+ nl +:+ final)
    with (opening +:+ String newline (body +:+ String newline final)).
  rewrite split_opening by done. cbn [tail].
  rewrite split_app, (split_lacks _ _ Hl), removelast_snoc.
  apply join_split.
Qed.

(** A newline after the closing fence: the closing fence is kept. *)
Lemma kept_trailing_newline opening body :
  Js.lacks newline opening = true →
  kept (opening +:+ nl +:+ body +:+ nl +:+ fence +:+ nl) = body +:+ nl +:+ fence.
Proof.
  intros Ho. unfold kept.
  change (opening +:+ nl +:+ body +:+ nl +:+ fence +:+ nl)
    with (opening +:+ String newline (body +:+ String newline (fence +:+ nl))).
  rewrite split_opening by done. cbn [tail].
  rewrite split_app.
  change (Js.split newline (fence +:+ nl)) with ([fence] ++ [EmptyString]).
  rewrite app_assoc, removelast_snoc.
  rewrite join_app; [|apply split_nonempty|done].
  unfold nl at 1. by rewrite join_split.
Qed.

(** A well-formed fenced block: opening fence line, body, closing fence. *)
Lemma stripFence_well_formed opening body :
  Js.startsWith opening fence = true →
  Js.lacks newline opening = true →
  stripFence (opening +:+ nl +:+ body +:+ nl +:+ fence) = body.
Proof.
  intros Hf Ho. rewrite stripFence_fenced by by apply startsWith_append.
  by apply kept_last_line_dropped.
Qed.

End Fence.

(** ** File-system calls *)

Section FsCalls.

Implicit Types (w : World) (p : string).

Lemma writeFile_written p content w w' :
  Fs.writeFile p content w = (Ok tt, w') →
  fs w' !! Path.resolve p = Some (File content).
Proof.
  unfold Fs.writeFile. intros H.
  destruct (_ || _); [done|]. destruct (Fs.is_dir _ _); [|done].
  inversion H; subst; simpl. apply lookup_insert_eq.
Qed.

End FsCalls.

(** ** Materialization of one file node *)

Section Materialize.

Lemma local_processFile_file path content children basePath :
  LocalServer.processFile (mkFileNode "file" path content children) basePath
  = (Fs.ensureDir (Path.dirname (Path.join basePath path)) ;;;
     match content with
     | Str s => Fs.writeFile (Path.join basePath path) (stripFence s)
     | NonString =>
         throw (TypeError "The data argument must be of type string or an instance of Buffer, TypedArray, or DataView.")
     | Absent => Fs.writeFile (Path.join basePath path) EmptyString
     end).
Proof. reflexivity. Qed.

(** What a [file] node leaves on disk under the local strategy. *)
Lemma local_file_written path content children basePath w w' :
  LocalServer.processFile (mkFileNode "file" path content children) basePath w
  = (Ok tt, w') →
  match content with
  | Str s => fs w' !! Path.resolve (Path.join basePath path) = Some (File (stripFence s))
  | Absent => fs w' !! Path.resolve (Path.join basePath path) = Some (File EmptyString)
  | NonString => False
  end.
Proof.
  rewrite local_processFile_file. unfold bind.
  destruct (Fs.ensureDir _ w) as [[[]|e] w1]; [|done].
  destruct content; try apply writeFile_written. done.
Qed.

Lemma vercel_processEntry_file path content children previewPath :
  VercelServer.processEntry previewPath (mkFileNode "file" path content children)
  = try_catch
      (Fs.ensureDir (Path.dirname (Path.join previewPath path)) ;;;
       VercelServer.writeContent (Path.join previewPath path) content)
      (fun error => throw error).
Proof. reflexivity. Qed.

Lemma vercel_file_written path s children previewPath w w' :
  VercelServer.processEntry previewPath (mkFileNode "file" path (Str s) children) w
  = (Ok tt, w') →
  fs w' !! Path.resolve (Path.join previewPath path) = Some (File (stripFence s)).
Proof.
  rewrite vercel_processEntry_file. unfold try_catch, bind.
  destruct (Fs.ensureDir _ w) as [[[]|e] w1]; [|done].
  simpl. destruct (Fs.writeFile _ _ w1) as [[[]|e] w2] eqn:E; [|done].
  intros [= <-]. by apply writeFile_written in E.
Qed.

End Materialize.

(** ** Path normalization *)

Section PathFacts.

Implicit Types (s t id : string) (st segs : list string).

Local Abbreviation ns := (Path.normalizeString false).
Local Abbreviation slash := Path.slash.

Lemma ns_app st l1 l2 : ns st (l1 ++ l2) = ns (ns st l1) l2.
Proof.
  revert st. induction l1 as [|s l1 IH]; intros st; simpl; [done|].
  destruct (_ || _); [done|]. destruct (Path.is_dotdot s); [|done].
  destruct st as [|top below]; [done|]. by destruct (Path.is_dotdot top).
Qed.

Lemma ns_skip_empty st segs : ns st (EmptyString :: segs) = ns st segs.
Proof. done. Qed.

Lemma ns_push st s segs : clean s → ns st (s :: segs) = ns (s :: st) segs.
Proof.
  intros (Hne & Hd & Hdd & _). simpl.
  apply String.eqb_neq in Hne. by rewrite Hne, Hd, Hdd.
Qed.

Lemma ns_push_all st l : Forall clean l → ns st l = rev l ++ st.
Proof.
  intros H. revert st. induction H as [|s l Hs _ IH]; intros st; [done|].
  rewrite ns_push, IH by done. simpl. by rewrite <- app_assoc.
Qed.

Lemma ns_clean st segs :
  Forall clean st → Forall (fun x => Js.lacks slash x = true) segs →
  Forall clean (ns st segs).
Proof.
  intros Hst Hsegs. revert st Hst.
  induction Hsegs as [|s segs Hs _ IH]; intros st Hst; simpl; [done|].
  destruct (String.eqb s EmptyString) eqn:E1; simpl; [by apply IH|].
  destruct (Path.is_dot s) eqn:E2; [by apply IH|].
  destruct (Path.is_dotdot s) eqn:E3.
  - destruct st as [|top below]; [by apply IH|].
    destruct (Path.is_dotdot top); [by apply IH|].
    apply IH. by inversion Hst.
  - apply IH. constructor; [|done].
    by apply String.eqb_neq in E1.
Qed.

(** Two stacks that differ in one segment, fed the same segments, keep
    differing in that segment only, or become equal. *)
Lemma ns_fork a b S segs X :
  Path.is_dotdot a = false → Path.is_dotdot b = false →
  (∃ Y, ns (X ++ a :: S) segs = Y ++ a :: S ∧ ns (X ++ b :: S) segs = Y ++ b :: S)
  ∨ ns (X ++ a :: S) segs = ns (X ++ b :: S) segs.
Proof.
  intros Ha Hb. revert X. induction segs as [|s rest IH]; intros X; simpl.
  - left. by exists X.
  - destruct (_ || _); [apply IH|]. destruct (Path.is_dotdot s).
    + destruct X as [|x X']; simpl.
      * rewrite Ha, Hb. by right.
      * destruct (Path.is_dotdot x); [apply (IH (x :: X'))|apply IH].
    + apply (IH (s :: X)).
Qed.

Lemma endsWithChar_lacks c s : Js.lacks c s = true → Js.endsWithChar s c = false.
Proof.
  induction s as [|a s IH]; [done|]. simpl.
  intros [Ha Hs]%andb_prop. apply negb_true_iff in Ha.
  destruct s; [done|]. by apply IH.
Qed.

Lemma endsWithChar_app c s t :
  t ≠ EmptyString → Js.endsWithChar (s +:+ t) c = Js.endsWithChar t c.
Proof.
  intros Ht. induction s as [|a s IH]; [done|].
  rewrite append_cons. simpl. rewrite IH.
  destruct (s +:+ t) eqn:E; [|done].
  destruct s; [by rewrite append_nil_l in E|by rewrite append_cons in E].
Qed.

Lemma split_join l :
  l ≠ [] → Forall (fun x => Js.lacks slash x = true) l →
  Js.split slash (Js.join "/" l) = l.
Proof.
  intros Hne H. induction H as [|x l Hx Hl IH]; [done|].
  destruct l as [|y l].
  - by apply split_lacks.
  - rewrite join_cons.
    change ("/" +:+ Js.join "/" (y :: l)) with (String slash (Js.join "/" (y :: l))).
    rewrite split_app, IH by done. by rewrite split_lacks.
Qed.

Lemma clean_lacks l : Forall clean l → Forall (fun x => Js.lacks slash x = true) l.
Proof. intros H. eapply Forall_impl; [done|]. by intros x (_ & _ & _ & ?). Qed.

Lemma join_clean_nonempty x l :
  clean x → Js.join "/" (x :: l) ≠ EmptyString.
Proof.
  intros (Hne & _). destruct l; [done|]. rewrite join_cons.
  destruct x; [done|]. by rewrite append_cons.
Qed.

Lemma endsWithChar_join l :
  l ≠ [] → Forall clean l → Js.endsWithChar (Js.join "/" l) slash = false.
Proof.
  intros Hne H. induction H as [|x l Hx Hl IH]; [done|].
  destruct l as [|y l].
  - apply endsWithChar_lacks, Hx.
  - assert (Js.join "/" (y :: l) ≠ EmptyString) as HJ
      by (inversion Hl; subst; by apply join_clean_nonempty).
    rewrite join_cons, endsWithChar_app, endsWithChar_app; [by apply IH|done|].
    by destruct (Js.join "/" (y :: l)).
Qed.

End PathFacts.

Section PathJoin.

Implicit Types (s t id : string) (st segs B : list string).

Local Abbreviation ns := (Path.normalizeString false).
Local Abbreviation slash := Path.slash.

Lemma split_leading_slash s :
  Js.split slash (String slash s) = EmptyString :: Js.split slash s.
Proof. done. Qed.

(** [path.normalize] on an absolute path. *)
Lemma normalize_absolute s :
  Path.normalize (String slash s)
  = render (ns [] (Js.split slash s)) (Js.endsWithChar (String slash s) slash).
Proof.
  unfold Path.normalize, render.
  replace (Path.isAbsolute (String slash s)) with true by by destruct s.
  by rewrite split_leading_slash, ns_skip_empty.
Qed.

Lemma render_cons x B tr :
  Forall clean (x :: B) →
  render (x :: B) tr
  = String slash (Js.join "/" (rev (x :: B)) +:+ (if tr then "/" else EmptyString)).
Proof.
  intros H. unfold render.
  destruct (rev (x :: B)) as [|y l] eqn:E.
  { by apply (f_equal length) in E; rewrite length_rev in E. }
  assert (clean y) as Hy.
  { apply Forall_rev in H. rewrite E in H. by inversion H. }
  apply (join_clean_nonempty y l) in Hy. apply String.eqb_neq in Hy. by rewrite Hy.
Qed.

(** Reading a printed path back gives the stack it was printed from. *)
Lemma parse_render B tr :
  Forall clean B → ns [] (Js.split slash (render B tr)) = B.
Proof.
  intros H. destruct B as [|x B]; [done|].
  rewrite render_cons, split_leading_slash, ns_skip_empty by done.
  assert (Js.split slash (Js.join "/" (rev (x :: B))) = rev (x :: B)) as Hs.
  { apply split_join; [|by apply clean_lacks, Forall_rev].
    intros E. by apply (f_equal length) in E; rewrite length_rev in E. }
  destruct tr.
  - change (?a +:+ "/") with (a +:+ String slash EmptyString).
    rewrite split_app, Hs, ns_app.
    rewrite (ns_push_all [] (rev (x :: B))) by by apply Forall_rev.
    by rewrite rev_involutive, app_nil_r.
  - rewrite append_nil_r, Hs, ns_push_all by by apply Forall_rev.
    by rewrite rev_involutive, app_nil_r.
Qed.

Lemma resolve_render B tr : Forall clean B → Path.resolve (render B tr) = rev B.
Proof. intros H. unfold Path.resolve. by rewrite parse_render. Qed.

Lemma endsWithChar_render_false x B :
  Forall clean (x :: B) → Js.endsWithChar (render (x :: B) false) slash = false.
Proof.
  intros H. rewrite render_cons, append_nil_r by done.
  assert (Js.join "/" (rev (x :: B)) ≠ EmptyString) as Hne.
  { destruct (rev (x :: B)) as [|y l] eqn:E.
    { by apply (f_equal length) in E; rewrite length_rev in E. }
    apply join_clean_nonempty. apply Forall_rev in H. rewrite E in H. by inversion H. }
  change (String slash ?s) with ("/" +:+ s). rewrite endsWithChar_app by done.
  apply endsWithChar_join; [|by apply Forall_rev].
  intros E. by apply (f_equal length) in E; rewrite length_rev in E.
Qed.

(** [path.join(base, id)] for a normalized absolute [base]: the segments
    of [id] are run from the stack of [base]. *)
Lemma join_from_base x B id :
  Forall clean (x :: B) →
  Path.join (render (x :: B) false) id
  = render (ns (x :: B) (Js.split slash id)) (Js.endsWithChar id slash).
Proof.
  intros H. unfold Path.join.
  rewrite (render_cons x B false H), append_nil_r.
  replace (String.eqb (String slash _) EmptyString) with false by done.
  assert (Js.split slash (Js.join "/" (rev (x :: B))) = rev (x :: B)) as Hs.
  { apply split_join; [|by apply clean_lacks, Forall_rev].
    intros E. by apply (f_equal length) in E; rewrite length_rev in E. }
  destruct (String.eqb id EmptyString) eqn:Eid.
  - apply String.eqb_eq in Eid as ->.
    rewrite normalize_absolute, Hs, ns_push_all by by apply Forall_rev.
    rewrite rev_involutive, app_nil_r.
    pose proof (endsWithChar_render_false x B H) as He.
    rewrite render_cons, append_nil_r in He by done. by rewrite He.
  - apply String.eqb_neq in Eid.
    rewrite append_cons, normalize_absolute.
    change ("/" +:+ id) with (String slash id).
    rewrite split_app, Hs, ns_app.
    rewrite (ns_push_all [] (rev (x :: B))) by by apply Forall_rev.
    rewrite rev_involutive, app_nil_r. f_equal.
    change (String slash (?a +:+ String slash id)) with ("/" +:+ (a +:+ ("/" +:+ id))).
    rewrite endsWithChar_app by by destruct (Js.join "/" (rev (x :: B))).
    by rewrite endsWithChar_app, endsWithChar_app.
Qed.

(** The three directories of the servers, as stacks over [__dirname]. *)
Lemma join_dirname root name :
  clean name →
  Path.join (String slash root) name
  = render (name :: ns [] (Js.split slash root)) false.
Proof.
  intros Hn. unfold Path.join.
  replace (String.eqb (String slash root) EmptyString) with false by done.
  destruct Hn as (Hne & Hd & Hdd & Hl).
  apply String.eqb_neq in Hne as Hne'. rewrite Hne'.
  rewrite append_cons, normalize_absolute.
  change ("/" +:+ name) with (String slash name).
  rewrite split_app, ns_app, (split_lacks _ _ Hl), ns_push by done.
  simpl Path.normalizeString. f_equal.
  change (String slash (root +:+ String slash name)) with ("/" +:+ (root +:+ ("/" +:+ name))).
  rewrite endsWithChar_app by by destruct root.
  rewrite endsWithChar_app, endsWithChar_app by done.
  by apply endsWithChar_lacks.
Qed.

Lemma dirname_stack_clean root name :
  clean name → Forall clean (name :: ns [] (Js.split slash root)).
Proof.
  intros Hn. constructor; [done|].
  apply ns_clean; [done|apply split_segments_lack].
Qed.

(** A workspace path and a public path of the same id, seen as
    directory entries: neither lies in the other, unless the two path
    strings are the same. *)
Lemma sibling_paths root a b id :
  clean a → clean b → a ≠ b →
  let pa := Path.join (Path.join (String slash root) a) id in
  let pb := Path.join (Path.join (String slash root) b) id in
  pa = pb
  ∨ (∀ k, Path.resolve pb `prefix_of` k → ¬ Path.resolve pa `prefix_of` k).
Proof.
  intros Ha Hb Hab pa pb. subst pa pb.
  rewrite !join_dirname by done.
  rewrite !join_from_base by by apply dirname_stack_clean.
  set (S := ns [] (Js.split slash root)).
  destruct (ns_fork a b S (Js.split slash id) []) as [(Y & E1 & E2)| E];
    [apply Ha|apply Hb| |].
  - right. simpl in E1, E2. rewrite E1, E2.
    assert (Forall clean (Y ++ a :: S)) as H1.
    { rewrite <- E1. apply ns_clean; [by apply dirname_stack_clean|apply split_segments_lack]. }
    assert (Forall clean (Y ++ b :: S)) as H2.
    { rewrite <- E2. apply ns_clean; [by apply dirname_stack_clean|apply split_segments_lack]. }
    rewrite !resolve_render by done.
    rewrite !rev_app_distr. simpl. rewrite <- !app_assoc. simpl.
    intros k [k2 ->] [k1 Hk].
    rewrite <- !app_assoc in Hk. apply app_inv_head in Hk.
    simpl in Hk. congruence.
  - left. simpl in E. by rewrite E.
Qed.

End PathJoin.

(** ** The monad *)

Section Monad.

Lemma try_rethrow {A} (m : M A) w : try_catch m (fun e => throw e) w = m w.
Proof. unfold try_catch, throw. by destruct (m w) as [[a|e] w1]. Qed.

(** A run with a known result. *)
Lemma run_eta {A} (out : Result A * World) (r : Result A) :
  out.1 = r → out = (r, out.2).
Proof. intros <-. by destruct out. Qed.

End Monad.

(** ** The create handler of the local strategy, stage by stage *)

Section LocalHandler.

Variable env : Env.
Variable root : string.

Import LocalStages.

Lemma createHandler_split req w :
  LocalServer.createHandler env root req w
  = match pipeline env root req w with
    | (Ok b, w1) => (Ok (res_json b), (cleanupAfterSuccess env root req w1).2)
    | (Throw e, w1) => (Ok (res_error e), (cleanupAfterError env root req w1).2)
    end.
Proof.
  unfold LocalServer.createHandler, pipeline, materialize, installExtras,
    cleanupAfterSuccess, cleanupAfterError, previewPath, publicOutputPath.
  set (a := Fs.ensureDir _). set (b := Fs.copy _ _ _). set (c := for_of _ _).
  set (d := if 0 <? _ then _ else _). set (p := LocalServer.createPreview _ _ _ _).
  set (g := LocalServer.cleanupGuard _ _ _). set (r := Fs.remove _ _).
  clearbody a b c d p g r.
  unfold try_catch, bind, ret, warn.
  destruct (a w) as [[[]|?] w1]; [|destruct g; [by destruct (r w1) as [[[]|?] ?]|done]].
  destruct (b w1) as [[[]|?] w2]; [|destruct g; [by destruct (r w2) as [[[]|?] ?]|done]].
  destruct (c w2) as [[[]|?] w3]; [|destruct g; [by destruct (r w3) as [[[]|?] ?]|done]].
  destruct (d w3) as [[[]|?] w4]; [|destruct g; [by destruct (r w4) as [[[]|?] ?]|done]].
  destruct (p w4) as [[?|?] w5]; [|destruct g; [by destruct (r w5) as [[[]|?] ?]|done]].
  destruct g; [|done]. by destruct (r w5) as [[[]|?] w6].
Qed.

End LocalHandler.

(** ** Removal *)

Section Removal.

Implicit Types (k q : list string) (f : FS).

Lemma prune_lookup_out k f q : ¬ k `prefix_of` q → Fs.prune k f !! q = f !! q.
Proof.
  intros H. unfold Fs.prune. destruct (f !! q) as [n|] eqn:E.
  - by apply map_lookup_filter_Some.
  - apply map_lookup_filter_None. by left.
Qed.

Lemma prune_lookup_in k f q : k `prefix_of` q → Fs.prune k f !! q = None.
Proof.
  intros H. unfold Fs.prune. apply map_lookup_filter_None. right.
  intros n _ Hn. by apply Hn.
Qed.

Lemma remove_granted env p w :
  remove_denied env p w = false →
  Fs.remove env p w
  = (Ok tt, set_fs (Fs.prune (Path.resolve p) (fs w)) (emit (EvRemove p) w)).
Proof. intros H. unfold Fs.remove. by rewrite H. Qed.

Lemma remove_refused env p w :
  remove_denied env p w = true →
  Fs.remove env p w = (Throw (SystemError "EPERM" p), emit (EvRemove p) w).
Proof. intros H. unfold Fs.remove. by rewrite H. Qed.

(** A removal changes nothing outside the removed tree. *)
Lemma remove_frame env p w q :
  ¬ Path.resolve p `prefix_of` q → fs (Fs.remove env p w).2 !! q = fs w !! q.
Proof.
  intros H. unfold Fs.remove. destruct (remove_denied env p w); [done|].
  simpl. by apply prune_lookup_out.
Qed.

End Removal.

(** ** Cleanup of the workspace in the local create handler *)

Section LocalCleanup.

Variable env : Env.
Variable root : string.

Import LocalStages.

Lemma clean_previews : clean "previews".
Proof. by repeat split. Qed.

Lemma clean_public : clean "public".
Proof. by repeat split. Qed.

(** When the guard lets the removal through, nothing at or below the
    public directory of the id lies in the workspace. *)
Lemma guard_separates req k :
  LocalServer.cleanupGuard root (previewPath root req) (publicOutputPath root req) = true →
  Path.resolve (publicOutputPath root req) `prefix_of` k →
  ¬ Path.resolve (previewPath root req) `prefix_of` k.
Proof.
  unfold LocalServer.cleanupGuard. intros Hg Hk.
  apply andb_prop in Hg as [Hg _]. apply andb_prop in Hg as [_ Hne].
  apply negb_true_iff, String.eqb_neq in Hne.
  destruct (sibling_paths root "previews" "public" (req_id req)
              clean_previews clean_public) as [E|H]; [done|done|].
  by apply H.
Qed.

Lemma cleanupAfterSuccess_frame req w k :
  Path.resolve (publicOutputPath root req) `prefix_of` k →
  fs (cleanupAfterSuccess env root req w).2 !! k = fs w !! k.
Proof.
  intros Hk. unfold cleanupAfterSuccess, try_catch.
  destruct (LocalServer.cleanupGuard _ _ _) eqn:Hg; [|done].
  pose proof (remove_frame env _ w k (guard_separates req k Hg Hk)) as Hf.
  unfold warn. by destruct (Fs.remove env _ w) as [[[]|e] w1].
Qed.

Lemma cleanupAfterError_frame req w k :
  Path.resolve (publicOutputPath root req) `prefix_of` k →
  fs (cleanupAfterError env root req w).2 !! k = fs w !! k.
Proof.
  intros Hk. unfold cleanupAfterError, try_catch.
  destruct (LocalServer.cleanupGuard _ _ _) eqn:Hg; [|done].
  pose proof (remove_frame env _ w k (guard_separates req k Hg Hk)) as Hf.
  unfold warn. by destruct (Fs.remove env _ w) as [[[]|e] w1].
Qed.

(** The handler leaves the public directory of the id as the stages
    left it. *)
Lemma cleanup_frame_handler req w k :
  Path.resolve (publicOutputPath root req) `prefix_of` k →
  fs (LocalServer.createHandler env root req w).2 !! k
  = fs (pipeline env root req w).2 !! k.
Proof.
  intros Hk. rewrite createHandler_split.
  destruct (pipeline env root req w) as [[b|e] w1]; simpl.
  - by apply cleanupAfterSuccess_frame.
  - by apply cleanupAfterError_frame.
Qed.

(** The stages before the cleanup never ask for a removal. *)
Lemma pipeline_ignores_removals denied req :
  pipeline (with_removals env denied) root req = pipeline env root req.
Proof. reflexivity. Qed.

End LocalCleanup.

(** C9: the removal of the workspace by the local create handler leaves
    every entry at or below [public/{id}] as it was when the cleanup
    started, on the success path and on the failure path: the final file
    system of the handler agrees there with the file system the pipeline
    stages left, and so does each of the two cleanup blocks on any world. *)
Theorem cleanup_leaves_public_untouched (env : Env) (root : string)
    (req : CreateRequest) (w : World) (k : list string) :
  Path.resolve (LocalStages.publicOutputPath root req) `prefix_of` k →
  fs (LocalServer.createHandler env root req w).2 !! k
  = fs (LocalStages.pipeline env root req w).2 !! k
  ∧ fs (LocalStages.cleanupAfterSuccess env root req w).2 !! k = fs w !! k
  ∧ fs (LocalStages.cleanupAfterError env root req w).2 !! k = fs w !! k.
Proof.
  intros Hk. split_and!.
  - by apply cleanup_frame_handler.
  - by apply cleanupAfterSuccess_frame.
  - by apply cleanupAfterError_frame.
Qed.

Lemma cleanup_leaves_public_untouched_witness :
  fs (LocalServer.createHandler Demo.env_ok Demo.root Demo.scenario Demo.world0).2
    !! ["app"; "public"; "abc123"; "index.html"]
  = fs (LocalStages.pipeline Demo.env_ok Demo.root Demo.scenario Demo.world0).2
    !! ["app"; "public"; "abc123"; "index.html"].
Proof.
  apply (cleanup_leaves_public_untouched Demo.env_ok Demo.root Demo.scenario
           Demo.world0 ["app"; "public"; "abc123"; "index.html"]).
  by exists ["index.html"].
Defined.

Section LocalCleanupOutcome.

Variable env : Env.
Variable root : string.

Import LocalStages.

Lemma response_of_pipeline req w :
  (LocalServer.createHandler env root req w).1
  = Ok (match (pipeline env root req w).1 with
        | Ok b => res_json b
        | Throw e => res_error e
        end).
Proof.
  rewrite createHandler_split. by destruct (pipeline env root req w) as [[b|e] w1].
Qed.

Lemma cleanupAfterSuccess_granted req w :
  LocalServer.cleanupGuard root (previewPath root req) (publicOutputPath root req) = true →
  remove_denied env (previewPath root req) w = false →
  (cleanupAfterSuccess env root req w).2
  = set_fs (Fs.prune (Path.resolve (previewPath root req)) (fs w))
      (emit (EvRemove (previewPath root req)) w).
Proof.
  intros Hg Hd. unfold cleanupAfterSuccess, try_catch.
  by rewrite Hg, remove_granted.
Qed.

Lemma cleanupAfterError_granted req w :
  LocalServer.cleanupGuard root (previewPath root req) (publicOutputPath root req) = true →
  remove_denied env (previewPath root req) w = false →
  (cleanupAfterError env root req w).2
  = set_fs (Fs.prune (Path.resolve (previewPath root req)) (fs w))
      (emit (EvRemove (previewPath root req)) w).
Proof.
  intros Hg Hd. unfold cleanupAfterError, try_catch.
  by rewrite Hg, remove_granted.
Qed.

Lemma cleanupAfterSuccess_refused req w :
  LocalServer.cleanupGuard root (previewPath root req) (publicOutputPath root req) = true →
  remove_denied env (previewPath root req) w = true →
  (cleanupAfterSuccess env root req w).2
  = emit (EvWarn ("Warning: Failed to cleanup preview directory: " +:+ previewPath root req))
      (emit (EvRemove (previewPath root req)) w).
Proof.
  intros Hg Hd. unfold cleanupAfterSuccess, try_catch.
  by rewrite Hg, remove_refused.
Qed.

Lemma cleanupAfterError_refused req w :
  LocalServer.cleanupGuard root (previewPath root req) (publicOutputPath root req) = true →
  remove_denied env (previewPath root req) w = true →
  (cleanupAfterError env root req w).2
  = emit (EvWarn ("Warning: Failed to cleanup preview directory after error: "
                  +:+ previewPath root req))
      (emit (EvRemove (previewPath root req)) w).
Proof.
  intros Hg Hd. unfold cleanupAfterError, try_catch.
  by rewrite Hg, remove_refused.
Qed.

End LocalCleanupOutcome.

(** C6, as the code has it: under the local strategy, when the cleanup
    guard of the handler lets the removal through (the workspace path is
    not the public path of the id and does not contain the public root),
    the handler asks for the removal of the workspace after the pipeline
    stages, on the success path and on the failure path. If the removal
    is granted, nothing is left at or below the workspace path when the
    response is returned. If it is refused, the file system stays as the
    stages left it and one warning is logged. In both cases, and whatever
    the guard says, the response is the one the stages determine. *)
Theorem workspace_removed_when_guard_passes (env : Env) (root : string)
    (req : CreateRequest) (w : World) :
  LocalServer.cleanupGuard root (LocalStages.previewPath root req)
    (LocalStages.publicOutputPath root req) = true →
  let p := LocalStages.previewPath root req in
  let staged := LocalStages.pipeline env root req w in
  let out := LocalServer.createHandler env root req w in
  out.1 = Ok (match staged.1 with Ok b => res_json b | Throw e => res_error e end)
  ∧ (∀ denied,
       (LocalServer.createHandler (with_removals env denied) root req w).1 = out.1)
  ∧ (remove_denied env p staged.2 = false →
       trace out.2 = trace staged.2 ++ [EvRemove p]
       ∧ ∀ k, Path.resolve p `prefix_of` k → fs out.2 !! k = None)
  ∧ (remove_denied env p staged.2 = true →
       fs out.2 = fs staged.2
       ∧ ∃ msg, trace out.2 = trace staged.2 ++ [EvRemove p; EvWarn msg]).
Proof.
  intros Hg p staged out. subst p staged out. split_and!.
  - apply response_of_pipeline.
  - intros denied. rewrite !response_of_pipeline.
    by rewrite pipeline_ignores_removals.
  - intros Hd. rewrite createHandler_split.
    destruct (LocalStages.pipeline env root req w) as [[b|e] w1]; simpl in *.
    + rewrite cleanupAfterSuccess_granted by done. split; [done|].
      intros k Hk. by apply prune_lookup_in.
    + rewrite cleanupAfterError_granted by done. split; [done|].
      intros k Hk. by apply prune_lookup_in.
  - intros Hd. rewrite createHandler_split.
    destruct (LocalStages.pipeline env root req w) as [[b|e] w1]; simpl in *.
    + rewrite cleanupAfterSuccess_refused by done. split; [done|].
      eexists. simpl. by rewrite <- app_assoc.
    + rewrite cleanupAfterError_refused by done. split; [done|].
      eexists. simpl. by rewrite <- app_assoc.
Qed.

Lemma workspace_removed_when_guard_passes_witness :
  fs (LocalServer.createHandler Demo.env_ok Demo.root Demo.scenario Demo.world0).2
    !! ["app"; "previews"; "abc123"] = None
  ∧ fs (LocalServer.createHandler Demo.env_ok Demo.root Demo.scenario Demo.world0).2
      !! ["app"; "previews"; "abc123"; "src"; "App.tsx"] = None.
Proof.
  pose proof (workspace_removed_when_guard_passes Demo.env_ok Demo.root
                Demo.scenario Demo.world0) as H.
  destruct H as (_ & _ & H & _); [reflexivity|].
  destruct H as [_ H]; [reflexivity|].
  split; apply H; [by exists []|by exists ["src"; "App.tsx"]].
Defined.

(** C6 as written fails: with an id that leads out of the previews
    directory the guard keeps the workspace (here the workspace is the
    public directory of the id), although no removal is ever refused; and
    the remote strategy removes nothing at all. *)
Lemma workspace_not_always_removed :
  ¬ workspace_removed Demo.env_ok Demo.root Demo.escaping Demo.world0
  ∧ ¬ remote_workspace_removed Demo.env_ok Demo.root Demo.scenario Demo.world0.
Proof. split; unfold workspace_removed, remote_workspace_removed; by vm_compute. Qed.

(** C8: the public cleanup answers [{ success: true }] and changes
    nothing when the public directory of the id is absent; hence a second
    call that follows a successful first call succeeds as well (the
    public directory of the id not being the root of the file system). *)
Theorem public_cleanup_idempotent (env : Env) (root id : string) (w : World) :
  let pub := Path.join (LocalServer.PUBLIC_DIR root) id in
  (Fs.exists_at (fs w) (Path.resolve pub) = false →
   LocalServer.cleanupHandler env root id w
   = (Ok (res_json BodySuccess), emit (EvPathExists pub false) w))
  ∧ (∀ w1, Path.resolve pub ≠ [] →
       LocalServer.cleanupHandler env root id w = (Ok (res_json BodySuccess), w1) →
       LocalServer.cleanupHandler env root id w1
       = (Ok (res_json BodySuccess), emit (EvPathExists pub false) w1)).
Proof.
  intros pub.
  assert (∀ w0, Fs.exists_at (fs w0) (Path.resolve pub) = false →
            LocalServer.cleanupHandler env root id w0
            = (Ok (res_json BodySuccess), emit (EvPathExists pub false) w0)) as Habsent.
  { intros w0 H. unfold LocalServer.cleanupHandler, try_catch, bind, Fs.pathExists.
    fold pub. by rewrite H. }
  split; [apply Habsent|].
  intros w1 Hroot H1. apply Habsent.
  unfold LocalServer.cleanupHandler, try_catch, bind, Fs.pathExists in H1.
  fold pub in H1.
  destruct (Fs.exists_at (fs w) (Path.resolve pub)) eqn:Hex.
  - unfold Fs.remove in H1. simpl in H1.
    destruct (remove_denied env pub _); [done|].
    simpl in H1. inversion H1; subst; simpl.
    unfold Fs.exists_at, Fs.lookup_node.
    destruct (Path.resolve pub) as [|x k] eqn:Ek; [done|].
    by rewrite prune_lookup_in.
  - simpl in H1. inversion H1; subst. done.
Qed.

Lemma public_cleanup_idempotent_witness :
  let w1 := (LocalServer.cleanupHandler Demo.env_ok Demo.root "abc123" Demo.world0).2 in
  (LocalServer.cleanupHandler Demo.env_ok Demo.root "abc123" Demo.world0).1
  = Ok (res_json BodySuccess)
  ∧ (LocalServer.cleanupHandler Demo.env_ok Demo.root "abc123" w1).1
    = Ok (res_json BodySuccess).
Proof.
  destruct (public_cleanup_idempotent Demo.env_ok Demo.root "abc123" Demo.world0)
    as [H1 H2].
  intros w1. subst w1. rewrite H1 by reflexivity. split; [reflexivity|].
  cbn [snd]. rewrite (H2 _ ltac:(discriminate) (H1 eq_refl)). reflexivity.
Defined.

(** ** [createPreview], stage by stage *)

Section CreatePreview.

Variable env : Env.
Variable root : string.

Import LocalStages.

Implicit Types (w : World) (p sitePath id : string).

Lemma readdir_world p w : (Fs.readdir p w).2 = emit (EvReaddir p) w.
Proof. unfold Fs.readdir. by repeat case_match. Qed.

Lemma execAsync_trace cmd cwd w :
  trace (execAsync env cmd cwd w).2 = trace w ++ [EvExec cmd cwd].
Proof. unfold execAsync. by repeat case_match. Qed.

Lemma ensureDir_trace p w : trace (Fs.ensureDir p w).2 = trace w ++ [EvEnsureDir p].
Proof. unfold Fs.ensureDir. by case_match. Qed.

Lemma copy_trace src dst w :
  trace (Fs.copy env src dst w).2 = trace w ++ [EvCopy src dst].
Proof. unfold Fs.copy. by repeat case_match. Qed.

Lemma createPreview_split sitePath id w :
  LocalServer.createPreview env root sitePath id w
  = match built env sitePath w with
    | (Ok _, w3) => verifyAndPublish env root sitePath id w3
    | (Throw e, w') => (Throw e, w')
    end.
Proof.
  unfold LocalServer.createPreview, built, installed, verifyAndPublish.
  set (a := Fs.readdir _). set (b := execAsync _ "npm install" _).
  set (c := execAsync _ "npm run build" _). set (d := Fs.pathExists _).
  set (v := LocalServer.verifyBuildArtifacts (Path.join sitePath _) _).
  set (t := throw _).
  set (e := Fs.ensureDir _). set (f := Fs.copy _ _ _).
  set (v' := LocalServer.verifyBuildArtifacts _ _). set (g := Fs.readdir _).
  clearbody a b c d v t e f v' g.
  unfold try_catch, bind, ret, throw.
  destruct (a w) as [[?|?] w1]; [|done].
  destruct (b w1) as [[?|?] w2]; [|done].
  destruct (c w2) as [[?|?] w3]; [|done].
  destruct (d w3) as [[[]|?] w4]; [| |done].
  - destruct (v w4) as [[[]|?] w5]; [|done].
    destruct (e w5) as [[[]|?] w6]; [|done].
    destruct (f w6) as [[[]|?] w7]; [|done].
    destruct (v' w7) as [[[]|?] w8]; [|done].
    by destruct (g w8) as [[?|?] w9].
  - destruct (t w4) as [[[]|?] w5]; [|done].
    destruct (e w5) as [[[]|?] w6]; [|done].
    destruct (f w6) as [[[]|?] w7]; [|done].
    destruct (v' w7) as [[[]|?] w8]; [|done].
    by destruct (g w8) as [[?|?] w9].
Qed.

(** [verifyBuildArtifacts] with the default artifact set. *)
Lemma verify_default buildPath w :
  LocalServer.verifyBuildArtifacts buildPath LocalServer.defaultRequiredFiles w
  = let found := Fs.exists_at (fs w) (Path.resolve (Path.join buildPath "index.html")) in
    (if found then Ok tt
     else Throw (Err "Required build artifact not found: index.html"),
     emit (EvPathExists (Path.join buildPath "index.html") found) w).
Proof.
  unfold LocalServer.verifyBuildArtifacts, LocalServer.defaultRequiredFiles,
    bind, Fs.pathExists.
  by destruct (Fs.exists_at _ _).
Qed.

Lemma pipeline_split req w :
  pipeline env root req w
  = match prepared env root req w with
    | (Ok _, wa) =>
        LocalServer.createPreview env root (previewPath root req) (req_id req) wa
    | (Throw e, w') => (Throw e, w')
    end.
Proof.
  unfold pipeline, prepared, bind.
  destruct (materialize env root req w) as [[[]|?] w1]; [|done].
  by destruct (installExtras env root req w1) as [[[]|?] w2].
Qed.

End CreatePreview.

Section BuildAndVerify.

Variable env : Env.
Variable root : string.

Import LocalStages.

Implicit Types (w : World) (sitePath id : string).

(** The build command, run after a successful install. *)
Lemma built_after_installed sitePath w o w2 :
  installed env sitePath w = (Ok o, w2) →
  built env sitePath w
  = (match (run env "npm run build" sitePath w2).1 with
     | ExitOk out => Ok out
     | ExitFail code err => Throw (ExecError "npm run build" code err)
     end,
     set_fs (run env "npm run build" sitePath w2).2
       (emit (EvExec "npm run build" sitePath) w2)).
Proof.
  intros H. unfold built, bind. rewrite H. unfold execAsync.
  by destruct (run env _ _ w2) as [[?|? ?] f].
Qed.

(** [dist] is missing after a build that exited with status 0. *)
Lemma verifyAndPublish_no_dist sitePath id w :
  Fs.exists_at (fs w) (Path.resolve (Path.join sitePath "dist")) = false →
  verifyAndPublish env root sitePath id w
  = (Throw (Err "Build completed but dist folder not found"),
     emit (EvPathExists (Path.join sitePath "dist") false) w).
Proof.
  intros H. unfold verifyAndPublish, bind, Fs.pathExists. by rewrite H.
Qed.

(** [dist] is there and the entry document is not. *)
Lemma verifyAndPublish_no_entry sitePath id w :
  Fs.exists_at (fs w) (Path.resolve (Path.join sitePath "dist")) = true →
  Fs.exists_at (fs w)
    (Path.resolve (Path.join (Path.join sitePath "dist") "index.html")) = false →
  verifyAndPublish env root sitePath id w
  = (Throw (Err "Required build artifact not found: index.html"),
     emit (EvPathExists (Path.join (Path.join sitePath "dist") "index.html") false)
       (emit (EvPathExists (Path.join sitePath "dist") true) w)).
Proof.
  intros Hd Hi. unfold verifyAndPublish, bind, Fs.pathExists.
  rewrite Hd, verify_default. simpl. by rewrite Hi.
Qed.

Lemma bind_throw {A B} (m : M A) (k : A → M B) w e :
  (bind m k w).1 = Throw e →
  (m w).1 = Throw e ∨ ∃ a w1, m w = (Ok a, w1) ∧ (k a w1).1 = Throw e.
Proof.
  unfold bind. destruct (m w) as [[a|e'] w1]; simpl; intros H; [|left; congruence].
  right. by exists a, w1.
Qed.

Lemma publish_error_not_build e : publish_error e → ¬ BuildError e.
Proof.
  intros [(? & ? & ->)|[(? & ->)| ->]] [(? & ? & H)|H]; try done.
  all: cbv in H; discriminate H.
Qed.

Lemma ensureDir_error p w e : (Fs.ensureDir p w).1 = Throw e → publish_error e.
Proof.
  unfold Fs.ensureDir. case_match; [|done]. intros [= <-]. left. eauto.
Qed.

Lemma copy_error src dst w e :
  (Fs.copy env src dst w).1 = Throw e → publish_error e.
Proof.
  unfold Fs.copy. repeat case_match; try done; intros [= <-];
    first [by left; eauto | right; left; by eexists
          | right; left; unfold Fs.clash_error; case_match; by eexists].
Qed.

Lemma readdir_error p w e : (Fs.readdir p w).1 = Throw e → publish_error e.
Proof.
  unfold Fs.readdir. repeat case_match; try done; intros [= <-]; left; eauto.
Qed.

Lemma verify_error buildPath w e :
  (LocalServer.verifyBuildArtifacts buildPath LocalServer.defaultRequiredFiles w).1
  = Throw e → publish_error e.
Proof.
  rewrite verify_default. simpl. case_match; [done|]. intros [= <-].
  right. by right.
Qed.

(** With [dist] in place, whatever fails later is not a build error. *)
Lemma verifyAndPublish_no_build_error sitePath id w e :
  Fs.exists_at (fs w) (Path.resolve (Path.join sitePath "dist")) = true →
  (verifyAndPublish env root sitePath id w).1 = Throw e → ¬ BuildError e.
Proof.
  intros Hd H. apply publish_error_not_build. unfold verifyAndPublish in H.
  apply bind_throw in H as [H|(b & w1 & Hb & H)]; [done|].
  unfold Fs.pathExists in Hb. rewrite Hd in Hb. inversion Hb; subst b w1; clear Hb.
  apply bind_throw in H as [H|(? & w2 & _ & H)]; [by apply verify_error in H|].
  apply bind_throw in H as [H|(? & w3 & _ & H)]; [by apply ensureDir_error in H|].
  apply bind_throw in H as [H|(? & w4 & _ & H)]; [by apply copy_error in H|].
  apply bind_throw in H as [H|(? & w5 & _ & H)]; [by apply verify_error in H|].
  apply bind_throw in H as [H|(? & w6 & _ & H)]; [by apply readdir_error in H|].
  done.
Qed.

End BuildAndVerify.

Section PublishOrder.

Variable env : Env.
Variable root : string.

Import LocalStages.

Implicit Types (w : World) (sitePath id pub : string) (events : list Event).

Lemma only_after_app check pub pre post :
  Forall (fun e => ¬ populates pub e) pre →
  only_after check pub post → only_after check pub (pre ++ post).
Proof.
  intros Hpre Hpost i e Hi He.
  destruct (decide (i < length pre)%nat) as [Hlt|Hge].
  - rewrite lookup_app_l in Hi by done.
    rewrite Forall_lookup in Hpre. by destruct (Hpre i e Hi).
  - rewrite lookup_app_r in Hi by lia.
    destruct (Hpost _ _ Hi He) as (j & Hj & Hc).
    exists (length pre + j)%nat. split; [lia|].
    rewrite lookup_app_r by lia. by replace (length pre + j - length pre)%nat with j by lia.
Qed.

Lemma only_after_checked check pub a rest :
  ¬ populates pub a → ¬ populates pub check →
  only_after check pub (a :: check :: rest).
Proof.
  intros Ha Hc [|[|i]] e Hi He; simplify_eq/=; [done|done|].
  exists 1%nat. split; [lia|done].
Qed.

Lemma only_after_none check pub events :
  Forall (fun e => ¬ populates pub e) events → only_after check pub events.
Proof.
  intros H i e Hi He. rewrite Forall_lookup in H. by destruct (H i e Hi).
Qed.

Ltac not_populating :=
  repeat (apply Forall_cons_2; [intros [?|[? ?]]; discriminate|]); apply Forall_nil_2.

(** The effects of the first three steps never write into [pub]. *)
Lemma built_trace sitePath pub w :
  ∃ pre, trace (built env sitePath w).2 = trace w ++ pre
         ∧ Forall (fun e => ¬ populates pub e) pre.
Proof.
  unfold built, installed, bind.
  pose proof (readdir_world sitePath w) as Hr.
  destruct (Fs.readdir sitePath w) as [[l|e] w1]; simpl in Hr; subst w1.
  - pose proof (execAsync_trace env "npm install" sitePath (emit (EvReaddir sitePath) w)) as Hi.
    destruct (execAsync env "npm install" sitePath _) as [[o|e] w2]; simpl in Hi.
    + pose proof (execAsync_trace env "npm run build" sitePath w2) as Hb.
      rewrite Hi in Hb. simpl in Hb. rewrite <- !app_assoc in Hb. simpl in Hb.
      eexists. split; [exact Hb|not_populating].
    + simpl. rewrite Hi. simpl. rewrite <- app_assoc. simpl.
      eexists. split; [done|not_populating].
  - simpl. eexists. split; [done|not_populating].
Qed.

(** The effects of the steps after the build: the public directory is
    written only after both checks at the build output came out
    positive, and a result is returned only after the check at the
    destination came out positive. *)
Lemma verifyAndPublish_trace sitePath id w :
  let dist := Path.join sitePath "dist" in
  let pub := Path.join (LocalServer.PUBLIC_DIR root) id in
  let out := verifyAndPublish env root sitePath id w in
  ∃ events,
    trace out.2 = trace w ++ events
    ∧ only_after (EvPathExists (Path.join dist "index.html") true) pub events
    ∧ ∀ b, out.1 = Ok b →
        events = [EvPathExists dist true;
                  EvPathExists (Path.join dist "index.html") true;
                  EvEnsureDir pub; EvCopy dist pub;
                  EvPathExists (Path.join pub "index.html") true;
                  EvReaddir pub]
        ∧ Fs.exists_at (fs w) (Path.resolve (Path.join dist "index.html")) = true
        ∧ Fs.exists_at (fs out.2) (Path.resolve (Path.join pub "index.html")) = true
        ∧ b = BodyPreview ("/preview/" +:+ id) id.
Proof.
  intros dist pub out.
  assert (∀ rest, only_after (EvPathExists (Path.join dist "index.html") true) pub
            (EvPathExists dist true
             :: EvPathExists (Path.join dist "index.html") true :: rest)) as Hafter.
  { intros rest. apply only_after_checked; intros [?|[? ?]]; discriminate. }
  remember out as o eqn:Ho. subst out. unfold verifyAndPublish in Ho.
  fold dist pub in Ho. unfold bind at 1 in Ho. unfold Fs.pathExists at 1 in Ho.
  destruct (Fs.exists_at (fs w) (Path.resolve dist)) eqn:Hd.
  2: { subst o. exists [EvPathExists dist false]. split; [done|].
       split; [apply only_after_none; not_populating|done]. }
  unfold bind at 1 in Ho. rewrite verify_default in Ho. fold dist in Ho.
  destruct (Fs.exists_at (fs _) (Path.resolve (Path.join dist "index.html"))) eqn:Hi;
    simpl in Hi.
  2: { subst o. exists [EvPathExists dist true; EvPathExists (Path.join dist "index.html") false].
       split; [simpl; by rewrite <- app_assoc|].
       split; [apply only_after_none; not_populating|done]. }
  cbn beta iota zeta in Ho.
  set (w2 := emit _ (emit _ w)) in Ho.
  assert (trace w2 = trace w ++ [EvPathExists dist true;
            EvPathExists (Path.join dist "index.html") true]) as Hw2.
  { simpl. by rewrite <- app_assoc. }
  clearbody w2.
  unfold bind at 1 in Ho.
  pose proof (ensureDir_trace pub w2) as He.
  destruct (Fs.ensureDir pub w2) as [[[]|e] w3]; simpl in He.
  2: { subst o. eexists. split; [simpl; rewrite He, Hw2, <- app_assoc; reflexivity|].
       split; [apply Hafter|done]. }
  unfold bind at 1 in Ho.
  pose proof (copy_trace env dist pub w3) as Hc.
  destruct (Fs.copy env dist pub w3) as [[[]|e] w4]; simpl in Hc.
  2: { subst o. eexists. split; [simpl; rewrite Hc, He, Hw2, <- !app_assoc; reflexivity|].
       split; [apply Hafter|done]. }
  unfold bind at 1 in Ho. rewrite verify_default in Ho.
  destruct (Fs.exists_at (fs w4) _) eqn:Hp.
  2: { subst o. eexists. split; [simpl; rewrite Hc, He, Hw2, <- !app_assoc; reflexivity|].
       split; [apply Hafter|done]. }
  cbn beta iota zeta in Ho. unfold bind, ret in Ho.
  pose proof (readdir_world pub (emit (EvPathExists (Path.join pub "index.html") true) w4)) as Hr.
  destruct (Fs.readdir pub _) as [[l|e] w5]; simpl in Hr; subst w5 o;
    (eexists; split; [simpl; rewrite Hc, He, Hw2, <- !app_assoc; reflexivity|];
     split; [apply Hafter|]).
  - intros b [= <-]. done.
  - done.
Qed.

End PublishOrder.

(** ** The external commands a request runs *)

Section Quiet.

Lemma exec_calls_app t1 t2 : exec_calls (t1 ++ t2) = exec_calls t1 ++ exec_calls t2.
Proof. unfold exec_calls. apply omap_app. Qed.

Lemma quiet_ret {A} (a : A) : quiet (ret a).
Proof. by intros w. Qed.

Lemma quiet_throw {A} e : quiet (@throw A e).
Proof. by intros w. Qed.

Lemma quiet_bind {A B} (m : M A) (k : A → M B) :
  quiet m → (∀ a, quiet (k a)) → quiet (bind m k).
Proof.
  intros Hm Hk w. unfold bind. specialize (Hm w).
  destruct (m w) as [[a|e] w1]; simpl in *; [|done].
  by rewrite Hk.
Qed.

Lemma quiet_try {A} (m : M A) h : quiet m → (∀ e, quiet (h e)) → quiet (try_catch m h).
Proof.
  intros Hm Hh w. unfold try_catch. specialize (Hm w).
  destruct (m w) as [[a|e] w1]; simpl in *; [done|].
  by rewrite Hh.
Qed.

Lemma quiet_pathExists p : quiet (Fs.pathExists p).
Proof. intros w. simpl. by rewrite exec_calls_app, app_nil_r. Qed.

Lemma quiet_ensureDir p : quiet (Fs.ensureDir p).
Proof.
  intros w. unfold Fs.ensureDir. case_match; simpl;
    by rewrite exec_calls_app, app_nil_r.
Qed.

Lemma quiet_writeFile p c : quiet (Fs.writeFile p c).
Proof.
  intros w. unfold Fs.writeFile. repeat case_match; simpl;
    by rewrite exec_calls_app, app_nil_r.
Qed.

Lemma quiet_copy env s d : quiet (Fs.copy env s d).
Proof.
  intros w. unfold Fs.copy. repeat case_match; simpl;
    by rewrite exec_calls_app, app_nil_r.
Qed.

Lemma quiet_readdir p : quiet (Fs.readdir p).
Proof.
  intros w. rewrite readdir_world. simpl. by rewrite exec_calls_app, app_nil_r.
Qed.

Lemma quiet_remove env p : quiet (Fs.remove env p).
Proof.
  intros w. unfold Fs.remove. case_match; simpl;
    by rewrite exec_calls_app, app_nil_r.
Qed.

Lemma quiet_warn msg : quiet (warn msg).
Proof. intros w. simpl. by rewrite exec_calls_app, app_nil_r. Qed.

Lemma quiet_for_of {A} (xs : list A) body :
  (∀ x, x ∈ xs → quiet (body x)) → quiet (for_of xs body).
Proof.
  induction xs as [|x xs IH]; intros H; simpl; [apply quiet_ret|].
  apply quiet_bind; [apply H; by left|]. intros _. apply IH.
  intros y Hy. apply H. by right.
Qed.

Lemma quiet_verify buildPath files : quiet (LocalServer.verifyBuildArtifacts buildPath files).
Proof.
  induction files as [|f files IH]; simpl; [apply quiet_ret|].
  apply quiet_bind; [apply quiet_pathExists|].
  intros []; [done|apply quiet_throw].
Qed.

(** Induction on submitted trees. *)
Lemma FileNode_tree_ind (P : FileNode → Prop) :
  (∀ type path content children,
      match children with Some l => Forall P l | None => True end →
      P (mkFileNode type path content children)) →
  ∀ f, P f.
Proof.
  intros H. fix IH 1. intros [type path content children].
  apply H. destruct children as [l|]; [|exact I].
  induction l as [|x l IHl]; constructor; [apply IH|apply IHl].
Qed.

Lemma quiet_processFile file basePath : quiet (LocalServer.processFile file basePath).
Proof.
  induction file as [type path content children IH] using FileNode_tree_ind.
  simpl. destruct (String.eqb type "folder").
  - apply quiet_bind; [apply quiet_ensureDir|]. intros _.
    destruct children as [l|]; [|apply quiet_ret].
    induction IH as [|x l Hx _ IHl]; [apply quiet_ret|].
    apply quiet_bind; [done|]. intros _. apply IHl.
  - destruct (String.eqb type "file"); [|apply quiet_ret].
    apply quiet_bind; [apply quiet_ensureDir|]. intros _.
    destruct content; [apply quiet_writeFile..|apply quiet_throw].
Qed.

Lemma quiet_local_materialize env root req : quiet (LocalStages.materialize env root req).
Proof.
  unfold LocalStages.materialize.
  apply quiet_bind; [apply quiet_ensureDir|]. intros _.
  apply quiet_bind; [apply quiet_copy|]. intros _.
  apply quiet_for_of. intros file _.
  apply quiet_try; [apply quiet_processFile|]. intros e. apply quiet_throw.
Qed.

Lemma quiet_writeContent target content : quiet (VercelServer.writeContent target content).
Proof. destruct content; [apply quiet_throw|apply quiet_writeFile|apply quiet_throw]. Qed.

Lemma quiet_processEntry previewPath file : quiet (VercelServer.processEntry previewPath file).
Proof.
  unfold VercelServer.processEntry.
  apply quiet_try; [|intros e; apply quiet_throw].
  destruct (String.eqb (node_type file) "folder").
  - apply quiet_bind; [apply quiet_ensureDir|]. intros _.
    destruct (node_children file) as [l|]; [|apply quiet_ret].
    apply quiet_for_of. intros child _.
    apply quiet_bind; [apply quiet_ensureDir|]. intros _. apply quiet_writeContent.
  - apply quiet_bind; [apply quiet_ensureDir|]. intros _. apply quiet_writeContent.
Qed.

Lemma quiet_vercel_materialize env root req : quiet (VercelStages.materialize env root req).
Proof.
  unfold VercelStages.materialize.
  apply quiet_bind; [apply quiet_ensureDir|]. intros _.
  apply quiet_bind; [apply quiet_copy|]. intros _.
  apply quiet_for_of. intros file _. apply quiet_processEntry.
Qed.

Lemma quiet_verifyAndPublish env root sitePath id :
  quiet (LocalStages.verifyAndPublish env root sitePath id).
Proof.
  unfold LocalStages.verifyAndPublish.
  apply quiet_bind; [apply quiet_pathExists|]. intros b.
  apply quiet_bind; [destruct b; [apply quiet_verify|apply quiet_throw]|]. intros _.
  apply quiet_bind; [apply quiet_ensureDir|]. intros _.
  apply quiet_bind; [apply quiet_copy|]. intros _.
  apply quiet_bind; [apply quiet_verify|]. intros _.
  apply quiet_bind; [apply quiet_readdir|]. intros _. apply quiet_ret.
Qed.

Lemma quiet_cleanupAfterSuccess env root req :
  quiet (LocalStages.cleanupAfterSuccess env root req).
Proof.
  unfold LocalStages.cleanupAfterSuccess.
  apply quiet_try; [|intros e; apply quiet_warn].
  case_match; [apply quiet_remove|apply quiet_ret].
Qed.

Lemma quiet_cleanupAfterError env root req :
  quiet (LocalStages.cleanupAfterError env root req).
Proof.
  unfold LocalStages.cleanupAfterError.
  case_match; [|apply quiet_ret].
  apply quiet_try; [apply quiet_remove|intros e; apply quiet_warn].
Qed.

End Quiet.

Section InstallOrder.

Variable env : Env.
Variable root : string.

Implicit Types (w : World) (req : CreateRequest).

Lemma execAsync_calls cmd cwd w :
  exec_calls (trace (execAsync env cmd cwd w).2) = exec_calls (trace w) ++ [(cmd, cwd)].
Proof. by rewrite execAsync_trace, exec_calls_app. Qed.

Lemma nonempty_length {A} (l : list A) : l ≠ [] → (0 <? Z.of_nat (length l)) = true.
Proof. destruct l; [done|]. intros _. apply Z.ltb_lt. simpl. lia. Qed.

(** The commands of [createPreview]: the plain install first, if any. *)
Lemma createPreview_calls sitePath id w :
  ∃ rest,
    exec_calls (trace (LocalServer.createPreview env root sitePath id w).2)
    = exec_calls (trace w) ++ rest
    ∧ (rest = [] ∨ ∃ rest', rest = ("npm install", sitePath) :: rest')
    ∧ (Fs.is_dir (fs w) (Path.resolve sitePath) = true → rest ≠ []).
Proof.
  rewrite createPreview_split. unfold LocalStages.built, LocalStages.installed, bind.
  pose proof (quiet_readdir sitePath w) as Hq.
  pose proof (readdir_world sitePath w) as Hw.
  destruct (Fs.readdir sitePath w) as [[l|e] w1] eqn:Hr; simpl in Hq, Hw.
  - pose proof (execAsync_calls "npm install" sitePath w1) as Hi. rewrite Hq in Hi.
    destruct (execAsync env "npm install" sitePath w1) as [[o|e] w2]; simpl in Hi.
    + pose proof (execAsync_calls "npm run build" sitePath w2) as Hb. rewrite Hi in Hb.
      destruct (execAsync env "npm run build" sitePath w2) as [[o'|e] w3]; simpl in Hb.
      * rewrite quiet_verifyAndPublish, Hb, <- app_assoc.
        eexists. split; [done|]. split; [right; by eexists|done].
      * simpl. rewrite Hb, <- app_assoc.
        eexists. split; [done|]. split; [right; by eexists|done].
    + simpl. rewrite Hi. eexists. split; [done|]. split; [right; by eexists|done].
  - simpl. rewrite Hq. exists []. split; [by rewrite app_nil_r|]. split; [by left|].
    intros Hd. unfold Fs.readdir, Fs.is_dir in *.
    destruct (Fs.lookup_node (fs w) (Path.resolve sitePath)) as [[c|]|]; done.
Qed.

Lemma local_handler_calls req w :
  exec_calls (trace (LocalServer.createHandler env root req w).2)
  = exec_calls (trace (LocalStages.pipeline env root req w).2).
Proof.
  rewrite createHandler_split.
  destruct (LocalStages.pipeline env root req w) as [[b|e] w1]; simpl.
  - apply quiet_cleanupAfterSuccess.
  - apply quiet_cleanupAfterError.
Qed.

Lemma vercel_createHandler_split req w :
  VercelServer.createHandler env root req w
  = match VercelStages.materialize env root req w with
    | (Ok _, wa) =>
        try_catch (VercelStages.installAndDeploy env root req)
          (fun error => ret (res_error error)) wa
    | (Throw e, w') => (Ok (res_error e), w')
    end.
Proof.
  unfold VercelServer.createHandler, VercelStages.materialize,
    VercelStages.installAndDeploy, VercelStages.previewPath.
  set (a := Fs.ensureDir _). set (b := Fs.copy _ _ _). set (c := for_of _ _).
  set (k := bind (execAsync _ _ _) _). clearbody a b c k.
  unfold try_catch, bind, ret.
  destruct (a w) as [[[]|?] w1]; [|done].
  destruct (b w1) as [[[]|?] w2]; [|done].
  by destruct (c w2) as [[[]|?] w3].
Qed.

End InstallOrder.

(** C5, as the code has it: for a request with a non-empty dependency
    list whose materialization went through, both servers run the two
    installs against the workspace, the extra one naming exactly the
    listed dependencies joined by spaces, and in this order. The local
    server runs the extra install first; the plain install is the next
    command, run by [createPreview] when the extra install exited with
    status 0 and the workspace is still a directory, and no command
    follows a failed extra install. The remote server runs the plain
    install first; the extra install is the next command when the plain
    one exited with status 0, and no command follows a failed plain
    install. *)
Theorem installs_run_in_handler_order (env : Env) (root : string)
    (req : CreateRequest) (w : World) :
  req_dependencies req ≠ [] →
  let extras := "npm install " +:+ Js.join " " (req_dependencies req) in
  (∀ wa, LocalStages.materialize env root req w = (Ok tt, wa) →
     let p := LocalStages.previewPath root req in
     ∃ rest,
       exec_calls (trace (LocalServer.createHandler env root req w).2)
       = exec_calls (trace w) ++ (extras, p) :: rest
       ∧ (rest = [] ∨ ∃ rest', rest = ("npm install", p) :: rest')
       ∧ (∀ out f, run env extras p wa = (ExitOk out, f) →
                   Fs.is_dir f (Path.resolve p) = true → rest ≠ [])
       ∧ (∀ code err f, run env extras p wa = (ExitFail code err, f) → rest = []))
  ∧ (∀ wa, VercelStages.materialize env root req w = (Ok tt, wa) →
     let p := VercelStages.previewPath root req in
     ∃ rest,
       exec_calls (trace (VercelServer.createHandler env root req w).2)
       = exec_calls (trace w) ++ ("npm install", p) :: rest
       ∧ (∀ out f, run env "npm install" p wa = (ExitOk out, f) →
                   ∃ rest', rest = (extras, p) :: rest')
       ∧ (∀ code err f, run env "npm install" p wa = (ExitFail code err, f) →
                        rest = [])).
Proof.
  intros Hdeps extras. apply nonempty_length in Hdeps. split.
  - intros wa Hm p.
    pose proof (quiet_local_materialize env root req w) as Hq. rewrite Hm in Hq. simpl in Hq.
    rewrite local_handler_calls. unfold LocalStages.pipeline. unfold bind at 1.
    rewrite Hm. unfold LocalStages.installExtras. rewrite Hdeps.
    unfold LocalServer.installAdditionalDependencies. fold extras p.
    unfold bind at 1. rewrite try_rethrow. unfold bind at 1.
    pose proof (execAsync_calls env extras p wa) as Hx. rewrite Hq in Hx.
    unfold execAsync in *.
    destruct (run env extras p wa) as [[out|code err] f] eqn:Hrun; simpl in Hx.
    + unfold ret.
      destruct (createPreview_calls env root p (req_id req)
                  (set_fs f (emit (EvExec extras p) wa))) as (rest & Hc & Hshape & Hdir).
      exists rest.
      change (trace (set_fs f (emit (EvExec extras p) wa)))
        with (trace wa ++ [EvExec extras p]) in Hc.
      rewrite Hx in Hc. rewrite <- app_assoc in Hc.
      split; [exact Hc|]. split; [done|]. split; [|done].
      intros out' f' [= _ <-] Hd. by apply Hdir.
    + exists []. split; [done|]. split; [by left|]. split; [done|done].
  - intros wa Hm p.
    pose proof (quiet_vercel_materialize env root req w) as Hq. rewrite Hm in Hq. simpl in Hq.
    rewrite vercel_createHandler_split, Hm.
    unfold VercelStages.installAndDeploy. rewrite Hdeps. fold p.
    unfold try_catch. unfold bind at 1.
    pose proof (execAsync_calls env "npm install" p wa) as Hx. rewrite Hq in Hx.
    destruct (execAsync env "npm install" p wa) as [[o|e] w1] eqn:Hplain.
    + unfold bind at 1. unfold VercelServer.installAdditionalDependencies. fold extras.
      rewrite try_rethrow. unfold bind at 1.
      pose proof (execAsync_calls env extras p w1) as Hy. simpl in Hx. rewrite Hx in Hy.
      destruct (execAsync env extras p w1) as [[o2|e2] w2] eqn:Hextra.
      * unfold ret at 1. unfold VercelServer.deployToVercel.
        unfold bind at 1. rewrite try_rethrow. unfold bind at 1.
        pose proof (execAsync_calls env "npm run build" p w2) as Hz. simpl in Hy.
        rewrite Hy in Hz.
        destruct (execAsync env "npm run build" p w2) as [[o3|e3] w3]; simpl in Hz.
        -- destruct (deploy env p w3); simpl; rewrite Hz, <- !app_assoc;
             (eexists; split; [done|]; split; [by eexists|]);
             intros code err f Hrun; unfold execAsync in Hplain; by rewrite Hrun in Hplain.
        -- simpl. rewrite Hz, <- !app_assoc.
           eexists; split; [done|]; split; [by eexists|].
           intros code err f Hrun; unfold execAsync in Hplain; by rewrite Hrun in Hplain.
      * simpl in *. rewrite Hy, <- !app_assoc.
        eexists; split; [done|]; split; [by eexists|].
        intros code err f Hrun; unfold execAsync in Hplain; by rewrite Hrun in Hplain.
    + simpl in *. rewrite Hx. exists []. split; [done|]. split; [|done].
      intros out f Hrun. unfold execAsync in Hplain. by rewrite Hrun in Hplain.
Qed.

Lemma installs_run_in_handler_order_witness :
  exec_calls (trace (LocalServer.createHandler Demo.env_ok Demo.root
                       Demo.with_dependencies Demo.world0).2)
  = [("npm install axios zustand", "/app/previews/abc123");
     ("npm install", "/app/previews/abc123");
     ("npm run build", "/app/previews/abc123")]
  ∧ exec_calls (trace (VercelServer.createHandler Demo.env_ok Demo.root
                         Demo.with_dependencies Demo.world0).2)
    = [("npm install", "/app/previews/abc123");
       ("npm install axios zustand", "/app/previews/abc123");
       ("npm run build", "/app/previews/abc123")].
Proof.
  destruct (installs_run_in_handler_order Demo.env_ok Demo.root
              Demo.with_dependencies Demo.world0) as [Hl Hv]; [done|].
  split.
  - destruct (Hl (LocalStages.materialize Demo.env_ok Demo.root Demo.with_dependencies Demo.world0).2)
      as (rest & H & _); [by vm_compute|].
    rewrite H. by vm_compute.
  - destruct (Hv (VercelStages.materialize Demo.env_ok Demo.root Demo.with_dependencies Demo.world0).2)
      as (rest & H & _); [by vm_compute|].
    rewrite H. by vm_compute.
Defined.

(** C5 as written fails under the local strategy: the install of the
    extra dependencies is the first command, the plain install follows. *)
Lemma local_extras_install_runs_first :
  ¬ plain_install_then_extras "/app/previews/abc123" ["axios"; "zustand"]
      (exec_calls (trace (LocalServer.createHandler Demo.env_ok Demo.root
                            Demo.with_dependencies Demo.world0).2)).
Proof. intros [rest H]. vm_compute in H. discriminate H. Qed.

(** C10: content that begins with the fence marker is written without
    the first and the last element of its split on newlines, whatever
    these elements are, by both servers: for a [file] node with such
    content each server ensures the parent directory and then writes
    exactly the kept lines to the joined path, and when that run goes
    through the file on disk holds them. With a newline after the
    closing fence line only the empty last element goes and the closing
    fence line is written; without a closing fence line the last line
    of the content goes. *)
Theorem fence_strip_drops_first_and_last_line (content : string) :
  Js.startsWith content fence = true →
  stripFence content = kept content
  ∧ (∀ path children basePath w,
       LocalServer.processFile (mkFileNode "file" path (Str content) children) basePath w
       = (Fs.ensureDir (Path.dirname (Path.join basePath path)) ;;;
          Fs.writeFile (Path.join basePath path) (kept content)) w)
  ∧ (∀ path children previewPath w,
       VercelServer.processEntry previewPath
         (mkFileNode "file" path (Str content) children) w
       = (Fs.ensureDir (Path.dirname (Path.join previewPath path)) ;;;
          Fs.writeFile (Path.join previewPath path) (kept content)) w)
  ∧ (∀ path children basePath w w',
       LocalServer.processFile (mkFileNode "file" path (Str content) children) basePath w
       = (Ok tt, w') →
       fs w' !! Path.resolve (Path.join basePath path) = Some (File (kept content)))
  ∧ (∀ path children previewPath w w',
       VercelServer.processEntry previewPath
         (mkFileNode "file" path (Str content) children) w = (Ok tt, w') →
       fs w' !! Path.resolve (Path.join previewPath path) = Some (File (kept content)))
  ∧ (∀ opening body,
       Js.lacks newline opening = true →
       content = opening +:+ nl +:+ body +:+ nl +:+ fence +:+ nl →
       kept content = body +:+ nl +:+ fence)
  ∧ (∀ opening body final,
       Js.lacks newline opening = true →
       Js.lacks newline final = true →
       content = opening +:+ nl +:+ body +:+ nl +:+ final →
       kept content = body).
Proof.
  intros Hf. pose proof (stripFence_fenced content Hf) as Hs. split_and!.
  - done.
  - intros path children basePath w. by rewrite local_processFile_file, Hs.
  - intros path children previewPath w.
    rewrite vercel_processEntry_file, try_rethrow. unfold VercelServer.writeContent.
    by rewrite Hs.
  - intros path children basePath w w' H.
    apply local_file_written in H. by rewrite <- Hs.
  - intros path children previewPath w w' H.
    apply vercel_file_written in H. by rewrite <- Hs.
  - intros opening body Ho ->. by apply kept_trailing_newline.
  - intros opening body final Ho Hl ->. by apply kept_last_line_dropped.
Qed.

Lemma fence_strip_drops_first_and_last_line_witness :
  let content := "```tsx" +:+ nl +:+ "const a = 1;" +:+ nl +:+ "```" +:+ nl in
  let node := mkFileNode "file" "a.ts" (Str content) None in
  let local := LocalServer.processFile node "/app/previews/abc123" Demo.world0 in
  let remote := VercelServer.processEntry "/app/previews/abc123" node Demo.world0 in
  stripFence content = "const a = 1;" +:+ nl +:+ "```"
  ∧ local.1 = Ok tt
  ∧ fs local.2 !! ["app"; "previews"; "abc123"; "a.ts"]
    = Some (File ("const a = 1;" +:+ nl +:+ "```"))
  ∧ remote.1 = Ok tt
  ∧ fs remote.2 !! ["app"; "previews"; "abc123"; "a.ts"]
    = Some (File ("const a = 1;" +:+ nl +:+ "```")).
Proof.
  intros content node local remote.
  destruct (fence_strip_drops_first_and_last_line content)
    as (Hs & _ & _ & Hl & Hr & Hk & _); [reflexivity|].
  pose proof (Hk "```tsx" "const a = 1;" eq_refl eq_refl) as Hkept.
  assert (local.1 = Ok tt) as Hlocal by (vm_compute; reflexivity).
  assert (remote.1 = Ok tt) as Hremote by (vm_compute; reflexivity).
  split_and!; [by rewrite Hs|exact Hlocal| |exact Hremote|].
  - transitivity (Some (File (kept content))); [|by rewrite Hkept].
    apply (Hl "a.ts" None "/app/previews/abc123" Demo.world0 local.2).
    exact (run_eta local (Ok tt) Hlocal).
  - transitivity (Some (File (kept content))); [|by rewrite Hkept].
    apply (Hr "a.ts" None "/app/previews/abc123" Demo.world0 remote.2).
    exact (run_eta remote (Ok tt) Hremote).
Defined.

(** C2 at its failing inputs: a fenced block followed by a newline keeps
    its closing fence line on disk, under both servers, and a block that
    opens with a fence and is never closed loses its last line. *)
Theorem closing_fence_survives_trailing_newline :
  let fenced := "```" +:+ nl +:+ "export default function App(){return null}"
                +:+ nl +:+ "```" +:+ nl in
  let unclosed := "```tsx" +:+ nl +:+ "const a = 1;" +:+ nl +:+ "export default a;" in
  let at_app := ["app"; "previews"; "abc123"; "src"; "App.tsx"] in
  fs (LocalServer.processFile (mkFileNode "file" "src/App.tsx" (Str fenced) None)
        "/app/previews/abc123" Demo.world0).2 !! at_app
  = Some (File ("export default function App(){return null}" +:+ nl +:+ "```"))
  ∧ fs (VercelServer.processEntry "/app/previews/abc123"
          (mkFileNode "file" "src/App.tsx" (Str fenced) None) Demo.world0).2 !! at_app
    = Some (File ("export default function App(){return null}" +:+ nl +:+ "```"))
  ∧ fs (LocalServer.processFile (mkFileNode "file" "src/App.tsx" (Str unclosed) None)
          "/app/previews/abc123" Demo.world0).2 !! at_app
    = Some (File "const a = 1;").
Proof. by vm_compute. Qed.

(** C7 at its failing input: under the remote strategy a file node
    without content makes the handler throw a [TypeError] after the
    parent directory was ensured; nothing is written, and the request is
    answered with status 500. The local strategy writes the empty file
    for the same node. *)
Theorem remote_absent_content_throws :
  (∀ previewPath path children w,
     VercelServer.processEntry previewPath (mkFileNode "file" path Absent children) w
     = (Throw (TypeError "Cannot read properties of undefined (reading 'startsWith')"),
        (Fs.ensureDir (Path.dirname (Path.join previewPath path)) w).2)
     ∨ ∃ code p,
         VercelServer.processEntry previewPath (mkFileNode "file" path Absent children) w
         = (Throw (SystemError code p),
            (Fs.ensureDir (Path.dirname (Path.join previewPath path)) w).2))
  ∧ (VercelServer.createHandler Demo.env_ok Demo.root Demo.empty_file Demo.world0).1
    = Ok (mkResponse 500
            (BodyError "Cannot read properties of undefined (reading 'startsWith')"))
  ∧ fs (VercelServer.createHandler Demo.env_ok Demo.root Demo.empty_file Demo.world0).2
      !! ["app"; "previews"; "abc123"; "src"; "empty.ts"] = None
  ∧ fs (LocalServer.processFile (mkFileNode "file" "src/empty.ts" Absent None)
          "/app/previews/abc123" Demo.world0).2
      !! ["app"; "previews"; "abc123"; "src"; "empty.ts"] = Some (File EmptyString).
Proof.
  split_and!; [|by vm_compute..].
  intros previewPath path children w.
  rewrite vercel_processEntry_file, try_rethrow. unfold bind.
  unfold Fs.ensureDir. destruct (existsb _ _); [right; by eexists _, _|by left].
Qed.

(** ** The scenario of the specification *)

(** The fenced [src/App.tsx] is written without its fence lines, the
    commands run, the output is published and the serving path of
    [abc123] is returned; the workspace is gone afterwards. *)
Example scenario_is_published :
  let out := LocalServer.createHandler Demo.env_ok Demo.root Demo.scenario Demo.world0 in
  out.1 = Ok (mkResponse 200 (BodyPreview "/preview/abc123" "abc123"))
  ∧ EvWriteFile "/app/previews/abc123/src/App.tsx"
      "export default function App(){return null}" ∈ trace out.2
  ∧ fs out.2 !! ["app"; "public"; "abc123"; "index.html"] = Some (File "<html></html>")
  ∧ fs out.2 !! ["app"; "previews"; "abc123"] = None.
Proof. split_and!; [by vm_compute| |by vm_compute..]. vm_compute. set_solver. Qed.

(** A refused removal leaves the response as it is and logs a warning. *)
Example refused_removal_is_a_warning :
  let out := LocalServer.createHandler Demo.env_denied Demo.root Demo.scenario Demo.world0 in
  out.1 = Ok (mkResponse 200 (BodyPreview "/preview/abc123" "abc123"))
  ∧ last (trace out.2)
    = Some (EvWarn "Warning: Failed to cleanup preview directory: /app/previews/abc123").
Proof. by vm_compute. Qed.

(** * Further properties *)

(** ** [verifyBuildArtifacts] on any list of required files *)

Section VerifyAny.

Implicit Types (buildPath file : string) (files : list string) (w : World).

Lemma verify_all_present buildPath files w :
  Forall (fun file =>
            Fs.exists_at (fs w) (Path.resolve (Path.join buildPath file)) = true) files →
  LocalServer.verifyBuildArtifacts buildPath files w
  = (Ok tt,
     mkWorld (fs w)
       (trace w ++ map (fun file => EvPathExists (Path.join buildPath file) true) files)).
Proof.
  intros H. revert w H. induction files as [|file files IH]; intros w H; simpl.
  - unfold ret. rewrite app_nil_r. by destruct w.
  - inversion H as [|? ? Hf Hrest]; subst.
    unfold bind, Fs.pathExists. rewrite Hf.
    rewrite IH by done. simpl. by rewrite <- app_assoc.
Qed.

Lemma verify_first_missing buildPath pre file post w :
  Forall (fun x =>
            Fs.exists_at (fs w) (Path.resolve (Path.join buildPath x)) = true) pre →
  Fs.exists_at (fs w) (Path.resolve (Path.join buildPath file)) = false →
  LocalServer.verifyBuildArtifacts buildPath (pre ++ file :: post) w
  = (Throw (Err ("Required build artifact not found: " +:+ file)),
     mkWorld (fs w)
       (trace w ++ map (fun x => EvPathExists (Path.join buildPath x) true) pre
                ++ [EvPathExists (Path.join buildPath file) false])).
Proof.
  intros H Hmiss. revert w H Hmiss.
  induction pre as [|x pre IH]; intros w H Hmiss; simpl.
  - unfold bind, Fs.pathExists. by rewrite Hmiss.
  - inversion H as [|? ? Hx Hrest]; subst.
    unfold bind, Fs.pathExists. rewrite Hx.
    rewrite IH by done. simpl. by rewrite <- app_assoc.
Qed.

End VerifyAny.

(** X1: [verifyBuildArtifacts] only looks: it answers without error
    exactly when every required file is present under the build path,
    checking them in order; otherwise it stops at the first missing file,
    throws the error that names it and checks no later file. The file
    system is never changed. *)
Theorem verifyBuildArtifacts_stops_at_first_missing (buildPath : string)
    (files : list string) (w : World) :
  let present := fun file =>
    Fs.exists_at (fs w) (Path.resolve (Path.join buildPath file)) = true in
  let out := LocalServer.verifyBuildArtifacts buildPath files w in
  fs out.2 = fs w
  ∧ (out.1 = Ok tt ↔ Forall present files)
  ∧ (Forall present files →
     trace out.2
     = trace w ++ map (fun file => EvPathExists (Path.join buildPath file) true) files)
  ∧ (∀ pre file post,
       files = pre ++ file :: post → Forall present pre → ¬ present file →
       out.1 = Throw (Err ("Required build artifact not found: " +:+ file))
       ∧ trace out.2
         = trace w ++ map (fun x => EvPathExists (Path.join buildPath x) true) pre
                   ++ [EvPathExists (Path.join buildPath file) false]).
Proof.
  intros present out.
  assert (∀ pre file post,
            files = pre ++ file :: post → Forall present pre → ¬ present file →
            out = (Throw (Err ("Required build artifact not found: " +:+ file)),
                   mkWorld (fs w)
                     (trace w ++ map (fun x => EvPathExists (Path.join buildPath x) true) pre
                              ++ [EvPathExists (Path.join buildPath file) false]))) as Hmiss.
  { intros pre file post -> Hpre Hfile. subst out. apply verify_first_missing; [done|].
    unfold present in Hfile. by destruct (Fs.exists_at _ _). }
  assert (Forall present files ∨
          ∃ pre file post, files = pre ++ file :: post ∧ Forall present pre ∧ ¬ present file)
    as Hcases.
  { clear. induction files as [|x files IH]; [by left|].
    destruct (decide (present x)) as [Hx|Hx].
    - destruct IH as [IH|(pre & file & post & -> & Hpre & Hf)].
      + left. by constructor.
      + right. exists (x :: pre), file, post. split; [done|]. split; [by constructor|done].
    - right. exists [], x, files. by split. }
  split_and!.
  - destruct Hcases as [Hall|(pre & file & post & E & Hpre & Hf)].
    + subst out. by rewrite verify_all_present.
    + by rewrite (Hmiss _ _ _ E Hpre Hf).
  - split.
    + intros Hok. destruct Hcases as [Hall|(pre & file & post & E & Hpre & Hf)]; [done|].
      by rewrite (Hmiss _ _ _ E Hpre Hf) in Hok.
    + intros Hall. subst out. by rewrite verify_all_present.
  - intros Hall. subst out. by rewrite verify_all_present.
  - intros pre file post E Hpre Hf. by rewrite (Hmiss _ _ _ E Hpre Hf).
Qed.

Lemma verifyBuildArtifacts_stops_at_first_missing_witness :
  let w := mkWorld (Demo.build_output "/app/previews/abc123" Demo.disk0) [] in
  (LocalServer.verifyBuildArtifacts "/app/previews/abc123/dist"
     ["index.html"; "assets"] w).1 = Ok tt
  ∧ (LocalServer.verifyBuildArtifacts "/app/previews/abc123/dist"
       ["index.html"; "main.js"; "assets"] w).1
    = Throw (Err "Required build artifact not found: main.js").
Proof.
  intros w. split.
  - apply (verifyBuildArtifacts_stops_at_first_missing "/app/previews/abc123/dist"
             ["index.html"; "assets"] w).
    repeat constructor.
  - apply (verifyBuildArtifacts_stops_at_first_missing "/app/previews/abc123/dist"
             ["index.html"; "main.js"; "assets"] w) with (pre := ["index.html"]) (post := ["assets"]);
      [reflexivity|by repeat constructor|by vm_compute].
Defined.

(** ** Fenced blocks *)

Section FencedBlocks.

Implicit Types (lang body : string).

Lemma lacks_append c s t :
  Js.lacks c s = true → Js.lacks c t = true → Js.lacks c (s +:+ t) = true.
Proof.
  intros Hs Ht. induction s as [|a s IH]; [done|].
  rewrite append_cons. simpl in *. apply andb_prop in Hs as [Ha Hs].
  by rewrite Ha, IH.
Qed.

Lemma startsWith_fence_append lang : Js.startsWith (fence +:+ lang) fence = true.
Proof. apply (startsWith_append fence lang fence). reflexivity. Qed.

(** Fence-marked content of one line or of two lines. *)
Lemma kept_one_line a : Js.lacks newline a = true → kept a = EmptyString.
Proof. intros Ha. unfold kept. by rewrite (split_lacks _ _ Ha). Qed.

Lemma kept_two_lines a b :
  Js.lacks newline a = true → Js.lacks newline b = true →
  kept (a +:+ nl +:+ b) = EmptyString.
Proof.
  intros Ha Hb. unfold kept.
  change (a +:+ nl +:+ b) with (a +:+ String newline b).
  by rewrite split_app, (split_lacks _ _ Ha), (split_lacks _ _ Hb).
Qed.

End FencedBlocks.

(** X2: a fenced block round-trips. Whatever the body holds (newlines,
    fence lines of its own), for content made of an opening fence line
    with an optional language tag, the body and a closing fence line
    with nothing after it, each server ensures the parent directory of
    a [file] node and then writes exactly the body to the joined path;
    when that run goes through, the file on disk holds the body. *)
Theorem fenced_block_round_trip (lang body : string) :
  Js.lacks newline lang = true →
  let content := fence +:+ lang +:+ nl +:+ body +:+ nl +:+ fence in
  stripFence content = body
  ∧ (∀ path children basePath w,
       LocalServer.processFile (mkFileNode "file" path (Str content) children) basePath w
       = (Fs.ensureDir (Path.dirname (Path.join basePath path)) ;;;
          Fs.writeFile (Path.join basePath path) body) w)
  ∧ (∀ path children previewPath w,
       VercelServer.processEntry previewPath
         (mkFileNode "file" path (Str content) children) w
       = (Fs.ensureDir (Path.dirname (Path.join previewPath path)) ;;;
          Fs.writeFile (Path.join previewPath path) body) w)
  ∧ (∀ path children basePath w w',
       LocalServer.processFile (mkFileNode "file" path (Str content) children) basePath w
       = (Ok tt, w') →
       fs w' !! Path.resolve (Path.join basePath path) = Some (File body))
  ∧ (∀ path children previewPath w w',
       VercelServer.processEntry previewPath
         (mkFileNode "file" path (Str content) children) w = (Ok tt, w') →
       fs w' !! Path.resolve (Path.join previewPath path) = Some (File body)).
Proof.
  intros Hl content.
  assert (stripFence content = body) as Hs.
  { subst content.
    change (fence +:+ lang +:+ nl +:+ body +:+ nl +:+ fence)
      with ((fence +:+ lang) +:+ nl +:+ body +:+ nl +:+ fence).
    apply stripFence_well_formed; [apply startsWith_fence_append|].
    by apply lacks_append. }
  split_and!; [done| | | |].
  - intros path children basePath w. by rewrite local_processFile_file, Hs.
  - intros path children previewPath w.
    rewrite vercel_processEntry_file, try_rethrow. unfold VercelServer.writeContent.
    by rewrite Hs.
  - intros path children basePath w w' H. apply local_file_written in H. by rewrite <- Hs.
  - intros path children previewPath w w' H. apply vercel_file_written in H. by rewrite <- Hs.
Qed.

Lemma fenced_block_round_trip_witness :
  let body := "a" +:+ nl +:+ fence +:+ nl +:+ "b" in
  let node := mkFileNode "file" "src/a.ts"
                (Str (fence +:+ "tsx" +:+ nl +:+ body +:+ nl +:+ fence)) None in
  let local := LocalServer.processFile node "/app/previews/abc123" Demo.world0 in
  let remote := VercelServer.processEntry "/app/previews/abc123" node Demo.world0 in
  local.1 = Ok tt
  ∧ fs local.2 !! ["app"; "previews"; "abc123"; "src"; "a.ts"] = Some (File body)
  ∧ remote.1 = Ok tt
  ∧ fs remote.2 !! ["app"; "previews"; "abc123"; "src"; "a.ts"] = Some (File body).
Proof.
  intros body node local remote.
  destruct (fenced_block_round_trip "tsx" body) as (_ & _ & _ & Hl & Hr); [reflexivity|].
  assert (local.1 = Ok tt) as Hlocal by (vm_compute; reflexivity).
  assert (remote.1 = Ok tt) as Hremote by (vm_compute; reflexivity).
  split_and!; [exact Hlocal| |exact Hremote|].
  - apply (Hl "src/a.ts" None "/app/previews/abc123" Demo.world0 local.2).
    exact (run_eta local (Ok tt) Hlocal).
  - apply (Hr "src/a.ts" None "/app/previews/abc123" Demo.world0 remote.2).
    exact (run_eta remote (Ok tt) Hremote).
Defined.

(** X3: content that starts with the fence marker and has one line, or
    two lines, is written as an empty file: both lines go, whatever the
    second one holds. For a [file] node with such content the local
    server ensures the parent directory and then writes the empty string
    to the joined path; when that run goes through, the file on disk is
    empty. *)
Theorem short_fenced_content_is_emptied (a b : string) :
  Js.startsWith a fence = true →
  Js.lacks newline a = true →
  Js.lacks newline b = true →
  stripFence a = EmptyString
  ∧ stripFence (a +:+ nl +:+ b) = EmptyString
  ∧ (∀ content path children basePath w,
       content = a ∨ content = a +:+ nl +:+ b →
       LocalServer.processFile (mkFileNode "file" path (Str content) children) basePath w
       = (Fs.ensureDir (Path.dirname (Path.join basePath path)) ;;;
          Fs.writeFile (Path.join basePath path) EmptyString) w)
  ∧ (∀ content path children basePath w w',
       content = a ∨ content = a +:+ nl +:+ b →
       LocalServer.processFile (mkFileNode "file" path (Str content) children) basePath w
       = (Ok tt, w') →
       fs w' !! Path.resolve (Path.join basePath path) = Some (File EmptyString)).
Proof.
  intros Hf Ha Hb.
  assert (stripFence a = EmptyString) as H1.
  { rewrite stripFence_fenced by done. by apply kept_one_line. }
  assert (stripFence (a +:+ nl +:+ b) = EmptyString) as H2.
  { rewrite stripFence_fenced by by apply startsWith_append. by apply kept_two_lines. }
  assert (∀ content, content = a ∨ content = a +:+ nl +:+ b →
                     stripFence content = EmptyString) as Hs.
  { by intros content [->| ->]. }
  split_and!; [done|done| |].
  - intros content path children basePath w Hc.
    by rewrite local_processFile_file, (Hs content Hc).
  - intros content path children basePath w w' Hc H.
    apply local_file_written in H. by rewrite <- (Hs content Hc).
Qed.

Lemma short_fenced_content_is_emptied_witness :
  let one := LocalServer.processFile (mkFileNode "file" "a.ts" (Str "```") None)
               "/app/previews/abc123" Demo.world0 in
  let two := LocalServer.processFile
               (mkFileNode "file" "a.ts" (Str ("```" +:+ nl +:+ "export default 1;")) None)
               "/app/previews/abc123" Demo.world0 in
  one.1 = Ok tt
  ∧ fs one.2 !! ["app"; "previews"; "abc123"; "a.ts"] = Some (File EmptyString)
  ∧ two.1 = Ok tt
  ∧ fs two.2 !! ["app"; "previews"; "abc123"; "a.ts"] = Some (File EmptyString).
Proof.
  intros one two.
  destruct (short_fenced_content_is_emptied "```" "export default 1;")
    as (_ & _ & _ & H); [reflexivity..|].
  assert (one.1 = Ok tt) as Hone by (vm_compute; reflexivity).
  assert (two.1 = Ok tt) as Htwo by (vm_compute; reflexivity).
  split_and!; [exact Hone| |exact Htwo|].
  - apply (H "```" "a.ts" None "/app/previews/abc123" Demo.world0 one.2); [by left|].
    exact (run_eta one (Ok tt) Hone).
  - apply (H ("```" +:+ nl +:+ "export default 1;") "a.ts" None "/app/previews/abc123"
             Demo.world0 two.2); [by right|].
    exact (run_eta two (Ok tt) Htwo).
Defined.

(** ** The effects a computation can have *)

Section EmitsOnly.

Context {A : Type}.
Implicit Types (P Q : Event → Prop) (w : World).

Lemma emits_only_weaken P Q (m : M A) :
  emits_only P m → (∀ e, P e → Q e) → emits_only Q m.
Proof.
  intros Hm HPQ w. destruct (Hm w) as (events & Ht & Hall).
  exists events. split; [done|]. eapply Forall_impl; [done|]. exact HPQ.
Qed.

Lemma emits_only_ret P (a : A) : emits_only P (ret a).
Proof. intros w. exists []. by rewrite app_nil_r. Qed.

Lemma emits_only_throw P e : emits_only P (@throw A e).
Proof. intros w. exists []. by rewrite app_nil_r. Qed.

Lemma emits_only_try P (m : M A) h :
  emits_only P m → (∀ e, emits_only P (h e)) → emits_only P (try_catch m h).
Proof.
  intros Hm Hh w. unfold try_catch. destruct (Hm w) as (ev1 & Ht1 & H1).
  destruct (m w) as [[a|e] w1]; simpl in *; [by exists ev1|].
  destruct (Hh e w1) as (ev2 & Ht2 & H2).
  exists (ev1 ++ ev2). rewrite Ht2, Ht1, app_assoc. split; [done|].
  by apply Forall_app.
Qed.

Lemma emits_only_once P (m : M A) (ev : World → Event) :
  (∀ w, trace (m w).2 = trace w ++ [ev w]) → (∀ w, P (ev w)) → emits_only P m.
Proof.
  intros Ht HP w. exists [ev w]. split; [apply Ht|]. by repeat constructor.
Qed.

End EmitsOnly.

Section EmitsOnlyCalls.

Implicit Types (P : Event → Prop) (w : World) (p : string).

Lemma emits_only_bind {A B} P (m : M A) (k : A → M B) :
  emits_only P m → (∀ a, emits_only P (k a)) → emits_only P (bind m k).
Proof.
  intros Hm Hk w. unfold bind. destruct (Hm w) as (ev1 & Ht1 & H1).
  destruct (m w) as [[a|e] w1]; simpl in *; [|by exists ev1].
  destruct (Hk a w1) as (ev2 & Ht2 & H2).
  exists (ev1 ++ ev2). rewrite Ht2, Ht1, app_assoc. split; [done|].
  by apply Forall_app.
Qed.

Lemma emits_only_for_of {A} P (xs : list A) body :
  (∀ x, x ∈ xs → emits_only P (body x)) → emits_only P (for_of xs body).
Proof.
  induction xs as [|x xs IH]; intros H; simpl; [apply emits_only_ret|].
  apply emits_only_bind; [apply H; by left|]. intros _. apply IH.
  intros y Hy. apply H. by right.
Qed.

Lemma emits_pathExists P p : (∀ b, P (EvPathExists p b)) → emits_only P (Fs.pathExists p).
Proof.
  intros H. by apply (emits_only_once P _
    (fun w => EvPathExists p (Fs.exists_at (fs w) (Path.resolve p)))).
Qed.

Lemma emits_ensureDir P p : P (EvEnsureDir p) → emits_only P (Fs.ensureDir p).
Proof.
  intros H. apply (emits_only_once P _ (fun _ => EvEnsureDir p)); [|done].
  intros w. apply ensureDir_trace.
Qed.

Lemma emits_writeFile P p c : P (EvWriteFile p c) → emits_only P (Fs.writeFile p c).
Proof.
  intros H. apply (emits_only_once P _ (fun _ => EvWriteFile p c)); [|done].
  intros w. unfold Fs.writeFile. by repeat case_match.
Qed.

Lemma emits_copy P env s d : P (EvCopy s d) → emits_only P (Fs.copy env s d).
Proof.
  intros H. apply (emits_only_once P _ (fun _ => EvCopy s d)); [|done].
  intros w. apply copy_trace.
Qed.

Lemma emits_readdir P p : P (EvReaddir p) → emits_only P (Fs.readdir p).
Proof.
  intros H. apply (emits_only_once P _ (fun _ => EvReaddir p)); [|done].
  intros w. by rewrite readdir_world.
Qed.

Lemma emits_remove P env p : P (EvRemove p) → emits_only P (Fs.remove env p).
Proof.
  intros H. apply (emits_only_once P _ (fun _ => EvRemove p)); [|done].
  intros w. unfold Fs.remove. by case_match.
Qed.

Lemma emits_warn P msg : P (EvWarn msg) → emits_only P (warn msg).
Proof. intros H. by apply (emits_only_once P _ (fun _ => EvWarn msg)). Qed.

Lemma emits_exec P env cmd cwd : P (EvExec cmd cwd) → emits_only P (execAsync env cmd cwd).
Proof.
  intros H. apply (emits_only_once P _ (fun _ => EvExec cmd cwd)); [|done].
  intros w. apply execAsync_trace.
Qed.

Lemma emits_verify P buildPath files :
  (∀ p b, P (EvPathExists p b)) →
  emits_only P (LocalServer.verifyBuildArtifacts buildPath files).
Proof.
  intros H. induction files as [|f files IH]; simpl; [apply emits_only_ret|].
  apply emits_only_bind; [by apply emits_pathExists|].
  intros []; [done|apply emits_only_throw].
Qed.

End EmitsOnlyCalls.

(** Composition steps for goals of the form [emits_only P m]. *)
Ltac emits :=
  repeat first
    [ apply emits_only_ret
    | apply emits_only_throw
    | apply emits_only_bind; [|intros ?]
    | apply emits_only_try; [|intros ?]
    | apply emits_verify; intros ? ?
    | apply emits_pathExists; intros ?
    | apply emits_ensureDir
    | apply emits_writeFile
    | apply emits_copy
    | apply emits_readdir
    | apply emits_remove
    | apply emits_warn
    | apply emits_exec
    | match goal with
      | |- emits_only _ (if ?b then _ else _) => destruct b
      | |- emits_only _ (match ?c with Absent => _ | Str _ => _ | NonString => _ end) =>
          destruct c
      end ].

(** ** What materialization does and does not do *)

Section MaterializeEffects.

Implicit Types (basePath : string) (file n : FileNode).

Lemma nodes_folder type path content l :
  nodes (mkFileNode type path content (Some l))
  = mkFileNode type path content (Some l) :: concat (map nodes l).
Proof.
  simpl. f_equal. induction l as [|x l IH]; [done|]. simpl. by rewrite IH.
Qed.

Lemma nodes_self file : file ∈ nodes file.
Proof. destruct file as [? ? ? [l|]]; simpl; by left. Qed.

Lemma nodes_child type path content l child n :
  child ∈ l → n ∈ nodes child → n ∈ nodes (mkFileNode type path content (Some l)).
Proof.
  intros Hc Hn. rewrite nodes_folder. right.
  apply list_elem_of_In, in_concat. exists (nodes child).
  split; [apply in_map|]; by apply list_elem_of_In.
Qed.

Lemma processFile_folder path content l basePath :
  LocalServer.processFile (mkFileNode "folder" path content (Some l)) basePath
  = (Fs.ensureDir (Path.join basePath path) ;;;
     for_of l (fun childFile => LocalServer.processFile childFile basePath)).
Proof.
  simpl. f_equal.
  induction l as [|x l IH]; [done|]. simpl. by rewrite IH.
Qed.

End MaterializeEffects.

(** X4: the effects of materializing a submitted tree under the local
    strategy are [ensureDir] and [writeFile] calls only, each on
    [path.join(basePath, node.path)] of a node of the tree or on its
    parent directory, and what is written is the content of that node
    (fence handled, empty when absent). Children are joined to the base
    path, not to the path of their folder; nothing is removed or copied
    and no command is run. *)
Theorem materialization_effects_are_confined (file : FileNode) (basePath : string)
    (w : World) :
  ∃ events,
    trace (LocalServer.processFile file basePath w).2 = trace w ++ events
    ∧ Forall (fun e => ∃ n, n ∈ nodes file ∧ materializes basePath n e) events.
Proof.
  revert w. change (emits_only (fun e => ∃ n, n ∈ nodes file ∧ materializes basePath n e)
                      (LocalServer.processFile file basePath)).
  induction file as [type path content children IH] using FileNode_tree_ind.
  set (self := mkFileNode type path content children).
  assert (∀ e, materializes basePath self e →
               ∃ n, n ∈ nodes self ∧ materializes basePath n e) as Hself.
  { intros e He. exists self. split; [apply nodes_self|done]. }
  destruct (String.eqb type "folder") eqn:Et.
  - apply String.eqb_eq in Et. subst type. destruct children as [l|].
    + subst self. rewrite processFile_folder.
      apply emits_only_bind; [apply emits_ensureDir, Hself; by left|]. intros _.
      apply emits_only_for_of. intros child Hc.
      rewrite Forall_forall in IH.
      eapply emits_only_weaken; [by apply IH|].
      intros e (n & Hn & He). exists n. split; [by eapply nodes_child|done].
    + simpl. apply emits_only_bind; [apply emits_ensureDir, Hself; by left|].
      intros _. apply emits_only_ret.
  - simpl. rewrite Et. destruct (String.eqb type "file"); [|apply emits_only_ret].
    apply emits_only_bind; [apply emits_ensureDir, Hself; right; by left|]. intros _.
    destruct content; [| |apply emits_only_throw].
    + apply emits_writeFile, Hself. right. right. by eexists.
    + apply emits_writeFile, Hself. right. right. by eexists.
Qed.

Section HandlerEffects.

Variable env : Env.
Variable root : string.

Import LocalStages.

Lemma processFile_not_removal file basePath :
  emits_only not_removal (LocalServer.processFile file basePath).
Proof.
  induction file as [type path content children IH] using FileNode_tree_ind.
  destruct (String.eqb type "folder") eqn:Et.
  - apply String.eqb_eq in Et. subst type. destruct children as [l|].
    + rewrite processFile_folder.
      apply emits_only_bind; [by apply emits_ensureDir|]. intros _.
      apply emits_only_for_of. intros child Hc.
      rewrite Forall_forall in IH. by apply IH.
    + simpl. emits. by split.
  - simpl. rewrite Et. emits; by split.
Qed.

Lemma pipeline_not_removal req : emits_only not_removal (pipeline env root req).
Proof.
  unfold pipeline, materialize, installExtras,
    LocalServer.installAdditionalDependencies, LocalServer.createPreview.
  emits; try by split.
  apply emits_only_for_of. intros file _.
  apply emits_only_try; [apply processFile_not_removal|].
  intros e. apply emits_only_throw.
Qed.

End HandlerEffects.

(** X5: the only removal the local create handler ever requests is the
    one of the workspace path of the request, at most once and after
    every other effect; a warning is logged only right after that
    removal. When the cleanup guard does not hold nothing is removed. *)
Theorem only_the_workspace_is_removed (env : Env) (root : string)
    (req : CreateRequest) (w : World) :
  let p := LocalStages.previewPath root req in
  let out := LocalServer.createHandler env root req w in
  ∃ events tail,
    trace out.2 = trace w ++ events ++ tail
    ∧ Forall not_removal events
    ∧ (tail = [] ∨ tail = [EvRemove p] ∨ ∃ msg, tail = [EvRemove p; EvWarn msg])
    ∧ (LocalServer.cleanupGuard root p (LocalStages.publicOutputPath root req) = false →
       tail = []).
Proof.
  intros p out. subst out. rewrite createHandler_split.
  destruct (pipeline_not_removal env root req w) as (events & Ht & Hall).
  exists events.
  destruct (LocalServer.cleanupGuard root p (LocalStages.publicOutputPath root req)) eqn:Hg.
  - destruct (LocalStages.pipeline env root req w) as [[b|e] w1]; simpl in *;
      destruct (remove_denied env p w1) eqn:Hd.
    + rewrite cleanupAfterSuccess_refused by done. simpl. rewrite Ht, <- !app_assoc.
      eexists. split; [done|]. split; [done|]. split; [right; right; by eexists|done].
    + rewrite cleanupAfterSuccess_granted by done. simpl. rewrite Ht, <- !app_assoc.
      eexists. split; [done|]. split; [done|]. split; [right; by left|done].
    + rewrite cleanupAfterError_refused by done. simpl. rewrite Ht, <- !app_assoc.
      eexists. split; [done|]. split; [done|]. split; [right; right; by eexists|done].
    + rewrite cleanupAfterError_granted by done. simpl. rewrite Ht, <- !app_assoc.
      eexists. split; [done|]. split; [done|]. split; [right; by left|done].
  - exists []. rewrite app_nil_r.
    unfold LocalStages.cleanupAfterSuccess, LocalStages.cleanupAfterError, try_catch.
    fold p. rewrite Hg.
    destruct (LocalStages.pipeline env root req w) as [[b|e] w1]; simpl in *;
      (split; [done|]; split; [done|]; split; [by left|done]).
Qed.

Lemma only_the_workspace_is_removed_witness :
  Forall not_removal
    (trace (LocalServer.createHandler Demo.env_ok Demo.root Demo.escaping Demo.world0).2).
Proof.
  pose proof (only_the_workspace_is_removed Demo.env_ok Demo.root Demo.escaping Demo.world0)
    as (events & tail & Ht & Hall & _ & Hnone).
  specialize (Hnone ltac:(vm_compute; reflexivity)). subst tail.
  change (trace Demo.world0) with (@nil Event) in Ht.
  rewrite app_nil_r in Ht. simpl app in Ht.
  exact (eq_ind_r (Forall not_removal) Hall Ht).
Defined.

(** X6: the create handler of the remote strategy never removes
    anything and never logs a warning, whatever the request and however
    it ends: the workspace it created is left to the file system. *)
Theorem remote_handler_never_removes (env : Env) (root : string)
    (req : CreateRequest) (w : World) :
  ∃ events,
    trace (VercelServer.createHandler env root req w).2 = trace w ++ events
    ∧ Forall not_removal events.
Proof.
  revert w. change (emits_only not_removal (VercelServer.createHandler env root req)).
  unfold VercelServer.createHandler, VercelServer.installAdditionalDependencies,
    VercelServer.deployToVercel.
  emits; try by split.
  - apply emits_only_for_of. intros file _. unfold VercelServer.processEntry.
    emits; try by split.
    + destruct (node_children file) as [children|]; [|apply emits_only_ret].
      apply emits_only_for_of. intros child _. unfold VercelServer.writeContent.
      emits; by split.
    + unfold VercelServer.writeContent. emits; by split.
  - intros w. exists []. by rewrite app_nil_r.
Qed.

(** ** Paths of ids made of ordinary segments *)

Section CleanPaths.

Implicit Types (q id path : string).

Local Abbreviation ns := (Path.normalizeString false).
Local Abbreviation slash := Path.slash.

Lemma render_absolute st tr : ∃ q, render st tr = String slash q.
Proof. unfold render. destruct (String.eqb _ _); by eexists. Qed.

Lemma resolve_absolute q : Path.resolve (String slash q) = rev (ns [] (Js.split slash q)).
Proof. unfold Path.resolve. by rewrite split_leading_slash, ns_skip_empty. Qed.

Lemma resolve_normalize q :
  Path.resolve (Path.normalize (String slash q)) = Path.resolve (String slash q).
Proof.
  rewrite normalize_absolute, resolve_absolute.
  apply resolve_render, ns_clean; [done|apply split_segments_lack].
Qed.

Lemma join_absolute q b : ∃ q', Path.join (String slash q) b = String slash q'.
Proof.
  unfold Path.join. replace (String.eqb (String slash q) EmptyString) with false by done.
  destruct (String.eqb b EmptyString).
  - rewrite normalize_absolute. apply render_absolute.
  - rewrite append_cons, normalize_absolute. apply render_absolute.
Qed.

Lemma clean_segments_nonempty path :
  Forall clean (Js.split slash path) → path ≠ EmptyString.
Proof. intros H ->. inversion H as [|? ? [Hne _] _]. done. Qed.

(** Joining ordinary segments to an absolute path appends them. *)
Lemma resolve_join_clean q path :
  Forall clean (Js.split slash path) →
  Path.resolve (Path.join (String slash q) path)
  = Path.resolve (String slash q) ++ Js.split slash path.
Proof.
  intros H. pose proof (clean_segments_nonempty path H) as Hne.
  apply String.eqb_neq in Hne. unfold Path.join.
  replace (String.eqb (String slash q) EmptyString) with false by done.
  rewrite Hne, append_cons, resolve_normalize, !resolve_absolute.
  change ("/" +:+ path) with (String slash path).
  rewrite split_app, ns_app, (ns_push_all _ _ H), rev_app_distr.
  by rewrite rev_involutive.
Qed.

Lemma clean_index : Forall clean (Js.split slash "index.html").
Proof. repeat constructor; done. Qed.

Lemma clean_name_segments name : clean name → Forall clean (Js.split slash name).
Proof.
  intros H. destruct H as (H1 & H2 & H3 & H4) eqn:E. rewrite (split_lacks _ _ H4).
  by repeat constructor.
Qed.

Lemma resolve_PUBLIC_DIR root :
  Path.resolve (LocalServer.PUBLIC_DIR root)
  = Path.resolve (LocalServer.__dirname root) ++ ["public"].
Proof.
  unfold LocalServer.PUBLIC_DIR, LocalServer.__dirname.
  by rewrite resolve_join_clean by (apply clean_name_segments, clean_public).
Qed.

Lemma resolve_PREVIEW_DIR root :
  Path.resolve (LocalServer.PREVIEW_DIR root)
  = Path.resolve (LocalServer.__dirname root) ++ ["previews"].
Proof.
  unfold LocalServer.PREVIEW_DIR, LocalServer.__dirname.
  by rewrite resolve_join_clean by (apply clean_name_segments, clean_previews).
Qed.

Lemma PUBLIC_DIR_absolute root : ∃ q, LocalServer.PUBLIC_DIR root = String slash q.
Proof. apply join_absolute. Qed.

Lemma PREVIEW_DIR_absolute root : ∃ q, LocalServer.PREVIEW_DIR root = String slash q.
Proof. apply join_absolute. Qed.

Lemma publicOutputPath_absolute root req :
  ∃ q, LocalStages.publicOutputPath root req = String slash q.
Proof.
  unfold LocalStages.publicOutputPath.
  destruct (PUBLIC_DIR_absolute root) as [q ->]. apply join_absolute.
Qed.

Lemma resolve_public_entry root req :
  Path.resolve (Path.join (LocalStages.publicOutputPath root req) "index.html")
  = Path.resolve (LocalStages.publicOutputPath root req) ++ ["index.html"].
Proof.
  destruct (publicOutputPath_absolute root req) as [q ->].
  by rewrite resolve_join_clean by apply clean_index.
Qed.

End CleanPaths.

Lemma ordinary_ids_stay_in_place_public root id :
  Forall clean (Js.split Path.slash id) →
  Path.resolve (Path.join (LocalServer.PUBLIC_DIR root) id)
  = Path.resolve (LocalServer.__dirname root) ++ "public" :: Js.split Path.slash id.
Proof.
  intros H. destruct (PUBLIC_DIR_absolute root) as [q Hq].
  rewrite Hq, resolve_join_clean, <- Hq, resolve_PUBLIC_DIR by done.
  by rewrite <- app_assoc.
Qed.

(** X7: an id whose slash-separated segments are ordinary names (not
    empty, not [.] or [..]) keeps both of its directories where they
    belong: the workspace is [previews/<id>] and the public output is
    [public/<id>] below [__dirname], the two path strings differ and
    neither directory lies in the other. *)
Theorem ordinary_ids_stay_in_place (root id : string) :
  Forall clean (Js.split Path.slash id) →
  let here := Path.resolve (LocalServer.__dirname root) in
  let workspace := Path.join (LocalServer.PREVIEW_DIR root) id in
  let published := Path.join (LocalServer.PUBLIC_DIR root) id in
  Path.resolve workspace = here ++ "previews" :: Js.split Path.slash id
  ∧ Path.resolve published = here ++ "public" :: Js.split Path.slash id
  ∧ workspace ≠ published
  ∧ apart (Path.resolve workspace) (Path.resolve published).
Proof.
  intros H here workspace published.
  assert (Path.resolve workspace = here ++ "previews" :: Js.split Path.slash id) as Hw.
  { subst workspace. destruct (PREVIEW_DIR_absolute root) as [q Hq].
    rewrite Hq, resolve_join_clean, <- Hq, resolve_PREVIEW_DIR by done.
    by rewrite <- app_assoc. }
  assert (Path.resolve published = here ++ "public" :: Js.split Path.slash id) as Hp.
  { subst published. destruct (PUBLIC_DIR_absolute root) as [q Hq].
    rewrite Hq, resolve_join_clean, <- Hq, resolve_PUBLIC_DIR by done.
    by rewrite <- app_assoc. }
  split_and!; [done|done| |].
  - intros E. rewrite E, Hp in Hw. by apply app_inv_head in Hw.
  - rewrite Hw, Hp. split; intros [k Hk]; rewrite <- app_assoc in Hk;
      by apply app_inv_head in Hk.
Qed.

Lemma ordinary_ids_stay_in_place_witness :
  Path.resolve (Path.join (LocalServer.PREVIEW_DIR "srv/app") "team/abc123")
  = ["srv"; "app"; "previews"; "team"; "abc123"]
  ∧ Path.resolve (Path.join (LocalServer.PUBLIC_DIR "srv/app") "team/abc123")
    = ["srv"; "app"; "public"; "team"; "abc123"].
Proof.
  destruct (ordinary_ids_stay_in_place "srv/app" "team/abc123") as (H1 & H2 & _).
  - repeat constructor; done.
  - split; [exact H1|exact H2].
Defined.

(** ** The handlers as a whole *)

Section HandlersAnswer.

Variable env : Env.
Variable root : string.

Import LocalStages.

Lemma for_of_app {A} (l1 l2 : list A) body w :
  for_of (l1 ++ l2) body w = bind (for_of l1 body) (fun _ => for_of l2 body) w.
Proof.
  revert w. induction l1 as [|x l1 IH]; intros w; simpl; [done|].
  unfold bind in *. destruct (body x w) as [[[]|e] w1]; [|done].
  by rewrite IH.
Qed.

(** A result of [createPreview] means the entry document is published. *)
Lemma createPreview_ok sitePath id w b :
  (LocalServer.createPreview env root sitePath id w).1 = Ok b →
  b = BodyPreview ("/preview/" +:+ id) id
  ∧ Fs.exists_at (fs (LocalServer.createPreview env root sitePath id w).2)
      (Path.resolve (Path.join (Path.join (LocalServer.PUBLIC_DIR root) id) "index.html"))
    = true.
Proof.
  rewrite createPreview_split.
  destruct (built env sitePath w) as [[o|e] w3]; [|done].
  intros Hb.
  destruct (verifyAndPublish_trace env root sitePath id w3) as (events & _ & _ & Hok).
  by destruct (Hok b Hb) as (_ & _ & Hp & ->).
Qed.

Lemma bind_ok {A B} (m : M A) (k : A → M B) w b w' :
  bind m k w = (Ok b, w') → ∃ a w1, m w = (Ok a, w1) ∧ k a w1 = (Ok b, w').
Proof.
  unfold bind. destruct (m w) as [[a|e] w1]; [|done]. intros H. by exists a, w1.
Qed.

Lemma exists_at_lookup f f' k :
  f !! k = f' !! k → Fs.exists_at f k = Fs.exists_at f' k.
Proof. intros H. unfold Fs.exists_at, Fs.lookup_node. destruct k; [done|]. by rewrite H. Qed.

End HandlersAnswer.

Section Published.

Variable env : Env.
Variable root : string.

Lemma pipeline_ok_published req w b :
  (LocalStages.pipeline env root req w).1 = Ok b →
  b = BodyPreview ("/preview/" +:+ req_id req) (req_id req)
  ∧ Fs.exists_at (fs (LocalStages.pipeline env root req w).2)
      (Path.resolve (Path.join (LocalStages.publicOutputPath root req) "index.html"))
    = true.
Proof.
  rewrite pipeline_split.
  destruct (LocalStages.prepared env root req w) as [[[]|e] wa]; [|done].
  apply createPreview_ok.
Qed.

Lemma answered_200 req w resp :
  (LocalServer.createHandler env root req w).1 = Ok resp →
  status resp = 200 →
  ∃ b, (LocalStages.pipeline env root req w).1 = Ok b ∧ resp = res_json b.
Proof.
  rewrite response_of_pipeline.
  destruct ((LocalStages.pipeline env root req w).1) as [b|e]; intros [= <-] Hs;
    [by exists b|done].
Qed.

Lemma public_entry_framed req w :
  Fs.exists_at (fs (LocalServer.createHandler env root req w).2)
    (Path.resolve (Path.join (LocalStages.publicOutputPath root req) "index.html"))
  = Fs.exists_at (fs (LocalStages.pipeline env root req w).2)
      (Path.resolve (Path.join (LocalStages.publicOutputPath root req) "index.html")).
Proof.
  apply exists_at_lookup, cleanup_frame_handler.
  rewrite resolve_public_entry. by eexists.
Qed.

End Published.

(** X8: when the local create handler answers with status 200, the body
    is the serving path of the id, [{ url: /preview/<id>, preview_id }],
    and the entry document [index.html] is in the public directory of
    the id at the moment the response is sent, after the cleanup of the
    workspace. *)
Theorem success_means_published (env : Env) (root : string) (req : CreateRequest)
    (w : World) (resp : Response) :
  (LocalServer.createHandler env root req w).1 = Ok resp →
  status resp = 200 →
  body resp = BodyPreview ("/preview/" +:+ req_id req) (req_id req)
  ∧ Fs.exists_at (fs (LocalServer.createHandler env root req w).2)
      (Path.resolve (Path.join (LocalStages.publicOutputPath root req) "index.html"))
    = true.
Proof.
  intros Hresp Hstatus.
  destruct (answered_200 env root req w resp Hresp Hstatus) as (b & Hb & ->).
  destruct (pipeline_ok_published env root req w b Hb) as [-> Hp].
  split; [done|]. by rewrite public_entry_framed.
Qed.

Lemma success_means_published_witness :
  Fs.exists_at
    (fs (LocalServer.createHandler Demo.env_ok Demo.root Demo.scenario Demo.world0).2)
    ["app"; "public"; "abc123"; "index.html"] = true.
Proof.
  apply (success_means_published Demo.env_ok Demo.root Demo.scenario Demo.world0
           (mkResponse 200 (BodyPreview "/preview/abc123" "abc123"))); by vm_compute.
Defined.

(** X9: no handler lets an exception escape. The local create handler
    answers 200 with the result of the pipeline exactly when every stage
    went through, and 500 with the message of the first error
    otherwise; the remote create handler and the cleanup handler answer
    200 or 500 with an error message as well. *)
Theorem handlers_always_answer (env : Env) (root : string) (req : CreateRequest)
    (w : World) :
  (∃ resp w', LocalServer.createHandler env root req w = (Ok resp, w')
     ∧ match (LocalStages.pipeline env root req w).1 with
       | Ok b => resp = mkResponse 200 b
       | Throw e => resp = mkResponse 500 (BodyError (message e))
       end)
  ∧ (∃ resp w', VercelServer.createHandler env root req w = (Ok resp, w')
       ∧ ((status resp = 200 ∧ ∃ d, body resp = BodyDeployment d)
          ∨ (status resp = 500 ∧ ∃ msg, body resp = BodyError msg)))
  ∧ (∃ resp w', LocalServer.cleanupHandler env root (req_id req) w = (Ok resp, w')
       ∧ (resp = mkResponse 200 BodySuccess
          ∨ (status resp = 500 ∧ ∃ msg, body resp = BodyError msg))).
Proof.
  split_and!.
  - rewrite createHandler_split.
    destruct (LocalStages.pipeline env root req w) as [[b|e] w1]; simpl; by eexists _, _.
  - unfold VercelServer.createHandler, try_catch, ret.
    match goal with |- context [?m w] =>
      match type of m with M Response => destruct (m w) as [[r|e] w1] eqn:Hm end end.
    + exists r, w1. split; [done|].
      repeat (apply bind_ok in Hm as (? & ? & _ & Hm)).
      inversion Hm; subst. left. split; [done|]. by eexists.
    + exists (res_error e), w1. split; [done|]. right. split; [done|]. by eexists.
  - unfold LocalServer.cleanupHandler, try_catch, bind, ret, Fs.pathExists.
    destruct (Fs.exists_at _ _); [|by eexists _, _; split; [|left]].
    destruct (Fs.remove env _ _) as [[[]|e] w1]; eexists _, _; (split; [done|]).
    + by left.
    + right. split; [done|]. by eexists.
Qed.

(** X10: materialization is fail-fast. When the nodes before one went
    through and that node throws, the nodes after it are not processed,
    no external command is run (no install, no build), and the handler
    answers 500 with the message of that error. *)
Theorem failed_node_ends_the_request (env : Env) (root : string)
    (req : CreateRequest) (pre post : list FileNode) (file : FileNode)
    (w w1 w2 : World) (e : Error) :
  req_files req = pre ++ file :: post →
  LocalStages.materialize env root
    (mkCreateRequest (req_id req) pre (req_dependencies req)) w = (Ok tt, w1) →
  LocalServer.processFile file (LocalStages.previewPath root req) w1 = (Throw e, w2) →
  LocalStages.pipeline env root req w = (Throw e, w2)
  ∧ (LocalServer.createHandler env root req w).1
    = Ok (mkResponse 500 (BodyError (message e)))
  ∧ exec_calls (trace (LocalServer.createHandler env root req w).2)
    = exec_calls (trace w).
Proof.
  intros Hfiles Hpre Hfile.
  assert (LocalStages.materialize env root req w = (Throw e, w2)) as Hm.
  { unfold LocalStages.materialize, LocalStages.previewPath in *. simpl in Hpre.
    unfold bind in *.
    destruct (Fs.ensureDir _ w) as [[[]|?] wa]; [|done].
    destruct (Fs.copy _ _ _ wa) as [[[]|?] wb]; [|done].
    rewrite Hfiles, for_of_app. unfold bind. rewrite Hpre. simpl.
    unfold bind. by rewrite try_rethrow, Hfile. }
  assert (LocalStages.pipeline env root req w = (Throw e, w2)) as Hp.
  { unfold LocalStages.pipeline, bind. by rewrite Hm. }
  split_and!; [done| |].
  - by rewrite response_of_pipeline, Hp.
  - rewrite local_handler_calls, Hp. simpl.
    pose proof (quiet_local_materialize env root req w) as Hq. by rewrite Hm in Hq.
Qed.

Lemma failed_node_ends_the_request_witness :
  let req := mkCreateRequest "abc123"
               [mkFileNode "file" "a.ts" (Str "a") None;
                mkFileNode "file" "src" (Str "not a directory") None;
                mkFileNode "file" "b.ts" (Str "b") None] ["axios"] in
  (LocalServer.createHandler Demo.env_ok Demo.root req Demo.world0).1
  = Ok (mkResponse 500 (BodyError "EISDIR: /app/previews/abc123/src"))
  ∧ exec_calls (trace (LocalServer.createHandler Demo.env_ok Demo.root req Demo.world0).2)
    = [].
Proof.
  intros req.
  pose proof (failed_node_ends_the_request Demo.env_ok Demo.root req
                [mkFileNode "file" "a.ts" (Str "a") None]
                [mkFileNode "file" "b.ts" (Str "b") None]
                (mkFileNode "file" "src" (Str "not a directory") None)
                Demo.world0 _ _ (SystemError "EISDIR" "/app/previews/abc123/src")
                eq_refl
                (run_eta _ _ ltac:(vm_compute; reflexivity))
                (run_eta _ _ ltac:(vm_compute; reflexivity))) as (_ & Hr & Hc).
  split; [exact Hr|exact Hc].
Defined.

Section PublicCleanup.

Variable env : Env.
Variable root : string.

Lemma cleanupHandler_removes id w :
  let pub := Path.join (LocalServer.PUBLIC_DIR root) id in
  Fs.exists_at (fs w) (Path.resolve pub) = true →
  remove_denied env pub (emit (EvPathExists pub true) w) = false →
  LocalServer.cleanupHandler env root id w
  = (Ok (res_json BodySuccess),
     set_fs (Fs.prune (Path.resolve pub) (fs w))
       (emit (EvRemove pub) (emit (EvPathExists pub true) w))).
Proof.
  intros pub Hex Hd.
  unfold LocalServer.cleanupHandler, try_catch, bind, Fs.pathExists. fold pub.
  by rewrite Hex, remove_granted.
Qed.

(** The cleanup changes nothing outside the public directory of the id. *)
Lemma cleanupHandler_frame id w k :
  ¬ Path.resolve (Path.join (LocalServer.PUBLIC_DIR root) id) `prefix_of` k →
  fs (LocalServer.cleanupHandler env root id w).2 !! k = fs w !! k.
Proof.
  intros Hk. unfold LocalServer.cleanupHandler, try_catch, bind, Fs.pathExists.
  destruct (Fs.exists_at _ _); [|done].
  pose proof (remove_frame env (Path.join (LocalServer.PUBLIC_DIR root) id)
                (emit (EvPathExists (Path.join (LocalServer.PUBLIC_DIR root) id) true) w)
                k Hk) as Hf.
  by destruct (Fs.remove env _ _) as [[[]|e] w1].
Qed.

End PublicCleanup.

(** X11: the public cleanup of an existing directory. When the removal
    is granted the handler answers [{ success: true }], nothing is left
    at or below the public directory of the id and every other entry is
    as before. When the removal throws, the handler answers 500 with the
    message of that error, and every entry outside the public directory
    of the id is as before. *)
Theorem public_cleanup_removes_exactly_the_id (env : Env) (root id : string)
    (w : World) :
  let pub := Path.join (LocalServer.PUBLIC_DIR root) id in
  let out := LocalServer.cleanupHandler env root id w in
  Fs.exists_at (fs w) (Path.resolve pub) = true →
  (remove_denied env pub (emit (EvPathExists pub true) w) = false →
   out.1 = Ok (mkResponse 200 BodySuccess)
   ∧ (∀ k, Path.resolve pub `prefix_of` k → fs out.2 !! k = None)
   ∧ (∀ k, ¬ Path.resolve pub `prefix_of` k → fs out.2 !! k = fs w !! k))
  ∧ (∀ e, (Fs.remove env pub (emit (EvPathExists pub true) w)).1 = Throw e →
       out.1 = Ok (mkResponse 500 (BodyError (message e)))
       ∧ (∀ k, ¬ Path.resolve pub `prefix_of` k → fs out.2 !! k = fs w !! k)).
Proof.
  intros pub out Hex. split.
  - intros Hd. subst out. rewrite cleanupHandler_removes by done. simpl.
    split_and!; [done| |].
    + intros k Hk. by apply prune_lookup_in.
    + intros k Hk. by apply prune_lookup_out.
  - intros e He. subst out. split.
    + unfold LocalServer.cleanupHandler, try_catch, bind, Fs.pathExists. fold pub.
      rewrite Hex.
      destruct (Fs.remove env pub (emit (EvPathExists pub true) w)) as [[[]|e'] w1];
        [done|]. by injection He as ->.
    + intros k Hk. by apply cleanupHandler_frame.
Qed.

Lemma public_cleanup_removes_exactly_the_id_witness :
  let published := (LocalServer.createHandler Demo.env_ok Demo.root Demo.scenario
                      Demo.world0).2 in
  let out := LocalServer.cleanupHandler Demo.env_ok Demo.root "abc123" published in
  let refused := LocalServer.cleanupHandler Demo.env_denied Demo.root "abc123" published in
  out.1 = Ok (mkResponse 200 BodySuccess)
  ∧ fs out.2 !! ["app"; "public"; "abc123"; "index.html"] = None
  ∧ fs out.2 !! ["app"; "template"; "index.html"]
    = fs published !! ["app"; "template"; "index.html"]
  ∧ status <$> (match refused.1 with Ok resp => Some resp | Throw _ => None end) = Some 500
  ∧ fs refused.2 !! ["app"; "template"; "index.html"]
    = fs published !! ["app"; "template"; "index.html"].
Proof.
  intros published out refused.
  destruct (public_cleanup_removes_exactly_the_id Demo.env_ok Demo.root "abc123" published)
    as [H _]; [by vm_compute|].
  destruct H as (Hr & Hin & Hout); [reflexivity|].
  destruct (public_cleanup_removes_exactly_the_id Demo.env_denied Demo.root "abc123"
              published) as [_ H]; [by vm_compute|].
  destruct (H (SystemError "EPERM" "/app/public/abc123")) as [Hresp Hkeep]; [reflexivity|].
  split_and!; [exact Hr|apply Hin; by exists ["index.html"]|apply Hout| |apply Hkeep].
  - intros [k Hk]. by vm_compute in Hk.
  - subst refused. by rewrite Hresp.
  - intros [k Hk]. by vm_compute in Hk.
Defined.

(** X12: isolation of the public cleanup. For an id made of ordinary
    segments, the cleanup changes nothing outside [public/]: the
    template, the workspaces and [__dirname] itself are untouched. And
    the published output of another such id is untouched as well,
    unless one id is a leading part of the other. *)
Theorem public_cleanup_is_isolated (env : Env) (root id : string) (w : World) :
  Forall clean (Js.split Path.slash id) →
  let out := LocalServer.cleanupHandler env root id w in
  (∀ k, ¬ Path.resolve (LocalServer.PUBLIC_DIR root) `prefix_of` k →
        fs out.2 !! k = fs w !! k)
  ∧ (∀ other k,
       Forall clean (Js.split Path.slash other) →
       apart (Js.split Path.slash id) (Js.split Path.slash other) →
       Path.resolve (Path.join (LocalServer.PUBLIC_DIR root) other) `prefix_of` k →
       fs out.2 !! k = fs w !! k).
Proof.
  intros Hid out. subst out.
  pose proof (ordinary_ids_stay_in_place_public root id Hid) as Hpub.
  split.
  - intros k Hk. apply cleanupHandler_frame. rewrite Hpub.
    intros [k' ->]. apply Hk. rewrite resolve_PUBLIC_DIR.
    exists (Js.split Path.slash id ++ k'). by rewrite <- !app_assoc.
  - intros other k Hother [Ha Hb] Hk. apply cleanupHandler_frame.
    rewrite Hpub. rewrite (ordinary_ids_stay_in_place_public root other Hother) in Hk.
    intros [k1 E1]. destruct Hk as [k2 E2]. rewrite E2 in E1.
    rewrite <- !app_assoc in E1. apply app_inv_head in E1. simpl in E1.
    injection E1 as E1.
    destruct (prefix_weak_total (Js.split Path.slash id) (Js.split Path.slash other)
                (Js.split Path.slash other ++ k2)) as [H|H];
      [by eexists; rewrite E1|by eexists|by apply Ha|by apply Hb].
Qed.

Lemma public_cleanup_is_isolated_witness :
  let w := mkWorld (<[["app"; "public"; "abc123"] := Dir]>
                      (<[["app"; "public"; "other"; "index.html"] := File "x"]> Demo.disk0)) [] in
  let out := LocalServer.cleanupHandler Demo.env_ok Demo.root "abc123" w in
  fs out.2 !! ["app"; "public"; "other"; "index.html"] = Some (File "x")
  ∧ fs out.2 !! ["app"; "template"; "index.html"] = fs w !! ["app"; "template"; "index.html"].
Proof.
  intros w out. subst out.
  destruct (public_cleanup_is_isolated Demo.env_ok Demo.root "abc123" w) as [Hout Hother].
  - repeat constructor; done.
  - split.
    + rewrite (Hother "other" ["app"; "public"; "other"; "index.html"]); [by vm_compute| | |].
      * repeat constructor; done.
      * split; intros [k Hk]; discriminate Hk.
      * by exists ["index.html"].
    + apply Hout. intros [k Hk]. by vm_compute in Hk.
Defined.

(** ** What the file-system calls keep *)

Section FsKeeps.

Implicit Types (f : FS) (k q : list string) (w : World) (p : string).

Lemma elem_of_ancestors q k :
  q ∈ Fs.ancestors_and_self k ↔ q ≠ [] ∧ q `prefix_of` k.
Proof.
  unfold Fs.ancestors_and_self. rewrite list_elem_of_In, in_map_iff. split.
  - intros (n & <- & Hn). apply in_seq in Hn. split.
    + intros E. apply (f_equal length) in E. rewrite length_take in E. simpl in E. lia.
    + exists (drop n k). by rewrite take_drop.
  - intros [Hne [r ->]]. exists (length q). split.
    + by rewrite take_app_length.
    + apply in_seq. rewrite length_app. destruct q; [done|]. simpl. lia.
Qed.

Lemma mkdirs_lookup_in f k q :
  q ∈ Fs.ancestors_and_self k → Fs.mkdirs f k !! q = Some Dir.
Proof.
  unfold Fs.mkdirs. induction (Fs.ancestors_and_self k) as [|d l IH]; simpl.
  - by intros ?%elem_of_nil.
  - intros [->|Hin]%elem_of_cons; [apply lookup_insert_eq|].
    destruct (decide (d = q)) as [->|Hne]; [apply lookup_insert_eq|].
    rewrite lookup_insert_ne by done. by apply IH.
Qed.

Lemma mkdirs_lookup_out f k q :
  q ∉ Fs.ancestors_and_self k → Fs.mkdirs f k !! q = f !! q.
Proof.
  unfold Fs.mkdirs. induction (Fs.ancestors_and_self k) as [|d l IH]; simpl; [done|].
  intros Hq. apply not_elem_of_cons in Hq as [Hne Hq].
  rewrite lookup_insert_ne by done. by apply IH.
Qed.

Lemma no_file_among l f q :
  existsb (Fs.is_file f) l = false → q ∈ l → q ≠ [] → ∀ c, f !! q ≠ Some (File c).
Proof.
  intros Hex Hq Hne c Hc.
  assert (existsb (Fs.is_file f) l = true) as Ht; [|congruence].
  apply existsb_exists. exists q. split; [by apply list_elem_of_In|].
  unfold Fs.is_file, Fs.lookup_node. destruct q; [done|]. by rewrite Hc.
Qed.

(** [ensureDir] only adds directories: every entry stays as it is. *)
Lemma ensureDir_extends p w q n :
  fs w !! q = Some n → fs (Fs.ensureDir p w).2 !! q = Some n.
Proof.
  intros Hq. unfold Fs.ensureDir.
  destruct (existsb _ _) eqn:Hex; [done|]. simpl.
  destruct (decide (q ∈ Fs.ancestors_and_self (Path.resolve p))) as [Hin|Hout].
  - rewrite mkdirs_lookup_in by done.
    destruct n as [c|]; [|done].
    apply elem_of_ancestors in Hin as Hin'. destruct Hin' as [Hne _].
    by destruct (no_file_among _ _ _ Hex Hin Hne c).
  - by rewrite mkdirs_lookup_out.
Qed.

(** [writeFile] changes one entry, and never a directory. *)
Lemma writeFile_elsewhere p c w q :
  q ≠ Path.resolve p → fs (Fs.writeFile p c w).2 !! q = fs w !! q.
Proof.
  intros Hq. unfold Fs.writeFile. repeat case_match; try done.
  simpl. by rewrite lookup_insert_ne.
Qed.

Lemma writeFile_not_dir p c w :
  fs w !! Path.resolve p = Some Dir → fs (Fs.writeFile p c w).2 = fs w.
Proof.
  intros Hd. unfold Fs.writeFile.
  replace (Fs.is_dir (fs w) (Path.resolve p)) with true; [by rewrite orb_true_r|].
  unfold Fs.is_dir, Fs.lookup_node. destruct (Path.resolve p); [done|]. by rewrite Hd.
Qed.

Lemma writeFile_target p c w :
  (∃ c', fs (Fs.writeFile p c w).2 !! Path.resolve p = Some (File c'))
  ∨ fs (Fs.writeFile p c w).2 = fs w.
Proof.
  unfold Fs.writeFile. repeat case_match; try by right.
  left. exists c. simpl. apply lookup_insert_eq.
Qed.

End FsKeeps.

Section Keeping.

Implicit Types (T : list (list string)) (f : FS) (w : World).

Lemma keeps_refl T f : keeps T f f.
Proof. intros k. destruct (f !! k) as [[c|]|]; auto. Qed.

Lemma keeps_trans T f1 f2 f3 : keeps T f1 f2 → keeps T f2 f3 → keeps T f1 f3.
Proof.
  intros H12 H23 k. specialize (H12 k). specialize (H23 k).
  destruct (f1 !! k) as [[c|]|]; [| |done].
  - destruct H12 as [H12|[Hk [c' H12]]]; rewrite H12 in H23.
    + done.
    + right. split; [done|]. destruct H23 as [H23|[_ [c'' H23]]]; eauto.
  - by rewrite H12 in H23.
Qed.

Lemma keeps_mono T T' f f' : T ⊆ T' → keeps T f f' → keeps T' f f'.
Proof.
  intros Hsub H k. specialize (H k). destruct (f !! k) as [[c|]|]; [|done..].
  destruct H as [H|[Hk H]]; [by left|right]. split; [by apply Hsub|done].
Qed.

Lemma keeping_ret {A} T (a : A) : keeping T (ret a).
Proof. intros w. apply keeps_refl. Qed.

Lemma keeping_throw {A} T e : keeping T (@throw A e).
Proof. intros w. apply keeps_refl. Qed.

Lemma keeping_bind {A B} T (m : M A) (k : A → M B) :
  keeping T m → (∀ a, keeping T (k a)) → keeping T (bind m k).
Proof.
  intros Hm Hk w. unfold bind. specialize (Hm w).
  destruct (m w) as [[a|e] w1]; simpl in *; [|done].
  eapply keeps_trans; [done|apply Hk].
Qed.

Lemma keeping_try {A} T (m : M A) h :
  keeping T m → (∀ e, keeping T (h e)) → keeping T (try_catch m h).
Proof.
  intros Hm Hh w. unfold try_catch. specialize (Hm w).
  destruct (m w) as [[a|e] w1]; simpl in *; [done|].
  eapply keeps_trans; [done|apply Hh].
Qed.

Lemma keeping_for_of {A} T (xs : list A) body :
  (∀ x, x ∈ xs → keeping T (body x)) → keeping T (for_of xs body).
Proof.
  induction xs as [|x xs IH]; intros H; simpl; [apply keeping_ret|].
  apply keeping_bind; [apply H; by left|]. intros _. apply IH.
  intros y Hy. apply H. by right.
Qed.

Lemma keeping_mono {A} T T' (m : M A) : T ⊆ T' → keeping T m → keeping T' m.
Proof. intros Hsub H w. eapply keeps_mono; [done|apply H]. Qed.

Lemma keeping_ensureDir T p : keeping T (Fs.ensureDir p).
Proof.
  intros w k. destruct (fs w !! k) as [[c|]|] eqn:E; [left| |done];
    by apply ensureDir_extends.
Qed.

Lemma keeping_writeFile T p c : Path.resolve p ∈ T → keeping T (Fs.writeFile p c).
Proof.
  intros HT w k. destruct (decide (k = Path.resolve p)) as [->|Hne].
  - destruct (fs w !! Path.resolve p) as [[c0|]|] eqn:E; [| |done].
    + destruct (writeFile_target p c w) as [[c' H]|H].
      * right. split; [done|]. by exists c'.
      * left. by rewrite H.
    + by rewrite writeFile_not_dir.
  - rewrite <- (writeFile_elsewhere p c w k Hne). apply keeps_refl.
Qed.

End Keeping.

(** X13: materialization never deletes and never demotes. Whatever the
    submitted tree and however its processing ends, every directory that
    was on disk is still a directory and every file is still a file; and
    a file has its old content unless a node of the tree names it (its
    path joined to the base path resolves to that file). *)
Theorem materialization_keeps_what_is_there (file : FileNode) (basePath : string)
    (w : World) (k : list string) :
  let after := fs (LocalServer.processFile file basePath w).2 in
  (fs w !! k = Some Dir → after !! k = Some Dir)
  ∧ (∀ c, fs w !! k = Some (File c) →
       after !! k = Some (File c)
       ∨ ∃ n c', n ∈ nodes file
                 ∧ k = Path.resolve (Path.join basePath (node_path n))
                 ∧ after !! k = Some (File c')).
Proof.
  intros after. subst after.
  set (target := fun n => Path.resolve (Path.join basePath (node_path n))).
  assert (keeping (map target (nodes file)) (LocalServer.processFile file basePath)) as H.
  { clear w k.
    induction file as [type path content children IH] using FileNode_tree_ind.
    set (self := mkFileNode type path content children).
    assert (target self ∈ map target (nodes self)) as Hself.
    { apply list_elem_of_In, in_map, list_elem_of_In, nodes_self. }
    destruct (String.eqb type "folder") eqn:Et.
    - apply String.eqb_eq in Et. subst type. destruct children as [l|].
      + subst self. rewrite processFile_folder.
        apply keeping_bind; [apply keeping_ensureDir|]. intros _.
        apply keeping_for_of. intros child Hc. rewrite Forall_forall in IH.
        eapply keeping_mono; [|by apply IH].
        intros x Hx. apply list_elem_of_In, in_map_iff in Hx as (n & <- & Hn).
        apply list_elem_of_In, in_map, list_elem_of_In.
        eapply nodes_child; [done|]. by apply list_elem_of_In.
      + simpl. apply keeping_bind; [apply keeping_ensureDir|]. intros _.
        apply keeping_ret.
    - simpl. rewrite Et. destruct (String.eqb type "file"); [|apply keeping_ret].
      apply keeping_bind; [apply keeping_ensureDir|]. intros _.
      destruct content; [by apply keeping_writeFile..|apply keeping_throw]. }
  specialize (H w k). split.
  - intros Hd. by rewrite Hd in H.
  - intros c Hc. rewrite Hc in H. destruct H as [H|[Hk [c' H]]]; [by left|right].
    apply list_elem_of_In, in_map_iff in Hk as (n & <- & Hn).
    exists n, c'. split; [by apply list_elem_of_In|done].
Qed.

Lemma materialization_keeps_what_is_there_witness :
  let tree := mkFileNode "folder" "src"
                Absent (Some [mkFileNode "file" "src/new.ts" (Str "x") None]) in
  let after := fs (LocalServer.processFile tree "/app/template" Demo.world0).2 in
  after !! ["app"; "template"; "src"] = Some Dir
  ∧ after !! ["app"; "template"; "src"; "App.tsx"] = Some (File "export default App;").
Proof.
  intros tree after. subst after. split.
  - apply (materialization_keeps_what_is_there tree "/app/template" Demo.world0).
    by vm_compute.
  - destruct (materialization_keeps_what_is_there tree "/app/template" Demo.world0
                ["app"; "template"; "src"; "App.tsx"]) as [_ H].
    destruct (H "export default App;" ltac:(by vm_compute)) as [Hk|(n & c' & Hn & Hk & _)];
      [exact Hk|].
    exfalso. vm_compute in Hn, Hk.
    repeat (apply elem_of_cons in Hn as [->|Hn]; [discriminate Hk|]).
    by apply elem_of_nil in Hn.
Defined.

(** ** The base template *)

Section TemplateWrites.

Variable root : string.

Implicit Types (files : list (string * string)) (w : World).

Lemma writeBaseFile_keeping entry :
  keeping [template_entry root entry.1] (Template.writeBaseFile root entry).
Proof.
  unfold Template.writeBaseFile.
  apply keeping_bind; [apply keeping_ensureDir|]. intros _.
  apply keeping_writeFile. by left.
Qed.

Lemma writeBaseFiles_keeping files :
  keeping (map (fun entry => template_entry root entry.1) files)
    (for_of files (Template.writeBaseFile root)).
Proof.
  apply keeping_for_of. intros entry He.
  eapply keeping_mono; [|apply writeBaseFile_keeping].
  intros k ->%list_elem_of_singleton.
  by apply list_elem_of_In, (in_map (fun entry => template_entry root entry.1)),
    list_elem_of_In.
Qed.

Lemma writeBaseFile_lands entry w w1 :
  Template.writeBaseFile root entry w = (Ok tt, w1) →
  fs w1 !! template_entry root entry.1 = Some (File entry.2).
Proof.
  unfold Template.writeBaseFile, bind.
  destruct (Fs.ensureDir _ w) as [[[]|e] wa]; [|done].
  apply writeFile_written.
Qed.

(** When all writes went through, every base file is on disk with its
    content, provided no two of them name the same entry. *)
Lemma writeBaseFiles_land files w w1 :
  NoDup (map (fun entry => template_entry root entry.1) files) →
  for_of files (Template.writeBaseFile root) w = (Ok tt, w1) →
  ∀ entry, entry ∈ files →
           fs w1 !! template_entry root entry.1 = Some (File entry.2).
Proof.
  revert w. induction files as [|x files IH]; intros w Hnd Hrun entry Hin.
  - by apply elem_of_nil in Hin.
  - simpl in Hnd, Hrun. apply NoDup_cons in Hnd as [Hx Hnd].
    unfold bind in Hrun.
    destruct (Template.writeBaseFile root x w) as [[[]|e] wa] eqn:Hw; [|done].
    apply elem_of_cons in Hin as [->|Hin]; [|by eapply IH].
    apply writeBaseFile_lands in Hw.
    pose proof (writeBaseFiles_keeping files wa (template_entry root x.1)) as Hk.
    rewrite Hrun, Hw in Hk. simpl in Hk. by destruct Hk as [Hk|[Hk _]].
Qed.

Lemma initializeBaseTemplate_split env files w :
  Template.initializeBaseTemplate env root files w
  = match for_of files (Template.writeBaseFile root) w with
    | (Ok _, w1) =>
        (match (run env "npm install" (LocalServer.BASE_TEMPLATE_DIR root) w1).1 with
         | ExitOk _ => Ok tt
         | ExitFail code err => Throw (ExecError "npm install" code err)
         end,
         set_fs (run env "npm install" (LocalServer.BASE_TEMPLATE_DIR root) w1).2
           (emit (EvExec "npm install" (LocalServer.BASE_TEMPLATE_DIR root)) w1))
    | (Throw e, w1) => (Throw e, w1)
    end.
Proof.
  unfold Template.initializeBaseTemplate. rewrite try_rethrow. unfold bind.
  destruct (for_of files _ w) as [[[]|e] w1]; [|done].
  unfold execAsync. by destruct (run env _ _ w1) as [[o|code err] f].
Qed.

End TemplateWrites.

(** X14: [initializeBaseTemplate] writes the base files in order and
    installs last. If a write fails, the error is rethrown at once and no
    command is run. If all writes go through, every base file is on disk
    with its content when the install starts (no two keys naming the same
    entry), the install of the template directory is the one command run,
    and the initialization succeeds exactly when it exits with status 0. *)
Theorem template_is_written_before_install (env : Env) (root : string)
    (baseFiles : list (string * string)) (w : World) :
  NoDup (map (fun entry => template_entry root entry.1) baseFiles) →
  let writes := for_of baseFiles (Template.writeBaseFile root) w in
  let out := Template.initializeBaseTemplate env root baseFiles w in
  (∀ e, writes.1 = Throw e → out = (Throw e, writes.2))
  ∧ (writes.1 = Ok tt →
     (∀ filePath content, (filePath, content) ∈ baseFiles →
        fs writes.2 !! template_entry root filePath = Some (File content))
     ∧ trace out.2
       = trace writes.2 ++ [EvExec "npm install" (LocalServer.BASE_TEMPLATE_DIR root)]
     ∧ (out.1 = Ok tt
        ↔ ∃ stdout,
            (run env "npm install" (LocalServer.BASE_TEMPLATE_DIR root) writes.2).1
            = ExitOk stdout)).
Proof.
  intros Hnd writes out. subst out writes. rewrite initializeBaseTemplate_split.
  destruct (for_of baseFiles (Template.writeBaseFile root) w) as [[[]|e] w1] eqn:Hw; simpl.
  - split; [done|]. intros _. split_and!.
    + intros filePath content Hin.
      apply (writeBaseFiles_land root baseFiles w w1 Hnd Hw (filePath, content) Hin).
    + done.
    + destruct (run env _ _ w1) as [[o|code err] f]; simpl; split;
        [by eexists|done|done|by intros [? ?]].
  - split; [by intros e' [= <-]|done].
Qed.

Lemma template_is_written_before_install_witness :
  let baseFiles := map (fun filePath => (filePath, "// " +:+ filePath)) Template.baseFilePaths in
  let out := Template.initializeBaseTemplate Demo.env_ok Demo.root baseFiles
               (mkWorld ∅ []) in
  out.1 = Ok tt
  ∧ fs (for_of baseFiles (Template.writeBaseFile Demo.root) (mkWorld ∅ [])).2
      !! ["app"; "template"; "src"; "main.tsx"] = Some (File "// src/main.tsx").
Proof.
  intros baseFiles out. subst out.
  destruct (template_is_written_before_install Demo.env_ok Demo.root baseFiles (mkWorld ∅ []))
    as [_ H].
  - apply (bool_decide_unpack _). by vm_compute.
  - destruct H as (Hfiles & _ & Hok); [by vm_compute|]. split.
    + apply Hok. exists "installed". by vm_compute.
    + apply (Hfiles "src/main.tsx" "// src/main.tsx").
      apply list_elem_of_In. right. by left.
Defined.

(** ** The read-only routes *)

Section RoutePaths.

Local Abbreviation ns := (Path.normalizeString false).
Local Abbreviation slash := Path.slash.

(** Joining anything to an absolute path continues its normalization. *)
Lemma resolve_join_absolute q b :
  Path.resolve (Path.join (String slash q) b)
  = rev (ns (ns [] (Js.split slash q)) (Js.split slash b)).
Proof.
  unfold Path.join. replace (String.eqb (String slash q) EmptyString) with false by done.
  destruct (String.eqb b EmptyString) eqn:Hb.
  - apply String.eqb_eq in Hb as ->. by rewrite resolve_normalize, resolve_absolute.
  - rewrite append_cons, resolve_normalize, resolve_absolute.
    change ("/" +:+ b) with (String slash b). by rewrite split_app, ns_app.
Qed.

(** [path.join(a, id, name)] and [path.join(path.join(a, id), name)]
    name the same entry. *)
Lemma resolve_join_three q id name :
  name ≠ EmptyString →
  Path.resolve (path_join_all [String slash q; id; name])
  = Path.resolve (Path.join (Path.join (String slash q) id) name).
Proof.
  intros Hn. destruct (join_absolute q id) as [q' Hq'].
  pose proof (resolve_join_absolute q id) as H.
  rewrite Hq', resolve_join_absolute. rewrite Hq', resolve_absolute in H.
  apply (f_equal (@rev string)) in H. rewrite !rev_involutive in H. rewrite H. clear H Hq'.
  unfold path_join_all. rewrite filter_cons_True by done.
  destruct (decide (id = EmptyString)) as [->|Hid].
  - rewrite filter_cons_False by (intros E; by apply E).
    rewrite filter_cons_True, filter_nil by done.
    rewrite join_cons, append_cons, resolve_normalize, resolve_absolute.
    change ("/" +:+ Js.join "/" [name]) with (String slash name).
    by rewrite split_app, ns_app.
  - rewrite !filter_cons_True, filter_nil by done.
    rewrite !join_cons, append_cons, resolve_normalize, resolve_absolute.
    change ("/" +:+ id +:+ "/" +:+ Js.join "/" [name])
      with (String slash (id +:+ String slash name)).
    by rewrite !split_app, !ns_app.
Qed.

Lemma resolve_served_entry root id :
  Path.resolve (path_join_all [LocalServer.PUBLIC_DIR root; id; "index.html"])
  = Path.resolve (Path.join (Path.join (LocalServer.PUBLIC_DIR root) id) "index.html").
Proof.
  destruct (PUBLIC_DIR_absolute root) as [q ->]. by apply resolve_join_three.
Qed.

Lemma resolve_entry_below root id :
  Path.resolve (Path.join (Path.join (LocalServer.PUBLIC_DIR root) id) "index.html")
  = Path.resolve (Path.join (LocalServer.PUBLIC_DIR root) id) ++ ["index.html"].
Proof.
  destruct (PUBLIC_DIR_absolute root) as [q ->].
  destruct (join_absolute q id) as [q' ->].
  by rewrite resolve_join_clean by apply clean_index.
Qed.

(** The preview route is one look at the entry document. *)
Lemma previewRoute_run root id w :
  let fullPath := path_join_all [LocalServer.PUBLIC_DIR root; id; "index.html"] in
  let found :=
    Fs.exists_at (fs w)
      (Path.resolve (Path.join (Path.join (LocalServer.PUBLIC_DIR root) id) "index.html")) in
  Routes.previewRoute root id w
  = (Ok (if found then Routes.SendFile fullPath
         else Routes.NotFound ("File not found: " +:+ fullPath) fullPath),
     emit (EvPathExists fullPath found) w).
Proof.
  intros fullPath found. subst fullPath found.
  unfold Routes.previewRoute, bind, Fs.pathExists, ret.
  rewrite resolve_served_entry. by destruct (Fs.exists_at _ _).
Qed.

End RoutePaths.

(** X15: a published preview is served. When the local create handler
    answers with status 200, the handler of [GET /preview/:id/*] run
    right after it for the same id sends the entry document of the
    public directory of the id, and changes nothing on disk. *)
Theorem published_preview_is_served (env : Env) (root : string) (req : CreateRequest)
    (w : World) (resp : Response) :
  (LocalServer.createHandler env root req w).1 = Ok resp →
  status resp = 200 →
  let published := (LocalServer.createHandler env root req w).2 in
  let served := Routes.previewRoute root (req_id req) published in
  served.1
  = Ok (Routes.SendFile
          (path_join_all [LocalServer.PUBLIC_DIR root; req_id req; "index.html"]))
  ∧ fs served.2 = fs published.
Proof.
  intros Hresp Hstatus published served. subst served.
  rewrite previewRoute_run. split; [|done]. cbn [fst].
  destruct (answered_200 env root req w resp Hresp Hstatus) as (b & Hb & _).
  destruct (pipeline_ok_published env root req w b Hb) as [_ Hp].
  subst published. unfold LocalStages.publicOutputPath in *.
  pose proof (public_entry_framed env root req w) as Hf.
  unfold LocalStages.publicOutputPath in Hf. by rewrite Hf, Hp.
Qed.

Lemma published_preview_is_served_witness :
  (Routes.previewRoute Demo.root "abc123"
     (LocalServer.createHandler Demo.env_ok Demo.root Demo.scenario Demo.world0).2).1
  = Ok (Routes.SendFile "/app/public/abc123/index.html").
Proof.
  apply (published_preview_is_served Demo.env_ok Demo.root Demo.scenario Demo.world0
           (mkResponse 200 (BodyPreview "/preview/abc123" "abc123"))); by vm_compute.
Defined.

(** X16: a cleaned preview is gone. After the public cleanup of an
    existing directory whose removal is granted, the handler of
    [GET /preview/:id/*] answers 404 for the same id, whatever the id
    is. *)
Theorem cleaned_preview_is_not_found (env : Env) (root id : string) (w : World) :
  let pub := Path.join (LocalServer.PUBLIC_DIR root) id in
  let fullPath := path_join_all [LocalServer.PUBLIC_DIR root; id; "index.html"] in
  Fs.exists_at (fs w) (Path.resolve pub) = true →
  remove_denied env pub (emit (EvPathExists pub true) w) = false →
  (Routes.previewRoute root id (LocalServer.cleanupHandler env root id w).2).1
  = Ok (Routes.NotFound ("File not found: " +:+ fullPath) fullPath).
Proof.
  intros pub fullPath Hex Hd.
  rewrite previewRoute_run, cleanupHandler_removes by done. cbn [fst snd].
  rewrite resolve_entry_below. fold pub. fold fullPath.
  set (pruned := set_fs _ _).
  assert (fs pruned = Fs.prune (Path.resolve pub) (fs w)) as -> by done.
  clearbody fullPath pub. clear pruned.
  unfold Fs.exists_at, Fs.lookup_node.
  destruct (Path.resolve pub ++ ["index.html"]) as [|x k] eqn:E;
    [by destruct (Path.resolve pub)|].
  rewrite <- E, prune_lookup_in; [done|by eexists].
Qed.

Lemma cleaned_preview_is_not_found_witness :
  let published := (LocalServer.createHandler Demo.env_ok Demo.root Demo.scenario
                      Demo.world0).2 in
  (Routes.previewRoute Demo.root "abc123"
     (LocalServer.cleanupHandler Demo.env_ok Demo.root "abc123" published).2).1
  = Ok (Routes.NotFound "File not found: /app/public/abc123/index.html"
          "/app/public/abc123/index.html").
Proof.
  intros published.
  apply (cleaned_preview_is_not_found Demo.env_ok Demo.root "abc123" published);
    by vm_compute.
Defined.



(** ** What the publication leaves alone *)

Section PublishGrows.

Implicit Types (f : FS) (k q d : list string) (w : World) (p : string).

Lemma graft_lookup_out s d f k :
  ¬ d `prefix_of` k → Fs.graft s d f !! k = f !! k.
Proof.
  intros H. unfold Fs.graft.
  induction (map_to_list (Fs.subtree s f)) as [|kv l IH]; simpl; [done|].
  rewrite lookup_insert_ne; [done|]. intros <-. apply H. by eexists.
Qed.

Lemma graft_some_lookup_out reached s d f k :
  ¬ d `prefix_of` k → Fs.graft_some reached s d f !! k = f !! k.
Proof.
  intros H. unfold Fs.graft_some.
  induction (List.filter _ _) as [|kv l IH]; simpl; [done|].
  rewrite lookup_insert_ne; [done|]. intros <-. apply H. by eexists.
Qed.

Lemma parent_prefix d : Fs.parent d `prefix_of` d.
Proof.
  unfold Fs.parent. destruct d as [|x d _] using rev_ind; [done|].
  rewrite removelast_last. by eexists.
Qed.

Lemma grows_into_refl d f : grows_into d f f.
Proof. intros k _. destruct (f !! k); [done|by left]. Qed.

Lemma grows_into_trans d f1 f2 f3 :
  grows_into d f1 f2 → grows_into d f2 f3 → grows_into d f1 f3.
Proof.
  intros H12 H23 k Hk. specialize (H12 k Hk). specialize (H23 k Hk).
  destruct (f1 !! k) as [n|].
  - by rewrite H12 in H23.
  - destruct H12 as [H12|[Hp H12]]; rewrite H12 in H23; [done|].
    right. by split.
Qed.

(** Directories made on the way to [q], with no file in the way. *)
Lemma mkdirs_grows f q d :
  existsb (Fs.is_file f) (Fs.ancestors_and_self q) = false →
  q `prefix_of` d → grows_into d f (Fs.mkdirs f q).
Proof.
  intros Hex Hq k Hk.
  destruct (decide (k ∈ Fs.ancestors_and_self q)) as [Hin|Hout].
  - rewrite mkdirs_lookup_in by done.
    apply elem_of_ancestors in Hin as Hin'. destruct Hin' as [Hne Hpre].
    destruct (f !! k) as [[c|]|] eqn:E.
    + by destruct (no_file_among _ _ _ Hex Hin Hne c).
    + done.
    + right. split; [by etrans|done].
  - rewrite mkdirs_lookup_out by done. destruct (f !! k); [done|by left].
Qed.

Lemma grows_ensureDir p : fs_within (grows_into (Path.resolve p)) (Fs.ensureDir p).
Proof.
  intros w. unfold Fs.ensureDir.
  destruct (existsb _ _) eqn:Hex; [apply grows_into_refl|].
  by apply mkdirs_grows.
Qed.

Lemma grows_copy env src dst :
  fs_within (grows_into (Path.resolve dst)) (Fs.copy env src dst).
Proof.
  intros w. unfold Fs.copy.
  repeat case_match; try apply grows_into_refl.
  all: cbn [fs set_fs emit snd]; intros k Hk;
    rewrite ?graft_lookup_out, ?graft_some_lookup_out by done.
  all: by apply (mkdirs_grows (fs w) (Fs.parent (Path.resolve dst)) (Path.resolve dst));
    [|apply parent_prefix|].
Qed.

Lemma grows_bind {A B} d (m : M A) (k : A → M B) :
  fs_within (grows_into d) m → (∀ a, fs_within (grows_into d) (k a)) →
  fs_within (grows_into d) (bind m k).
Proof.
  intros Hm Hk w. unfold bind. specialize (Hm w).
  destruct (m w) as [[a|e] w1]; [|done].
  eapply grows_into_trans; [exact Hm|apply Hk].
Qed.

Lemma grows_unchanged {A} d (m : M A) :
  (∀ w, fs (m w).2 = fs w) → fs_within (grows_into d) m.
Proof. intros H w. rewrite H. apply grows_into_refl. Qed.

Lemma grows_verify d buildPath :
  fs_within (grows_into d)
    (LocalServer.verifyBuildArtifacts buildPath LocalServer.defaultRequiredFiles).
Proof. apply grows_unchanged. intros w. by rewrite verify_default. Qed.

Lemma verifyAndPublish_grows env root sitePath id :
  fs_within (grows_into (Path.resolve (Path.join (LocalServer.PUBLIC_DIR root) id)))
    (LocalStages.verifyAndPublish env root sitePath id).
Proof.
  unfold LocalStages.verifyAndPublish.
  apply grows_bind; [by apply grows_unchanged|]. intros distExists.
  apply grows_bind; [destruct distExists; [apply grows_verify|by apply grows_unchanged]|].
  intros _. apply grows_bind; [apply grows_ensureDir|].
  intros _. apply grows_bind; [apply grows_copy|].
  intros _. apply grows_bind; [apply grows_verify|].
  intros _. apply grows_bind; [|by intros; apply grows_unchanged].
  apply grows_unchanged. intros w. by rewrite readdir_world.
Qed.

End PublishGrows.

(** X18: the publication touches the public directory of the id only.
    From the check of [dist] to the listing of the public directory,
    [createPreview] leaves every entry outside [public/<id>] as it is,
    the build output and the other previews included; and an entry that
    is new outside [public/<id>] is a directory on the way to it. This
    holds whether the publication succeeds or fails. *)
Theorem publication_touches_its_directory_only (env : Env) (root sitePath id : string)
    (w : World) (k : list string) :
  let pub := Path.resolve (Path.join (LocalServer.PUBLIC_DIR root) id) in
  let out := LocalStages.verifyAndPublish env root sitePath id w in
  ¬ pub `prefix_of` k →
  (∀ n, fs w !! k = Some n → fs out.2 !! k = Some n)
  ∧ (fs w !! k = None →
     fs out.2 !! k = None ∨ (k `prefix_of` pub ∧ fs out.2 !! k = Some Dir)).
Proof.
  intros pub out Hk.
  pose proof (verifyAndPublish_grows env root sitePath id w k Hk) as H.
  fold pub out in H. split.
  - intros n Hn. by rewrite Hn in H.
  - intros Hn. by rewrite Hn in H.
Qed.

Lemma publication_touches_its_directory_only_witness :
  let w := mkWorld (<[["app"; "previews"; "abc123"; "dist"; "index.html"] := File "<html></html>"]>
                      (<[["app"; "previews"; "abc123"; "dist"] := Dir]> Demo.disk0)) [] in
  let out := LocalStages.verifyAndPublish Demo.env_ok Demo.root "/app/previews/abc123" "abc123" w in
  fs out.2 !! ["app"; "previews"; "abc123"; "dist"; "index.html"]
  = Some (File "<html></html>")
  ∧ fs out.2 !! ["app"; "public"; "abc123"; "index.html"] = Some (File "<html></html>").
Proof.
  intros w out. split; [|by vm_compute].
  destruct (publication_touches_its_directory_only Demo.env_ok Demo.root
              "/app/previews/abc123" "abc123"
              w ["app"; "previews"; "abc123"; "dist"; "index.html"]) as [H _].
  - intros [k Hk]. by vm_compute in Hk.
  - apply H. by vm_compute.
Defined.

(** ** Materialization in the remote strategy *)

(** X19: the remote strategy materializes one level only. The effects of
    one pass of the loop over [files] are [ensureDir] and [writeFile]
    calls on the node itself and on the direct children of a folder:
    the directory of the node, the parent directory of a written path,
    and the content of a node whose content is a string, fence handled.
    Nodes further down are never visited, and a child is written as a
    file whatever its type. *)
Theorem remote_materialization_is_one_level_deep (file : FileNode)
    (previewPath : string) (w : World) :
  ∃ events,
    trace (VercelServer.processEntry previewPath file w).2 = trace w ++ events
    ∧ Forall (fun e =>
                e = EvEnsureDir (Path.join previewPath (node_path file))
                ∨ ∃ n, (n = file ∨ ∃ l, node_children file = Some l ∧ n ∈ l)
                       ∧ (e = EvEnsureDir (Path.dirname (Path.join previewPath (node_path n)))
                          ∨ ∃ s, node_content n = Str s
                                 ∧ e = EvWriteFile (Path.join previewPath (node_path n))
                                         (stripFence s)))
             events.
Proof.
  revert w.
  match goal with
  | |- ∀ w, ∃ events, _ ∧ Forall ?P events =>
      change (emits_only P (VercelServer.processEntry previewPath file))
  end.
  unfold VercelServer.processEntry.
  apply emits_only_try; [|intros e; apply emits_only_throw].
  destruct (String.eqb (node_type file) "folder").
  - apply emits_only_bind; [apply emits_ensureDir; by left|]. intros _.
    destruct (node_children file) as [children|] eqn:Hc; [|apply emits_only_ret].
    apply emits_only_for_of. intros child Hchild.
    apply emits_only_bind.
    + apply emits_ensureDir. right. exists child. split; [right; by exists children|by left].
    + intros _. unfold VercelServer.writeContent.
      destruct (node_content child) as [|s|] eqn:Hs; try apply emits_only_throw.
      apply emits_writeFile. right. exists child.
      split; [right; by exists children|right; by exists s].
  - apply emits_only_bind.
    + apply emits_ensureDir. right. exists file. split; [by left|by left].
    + intros _. unfold VercelServer.writeContent.
      destruct (node_content file) as [|s|] eqn:Hs; try apply emits_only_throw.
      apply emits_writeFile. right. exists file. split; [by left|right; by exists s].
Qed.

(** ** The paths of an ordinary request *)

Section Dirname.

Local Abbreviation slash := Path.slash.

Lemma list_ascii_append a b :
  String.list_ascii_of_string (a +:+ b)
  = String.list_ascii_of_string a ++ String.list_ascii_of_string b.
Proof. induction a as [|c a IH]; [done|]. rewrite append_cons. simpl. by rewrite IH. Qed.

Lemma drop_while_all f l1 l2 :
  forallb f l1 = true → Path.drop_while f (l1 ++ l2) = Path.drop_while f l2.
Proof.
  induction l1 as [|c l1 IH]; [done|]. simpl.
  intros [Hc Hl]%andb_prop. rewrite Hc. by apply IH.
Qed.

Lemma lacks_chars c b :
  Js.lacks c b = true →
  Forall (fun x => Ascii.eqb x c = false) (String.list_ascii_of_string b).
Proof.
  induction b as [|a b IH]; simpl; [constructor|].
  intros [Ha Hb]%andb_prop. apply negb_true_iff in Ha. constructor; [done|by apply IH].
Qed.

(** [path.dirname] of an absolute path whose last segment is a plain
    name drops that segment. *)
Lemma dirname_last a b :
  a ≠ EmptyString → b ≠ EmptyString → Js.lacks slash b = true →
  Path.dirname (String slash (a +:+ String slash b)) = String slash a.
Proof.
  intros Ha Hb Hl. unfold Path.dirname.
  rewrite list_ascii_append. cbn [String.list_ascii_of_string].
  rewrite rev_app_distr. cbn [rev]. rewrite <- app_assoc.
  pose proof (lacks_chars _ _ Hl) as Hchars.
  apply Forall_rev in Hchars.
  destruct (rev (String.list_ascii_of_string b)) as [|h t] eqn:Eb.
  { apply (f_equal (@length _)) in Eb. rewrite length_rev in Eb.
    destruct b; [done|discriminate Eb]. }
  inversion Hchars as [|? ? Hh Ht]; subst.
  change (Path.is_slash h = false) in Hh.
  cbn [app Path.drop_while]. rewrite Hh.
  cbn [Path.drop_while]. rewrite Hh. cbn [negb].
  rewrite drop_while_all.
  2: { apply forallb_forall. intros x Hx. rewrite Forall_forall in Ht.
       unfold Path.is_slash. by rewrite (Ht x) by by apply list_elem_of_In. }
  cbn [Path.drop_while].
  replace (Path.is_slash slash) with true by done. cbn [negb].
  destruct (rev (String.list_ascii_of_string a)) as [|x l] eqn:Ea.
  { apply (f_equal (@length _)) in Ea. rewrite length_rev in Ea.
    destruct a; [done|discriminate Ea]. }
  rewrite <- Ea, rev_involutive, String.string_of_list_ascii_of_string. done.
Qed.

End Dirname.

Section WorkspacePaths.

Local Abbreviation ns := (Path.normalizeString false).
Local Abbreviation slash := Path.slash.

Implicit Types (st : list string) (path id root : string).

Lemma ordinary_no_trailing_slash path :
  ordinary path → Js.endsWithChar path slash = false.
Proof.
  intros H. rewrite <- (join_split slash path).
  apply endsWithChar_join; [apply split_nonempty|done].
Qed.

Lemma join_nonempty_rev x B : Forall clean (x :: B) → Js.join "/" (rev (x :: B)) ≠ EmptyString.
Proof.
  intros H. destruct (rev (x :: B)) as [|y l] eqn:E.
  { by apply (f_equal length) in E; rewrite length_rev in E. }
  apply join_clean_nonempty. apply Forall_rev in H. rewrite E in H. by inversion H.
Qed.

(** Joining an ordinary path to a normalized absolute path pushes its
    segments. *)
Lemma join_clean_stack st path :
  st ≠ [] → Forall clean st → ordinary path →
  Path.join (render st false) path = render (rev (Js.split slash path) ++ st) false.
Proof.
  intros Hne Hst Hp. destruct st as [|x B]; [done|].
  rewrite join_from_base, ns_push_all by done.
  by rewrite ordinary_no_trailing_slash.
Qed.

(** [path.dirname] pops the last segment of a normalized absolute path. *)
Lemma dirname_render x y B :
  Forall clean (x :: y :: B) →
  Path.dirname (render (x :: y :: B) false) = render (y :: B) false.
Proof.
  intros H. inversion H as [|? ? Hx Hrest]; subst.
  rewrite (render_cons x (y :: B) false H), (render_cons y B false Hrest), !append_nil_r.
  change (rev (x :: y :: B)) with (rev (y :: B) ++ [x]).
  rewrite join_app; [|by intros E; apply (f_equal length) in E; rewrite length_rev in E|done].
  change ("/" +:+ Js.join "/" [x]) with (String slash x).
  destruct Hx as (Hne & _ & _ & Hl).
  apply dirname_last; [by apply join_nonempty_rev|done|done].
Qed.

(** What is written for a node with an ordinary path lies in the
    directory the path is joined to. *)
Lemma workspace_targets st path :
  st ≠ [] → Forall clean st → ordinary path →
  rev st `prefix_of` Path.resolve (Path.join (render st false) path)
  ∧ rev st `prefix_of` Path.resolve (Path.dirname (Path.join (render st false) path)).
Proof.
  intros Hne Hst Hp. rewrite join_clean_stack by done.
  assert (Forall clean (rev (Js.split slash path) ++ st)) as Hall.
  { apply Forall_app. split; [by apply Forall_rev|done]. }
  split.
  - rewrite resolve_render, rev_app_distr, rev_involutive by done. by eexists.
  - destruct (rev (Js.split slash path)) as [|x t] eqn:E.
    { apply (f_equal length) in E. rewrite length_rev in E.
      destruct (split_cons slash path) as (? & ? & Hs). by rewrite Hs in E. }
    destruct (t ++ st) as [|y B] eqn:E2.
    { destruct t; [by subst|discriminate E2]. }
    change ((x :: t) ++ st) with (x :: (t ++ st)) in *. rewrite E2 in *.
    rewrite dirname_render by done. inversion Hall; subst.
    rewrite resolve_render, <- E2, rev_app_distr by done. by eexists.
Qed.

(** The workspace of an ordinary id, as a stack over [__dirname]. *)
Lemma previewPath_stack root id :
  ordinary id →
  Path.join (LocalServer.PREVIEW_DIR root) id
  = render (rev (Js.split slash id) ++ "previews" :: ns [] (Js.split slash root)) false.
Proof.
  intros H. unfold LocalServer.PREVIEW_DIR, LocalServer.__dirname.
  rewrite join_dirname by apply clean_previews.
  apply join_clean_stack; [done|apply dirname_stack_clean, clean_previews|done].
Qed.

Lemma previewPath_stack_clean root id :
  ordinary id →
  Forall clean (rev (Js.split slash id) ++ "previews" :: ns [] (Js.split slash root)).
Proof.
  intros H. apply Forall_app. split; [by apply Forall_rev|].
  apply dirname_stack_clean, clean_previews.
Qed.

Lemma resolve_previewPath root id :
  ordinary id →
  Path.resolve (Path.join (LocalServer.PREVIEW_DIR root) id)
  = Path.resolve (LocalServer.__dirname root) ++ "previews" :: Js.split slash id.
Proof.
  intros H. rewrite previewPath_stack, resolve_render by by try apply previewPath_stack_clean.
  unfold LocalServer.__dirname. rewrite resolve_absolute, rev_app_distr, rev_involutive.
  simpl. by rewrite <- app_assoc.
Qed.

(** Nothing at or below the workspace of an ordinary id is at, below or
    above the public directory of the id. *)
Lemma workspace_not_public root id t :
  ordinary id →
  Path.resolve (Path.join (LocalServer.PREVIEW_DIR root) id) `prefix_of` t →
  ¬ Path.resolve (Path.join (LocalServer.PUBLIC_DIR root) id) `prefix_of` t
  ∧ ¬ t `prefix_of` Path.resolve (Path.join (LocalServer.PUBLIC_DIR root) id).
Proof.
  intros Hid. rewrite resolve_previewPath, ordinary_ids_stay_in_place_public by done.
  intros [r ->]. split; intros [r' E]; rewrite <- !app_assoc in E;
    by apply app_inv_head in E.
Qed.

(** The targets of a node with an ordinary path, in the workspace of an
    ordinary id. *)
Lemma node_targets root id path :
  ordinary id → ordinary path →
  let p := Path.join (LocalServer.PREVIEW_DIR root) id in
  Path.resolve p `prefix_of` Path.resolve (Path.join p path)
  ∧ Path.resolve p `prefix_of` Path.resolve (Path.dirname (Path.join p path)).
Proof.
  intros Hid Hp p. subst p. rewrite previewPath_stack by done.
  pose proof (previewPath_stack_clean root id Hid) as Hst.
  rewrite (resolve_render _ false Hst).
  apply workspace_targets; [by destruct (rev _)|done|done].
Qed.

End WorkspacePaths.

(** ** What the steps of a request leave alone *)

Section Below.

Implicit Types (d k : list string) (f : FS) (w : World) (p : string).

Lemma same_below_refl d f : same_below d f f.
Proof. by intros k _. Qed.

Lemma same_below_trans d f1 f2 f3 :
  same_below d f1 f2 → same_below d f2 f3 → same_below d f1 f3.
Proof. intros H12 H23 k Hk. by rewrite H23, H12. Qed.

Lemma below_ret {A} d (a : A) : fs_within (same_below d) (ret a).
Proof. intros w. apply same_below_refl. Qed.

Lemma below_throw {A} d e : fs_within (same_below d) (@throw A e).
Proof. intros w. apply same_below_refl. Qed.

Lemma below_bind {A B} d (m : M A) (k : A → M B) :
  fs_within (same_below d) m → (∀ a, fs_within (same_below d) (k a)) →
  fs_within (same_below d) (bind m k).
Proof.
  intros Hm Hk w. unfold bind. specialize (Hm w).
  destruct (m w) as [[a|e] w1]; [|done].
  eapply same_below_trans; [exact Hm|apply Hk].
Qed.

Lemma below_try {A} d (m : M A) h :
  fs_within (same_below d) m → (∀ e, fs_within (same_below d) (h e)) →
  fs_within (same_below d) (try_catch m h).
Proof.
  intros Hm Hh w. unfold try_catch. specialize (Hm w).
  destruct (m w) as [[a|e] w1]; [done|].
  eapply same_below_trans; [exact Hm|apply Hh].
Qed.

Lemma below_for_of {A} d (xs : list A) body :
  (∀ x, x ∈ xs → fs_within (same_below d) (body x)) →
  fs_within (same_below d) (for_of xs body).
Proof.
  induction xs as [|x xs IH]; intros H; simpl; [apply below_ret|].
  apply below_bind; [apply H; by left|]. intros _. apply IH.
  intros y Hy. apply H. by right.
Qed.

Lemma below_unchanged {A} d (m : M A) :
  (∀ w, fs (m w).2 = fs w) → fs_within (same_below d) m.
Proof. intros H w. rewrite H. apply same_below_refl. Qed.

Lemma below_ensureDir d p :
  ¬ writes_into d (EvEnsureDir p) → fs_within (same_below d) (Fs.ensureDir p).
Proof.
  intros Hp w. unfold Fs.ensureDir.
  destruct (existsb _ _); [apply same_below_refl|].
  intros k Hk. cbn [fs set_fs emit snd]. apply mkdirs_lookup_out.
  intros [_ Hin]%elem_of_ancestors. apply Hp. simpl. by etrans.
Qed.

Lemma below_writeFile d p c :
  ¬ writes_into d (EvWriteFile p c) → fs_within (same_below d) (Fs.writeFile p c).
Proof.
  intros Hp w. unfold Fs.writeFile.
  destruct (_ || _); [apply same_below_refl|].
  destruct (Fs.is_dir _ _); [|apply same_below_refl].
  intros k Hk. cbn [fs set_fs emit snd]. apply lookup_insert_ne.
  intros E. apply Hp. simpl. by rewrite E.
Qed.

Lemma below_copy d env s p :
  ¬ writes_into d (EvCopy s p) → fs_within (same_below d) (Fs.copy env s p).
Proof.
  intros Hp w. unfold Fs.copy. simpl in Hp.
  repeat case_match; try apply same_below_refl.
  all: intros k Hk; cbn [fs set_fs emit snd].
  all: assert (¬ Path.resolve p `prefix_of` k) as Hout
    by (intros Hpk; destruct (prefix_weak_total _ _ _ Hk Hpk); tauto).
  all: rewrite ?graft_lookup_out, ?graft_some_lookup_out by done.
  all: apply mkdirs_lookup_out; intros [_ Hin]%elem_of_ancestors.
  all: apply Hp; left; etrans; [exact Hk|]; etrans; [exact Hin|apply parent_prefix].
Qed.

Lemma below_exec d env cmd cwd :
  spares d env cwd → fs_within (same_below d) (execAsync env cmd cwd).
Proof.
  intros Hs w k Hk. unfold execAsync. specialize (Hs cmd w k Hk).
  by destruct (run env cmd cwd w) as [[o|code err] f].
Qed.

Lemma below_readdir d p : fs_within (same_below d) (Fs.readdir p).
Proof. apply below_unchanged. intros w. by rewrite readdir_world. Qed.

End Below.

(** ** The steps of [processFile] *)

Section ProcessSteps.

Variable Φ : M unit → Prop.
Hypothesis Φ_ret : Φ (ret tt).
Hypothesis Φ_throw : ∀ e, Φ (throw e).
Hypothesis Φ_bind : ∀ (m : M unit) (k : unit → M unit), Φ m → (∀ a, Φ (k a)) → Φ (bind m k).

Lemma for_of_steps {A} (xs : list A) body :
  (∀ x, x ∈ xs → Φ (body x)) → Φ (for_of xs body).
Proof.
  induction xs as [|x xs IH]; intros H; simpl; [apply Φ_ret|].
  apply Φ_bind; [apply H; by left|]. intros _. apply IH.
  intros y Hy. apply H. by right.
Qed.

(** A property of computations that sequencing keeps holds of
    [processFile] once it holds of the calls on the nodes of the tree. *)
Lemma processFile_steps basePath file :
  (∀ n, n ∈ nodes file →
     Φ (Fs.ensureDir (Path.join basePath (node_path n)))
     ∧ Φ (Fs.ensureDir (Path.dirname (Path.join basePath (node_path n))))
     ∧ ∀ c, Φ (Fs.writeFile (Path.join basePath (node_path n)) c)) →
  Φ (LocalServer.processFile file basePath).
Proof.
  induction file as [type path content children IH] using FileNode_tree_ind.
  intros H. set (self := mkFileNode type path content children) in *.
  destruct (H self (nodes_self self)) as (Hdir & Hparent & Hwrite).
  destruct (String.eqb type "folder") eqn:Et.
  - apply String.eqb_eq in Et. subst type. destruct children as [l|].
    + subst self. rewrite processFile_folder.
      apply Φ_bind; [exact Hdir|]. intros _.
      apply for_of_steps. intros child Hc. rewrite Forall_forall in IH.
      apply IH; [done|]. intros n Hn. apply H. by eapply nodes_child.
    + simpl. apply Φ_bind; [exact Hdir|]. intros _. apply Φ_ret.
  - simpl. rewrite Et. destruct (String.eqb type "file"); [|apply Φ_ret].
    apply Φ_bind; [exact Hparent|]. intros _.
    destruct content; [apply Hwrite..|apply Φ_throw].
Qed.

End ProcessSteps.

(** ** Ordinary requests and the public directory *)

Section ComesAfter.

Implicit Types (check : Event) (Q : Event → Prop) (events : list Event).

Lemma comes_after_none check Q events :
  Forall (fun e => ¬ Q e) events → comes_after check Q events.
Proof. intros H i e Hi He. rewrite Forall_lookup in H. by destruct (H i e Hi). Qed.

Lemma comes_after_app check Q pre post :
  Forall (fun e => ¬ Q e) pre → comes_after check Q post →
  comes_after check Q (pre ++ post).
Proof.
  intros Hpre Hpost i e Hi He.
  destruct (decide (i < length pre)%nat) as [Hlt|Hge].
  - rewrite lookup_app_l in Hi by done.
    rewrite Forall_lookup in Hpre. by destruct (Hpre i e Hi).
  - rewrite lookup_app_r in Hi by lia.
    destruct (Hpost _ _ Hi He) as (j & Hj & Hc).
    exists (length pre + j)%nat. split; [lia|].
    rewrite lookup_app_r by lia.
    by replace (length pre + j - length pre)%nat with j by lia.
Qed.

Lemma comes_after_then check Q events rest :
  comes_after check Q events → Forall (fun e => ¬ Q e) rest →
  comes_after check Q (events ++ rest).
Proof.
  intros Hev Hrest i e Hi He.
  destruct (decide (i < length events)%nat) as [Hlt|Hge].
  - rewrite lookup_app_l in Hi by done.
    destruct (Hev _ _ Hi He) as (j & Hj & Hc).
    exists j. split; [done|]. rewrite lookup_app_l by lia. done.
  - rewrite lookup_app_r in Hi by lia.
    rewrite Forall_lookup in Hrest. by destruct (Hrest _ e Hi).
Qed.

Lemma comes_after_checked check Q a rest :
  ¬ Q a → ¬ Q check → comes_after check Q (a :: check :: rest).
Proof.
  intros Ha Hc [|[|i]] e Hi He; simplify_eq/=; [done|done|].
  exists 1%nat. split; [lia|done].
Qed.

End ComesAfter.

Section OrdinaryRequest.

Variable env : Env.
Variable root : string.

Import LocalStages.

Implicit Types (req : CreateRequest) (w : World) (d : list string).

(** A request whose id and node paths are ordinary keeps out of the
    public directory of its id. *)
Lemma ordinary_keeps_out req :
  ordinary_request req →
  keeps_out (Path.resolve (publicOutputPath root req)) root req.
Proof.
  intros [Hid Hnodes].
  destruct (workspace_not_public root (req_id req)
              (Path.resolve (previewPath root req)) Hid) as [H1 H2]; [done|].
  split_and!; [done|done|].
  intros file n Hfile Hn.
  destruct (node_targets root (req_id req) (node_path n) Hid (Hnodes file n Hfile Hn))
    as [Ht Hp].
  destruct (workspace_not_public root (req_id req) _ Hid Ht) as [H3 _].
  destruct (workspace_not_public root (req_id req) _ Hid Hp) as [H4 _].
  done.
Qed.

Lemma materialize_emits d req :
  keeps_out d root req →
  emits_only (fun e => ¬ writes_into d e) (materialize env root req).
Proof.
  intros (Hd & Hu & Hnodes). unfold materialize.
  apply emits_only_bind; [by apply emits_ensureDir|]. intros _.
  apply emits_only_bind; [apply emits_copy; simpl; tauto|]. intros _.
  apply emits_only_for_of. intros file Hfile.
  apply emits_only_try; [|intros e; apply emits_only_throw].
  apply processFile_steps;
    [apply emits_only_ret|intros; apply emits_only_throw
    |intros; by apply emits_only_bind|].
  intros n Hn. destruct (Hnodes file n Hfile Hn) as [H1 H2].
  split_and!; [by apply emits_ensureDir|by apply emits_ensureDir|].
  intros c. by apply emits_writeFile.
Qed.

Lemma materialize_below d req :
  keeps_out d root req →
  fs_within (same_below d) (materialize env root req).
Proof.
  intros (Hd & Hu & Hnodes). unfold materialize.
  apply below_bind; [by apply below_ensureDir|]. intros _.
  apply below_bind; [apply below_copy; simpl; tauto|]. intros _.
  apply below_for_of. intros file Hfile.
  apply below_try; [|intros e; apply below_throw].
  apply processFile_steps;
    [apply below_ret|intros; apply below_throw|intros; by apply below_bind|].
  intros n Hn. destruct (Hnodes file n Hfile Hn) as [H1 H2].
  split_and!; [by apply below_ensureDir|by apply below_ensureDir|].
  intros c. by apply below_writeFile.
Qed.

Lemma installExtras_emits P req :
  (∀ cmd cwd, P (EvExec cmd cwd)) → emits_only P (installExtras env root req).
Proof.
  intros H. unfold installExtras, LocalServer.installAdditionalDependencies.
  destruct (0 <? _); [|apply emits_only_ret].
  apply emits_only_try; [|intros e; apply emits_only_throw].
  apply emits_only_bind; [by apply emits_exec|]. intros _. apply emits_only_ret.
Qed.

Lemma installExtras_below d req :
  spares d env (previewPath root req) →
  fs_within (same_below d) (installExtras env root req).
Proof.
  intros H. unfold installExtras, LocalServer.installAdditionalDependencies.
  destruct (0 <? _); [|apply below_ret].
  apply below_try; [|intros e; apply below_throw].
  apply below_bind; [by apply below_exec|]. intros _. apply below_ret.
Qed.

Lemma built_emits P sitePath :
  (∀ cmd cwd, P (EvExec cmd cwd)) → (∀ p, P (EvReaddir p)) →
  emits_only P (built env sitePath).
Proof.
  intros He Hr. unfold built, installed.
  apply emits_only_bind; [|intros _; by apply emits_exec].
  apply emits_only_bind; [by apply emits_readdir|]. intros _. by apply emits_exec.
Qed.

Lemma built_below d sitePath :
  spares d env sitePath → fs_within (same_below d) (built env sitePath).
Proof.
  intros H. unfold built, installed.
  apply below_bind; [|intros _; by apply below_exec].
  apply below_bind; [apply below_readdir|]. intros _. by apply below_exec.
Qed.

Lemma prepared_emits d req :
  keeps_out d root req →
  emits_only (fun e => ¬ writes_into d e) (prepared env root req).
Proof.
  intros Hreq. unfold prepared.
  apply emits_only_bind; [by apply materialize_emits|]. intros _.
  apply installExtras_emits. by intros cmd cwd [].
Qed.

Lemma prepared_below d req :
  keeps_out d root req →
  spares d env (previewPath root req) →
  fs_within (same_below d) (prepared env root req).
Proof.
  intros Hreq Hs. unfold prepared.
  apply below_bind; [by apply materialize_below|]. intros _.
  by apply installExtras_below.
Qed.

End OrdinaryRequest.

(** ** The create handler as a whole: order of effects and public directory *)

Section HandlerOrder.

Variable env : Env.
Variable root : string.

Import LocalStages.

Implicit Types (req : CreateRequest) (w : World) (Q : Event → Prop).

(** After the two positive checks, what is left of [createPreview]. *)
Lemma verifyAndPublish_entry sitePath id w :
  let dist := Path.join sitePath "dist" in
  let pub := Path.join (LocalServer.PUBLIC_DIR root) id in
  Fs.exists_at (fs w) (Path.resolve dist) = true →
  Fs.exists_at (fs w) (Path.resolve (Path.join dist "index.html")) = true →
  verifyAndPublish env root sitePath id w
  = (Fs.ensureDir pub ;;;
     Fs.copy env dist pub ;;;
     LocalServer.verifyBuildArtifacts pub LocalServer.defaultRequiredFiles ;;;
     let* listing := Fs.readdir pub in
     ret (BodyPreview ("/preview/" +:+ id) id))
      (emit (EvPathExists (Path.join dist "index.html") true)
         (emit (EvPathExists dist true) w)).
Proof.
  intros dist pub Hd Hi. unfold verifyAndPublish. fold dist pub.
  unfold bind at 1, Fs.pathExists at 1. rewrite Hd.
  unfold bind at 1. rewrite verify_default. fold dist.
  cbn [fs emit]. by rewrite Hi.
Qed.

(** In the steps after the build, whatever has [Q] and is not a check
    comes after the positive check of the entry document. *)
Lemma verifyAndPublish_checked Q sitePath id w :
  (∀ p b, ¬ Q (EvPathExists p b)) →
  ∃ events,
    trace (verifyAndPublish env root sitePath id w).2 = trace w ++ events
    ∧ comes_after
        (EvPathExists (Path.join (Path.join sitePath "dist") "index.html") true) Q events.
Proof.
  intros HQ. set (dist := Path.join sitePath "dist").
  destruct (Fs.exists_at (fs w) (Path.resolve dist)) eqn:Hd.
  2: { rewrite verifyAndPublish_no_dist by done.
       exists [EvPathExists dist false]. split; [done|].
       apply comes_after_none. repeat constructor. apply HQ. }
  destruct (Fs.exists_at (fs w) (Path.resolve (Path.join dist "index.html"))) eqn:Hi.
  2: { rewrite verifyAndPublish_no_entry by done.
       exists [EvPathExists dist true; EvPathExists (Path.join dist "index.html") false].
       split; [simpl; by rewrite <- app_assoc|].
       apply comes_after_none. repeat constructor; apply HQ. }
  rewrite verifyAndPublish_entry by done. fold dist.
  match goal with |- context [?m (emit ?a (emit ?b w))] =>
    match type of m with M Body =>
      assert (emits_only (fun _ => True) m) as Hm
    end
  end.
  { emits; try done. }
  destruct (Hm (emit (EvPathExists (Path.join dist "index.html") true)
                  (emit (EvPathExists dist true) w))) as (rest & Ht & _).
  exists (EvPathExists dist true :: EvPathExists (Path.join dist "index.html") true :: rest).
  split.
  - rewrite Ht. simpl. by rewrite <- !app_assoc.
  - apply comes_after_checked; apply HQ.
Qed.

(** The stages of a request that keeps out of the public directory of
    its id write into it only after the positive check. *)
Lemma pipeline_checked req w :
  keeps_out (Path.resolve (publicOutputPath root req)) root req →
  ∃ events,
    trace (pipeline env root req w).2 = trace w ++ events
    ∧ comes_after
        (EvPathExists (Path.join (Path.join (previewPath root req) "dist") "index.html") true)
        (writes_into (Path.resolve (publicOutputPath root req))) events.
Proof.
  intros Hreq. rewrite pipeline_split.
  destruct (prepared_emits env root _ req Hreq w) as (pre & Hpre & Hnone).
  destruct (prepared env root req w) as [[[]|e] wa]; cbn [snd] in Hpre.
  2: { exists pre. split; [done|]. by apply comes_after_none. }
  rewrite createPreview_split.
  destruct (built_emits env
              (fun e => ¬ writes_into (Path.resolve (publicOutputPath root req)) e)
              (previewPath root req)) with (w := wa) as (mid & Hmid & Hnone2);
    [by intros ? ? []|by intros ? []|].
  destruct (built env (previewPath root req) wa) as [[o|e] w3]; cbn [snd] in Hmid.
  2: { exists (pre ++ mid). split; [cbn [snd]; by rewrite Hmid, Hpre, app_assoc|].
       apply comes_after_none. by apply Forall_app. }
  destruct (verifyAndPublish_checked
              (writes_into (Path.resolve (publicOutputPath root req)))
              (previewPath root req) (req_id req) w3) as (post & Hpost & Hafter);
    [by intros ? ? []|].
  exists (pre ++ mid ++ post). split.
  - by rewrite Hpost, Hmid, Hpre, !app_assoc.
  - by apply comes_after_app, comes_after_app.
Qed.

(** The two cleanup blocks ask for the removal of the workspace and
    log at most one warning. *)
Lemma cleanupAfterSuccess_emits req :
  emits_only (fun e => e = EvRemove (previewPath root req) ∨ ∃ msg, e = EvWarn msg)
    (cleanupAfterSuccess env root req).
Proof.
  unfold cleanupAfterSuccess.
  apply emits_only_try; [|intros e; apply emits_warn; right; by eexists].
  destruct (LocalServer.cleanupGuard _ _ _); [|apply emits_only_ret].
  apply emits_remove. by left.
Qed.

Lemma cleanupAfterError_emits req :
  emits_only (fun e => e = EvRemove (previewPath root req) ∨ ∃ msg, e = EvWarn msg)
    (cleanupAfterError env root req).
Proof.
  unfold cleanupAfterError.
  destruct (LocalServer.cleanupGuard _ _ _); [|apply emits_only_ret].
  apply emits_only_try; [|intros e; apply emits_warn; right; by eexists].
  apply emits_remove. by left.
Qed.

Lemma cleanup_not_writing d req e :
  e = EvRemove (previewPath root req) ∨ (∃ msg, e = EvWarn msg) → ¬ writes_into d e.
Proof. by intros [->|[msg ->]] []. Qed.

Lemma handler_checked req w :
  keeps_out (Path.resolve (publicOutputPath root req)) root req →
  ∃ events,
    trace (LocalServer.createHandler env root req w).2 = trace w ++ events
    ∧ comes_after
        (EvPathExists (Path.join (Path.join (previewPath root req) "dist") "index.html") true)
        (writes_into (Path.resolve (publicOutputPath root req))) events.
Proof.
  intros Hreq. rewrite createHandler_split.
  destruct (pipeline_checked req w Hreq) as (events & Ht & Hafter).
  destruct (pipeline env root req w) as [[b|e] w1]; cbn [snd] in *.
  - destruct (cleanupAfterSuccess_emits req w1) as (tail & Htail & Hall).
    exists (events ++ tail). split; [cbn [snd]; by rewrite Htail, Ht, app_assoc|].
    apply comes_after_then; [done|].
    eapply Forall_impl; [exact Hall|]. intros x. apply cleanup_not_writing.
  - destruct (cleanupAfterError_emits req w1) as (tail & Htail & Hall).
    exists (events ++ tail). split; [cbn [snd]; by rewrite Htail, Ht, app_assoc|].
    apply comes_after_then; [done|].
    eapply Forall_impl; [exact Hall|]. intros x. apply cleanup_not_writing.
Qed.

Lemma prepared_emits_any req w :
  ∃ events, trace (prepared env root req w).2 = trace w ++ events.
Proof.
  assert (emits_only (fun _ => True) (prepared env root req)) as H.
  { unfold prepared, materialize. emits; try done.
    - apply emits_only_for_of. intros file _.
      apply emits_only_try; [|intros e; apply emits_only_throw].
      apply processFile_steps;
        [apply emits_only_ret|intros; apply emits_only_throw
        |intros; by apply emits_only_bind|].
      intros n _. split_and!; [by apply emits_ensureDir..|].
      intros c. by apply emits_writeFile.
    - by apply installExtras_emits. }
  destruct (H w) as (events & Ht & _). by exists events.
Qed.

(** A 200 of the handler: the run of [createPreview] ended with the
    copy, the positive check at the destination and the listing, and
    the cleanup of the workspace followed. *)
Lemma handler_published req w resp :
  (LocalServer.createHandler env root req w).1 = Ok resp →
  status resp = 200 →
  let p := previewPath root req in
  let dist := Path.join p "dist" in
  let pub := publicOutputPath root req in
  ∃ before after,
    trace (LocalServer.createHandler env root req w).2
    = trace w ++ before
      ++ [EvPathExists dist true; EvPathExists (Path.join dist "index.html") true;
          EvEnsureDir pub; EvCopy dist pub;
          EvPathExists (Path.join pub "index.html") true; EvReaddir pub]
      ++ after
    ∧ Forall (fun e => e = EvRemove p ∨ ∃ msg, e = EvWarn msg) after.
Proof.
  intros Hresp Hstatus p dist pub.
  destruct (answered_200 env root req w resp Hresp Hstatus) as (b & Hb & _).
  rewrite createHandler_split.
  destruct (pipeline env root req w) as [[b'|e] w1] eqn:Hp; [|done].
  cbn [snd]. rewrite pipeline_split in Hp.
  destruct (prepared_emits_any req w) as (pre & Hpre).
  destruct (prepared env root req w) as [[[]|e] wa]; [|done]. cbn [snd] in Hpre.
  rewrite createPreview_split in Hp.
  destruct (built_emits env (fun _ => True) (previewPath root req)) with (w := wa)
    as (mid & Hmid & _); [done|done|].
  destruct (built env (previewPath root req) wa) as [[o|e] w3]; [|done].
  cbn [snd] in Hmid.
  destruct (verifyAndPublish_trace env root (previewPath root req) (req_id req) w3)
    as (events & Hev & _ & Hok).
  rewrite Hp in Hev, Hok. cbn [fst snd] in Hev, Hok.
  destruct (Hok b' eq_refl) as (-> & _).
  destruct (cleanupAfterSuccess_emits req w1) as (tail & Htail & Hall).
  exists (pre ++ mid), tail. split; [|done].
  rewrite Htail, Hev, Hmid, Hpre. by rewrite <- !app_assoc.
Qed.

End HandlerOrder.

(** ** The scenario of the specification is an ordinary request *)

Section DemoFacts.

Lemma scenario_ordinary : ordinary_request Demo.scenario.
Proof.
  split; [by repeat constructor|].
  intros file n Hfile Hn.
  apply list_elem_of_singleton in Hfile as ->.
  apply list_elem_of_singleton in Hn as ->.
  by repeat constructor.
Qed.

Lemma scenario_keeps_out :
  keeps_out (Path.resolve (LocalStages.publicOutputPath Demo.root Demo.scenario))
    Demo.root Demo.scenario.
Proof. apply ordinary_keeps_out, scenario_ordinary. Qed.


Lemma build_fails_spares d cwd : spares d Demo.env_build_fails cwd.
Proof.
  intros cmd w k _. cbn [run Demo.env_build_fails]. unfold Demo.toolchain_build_fails.
  by destruct (String.eqb cmd "npm run build").
Qed.

Lemma no_dist_spares d cwd : spares d Demo.env_no_dist cwd.
Proof. by intros cmd w k _. Qed.

End DemoFacts.

(** C1, as the code has it: in every run of the local create handler on
    a request that keeps out of the public directory of its id during
    materialization (the workspace is neither at, below nor above it,
    and no node path joined to the workspace, nor its parent directory,
    is at or below it), an effect of the server that can write at or
    below that directory (an [ensureDir], a [writeFile] or a [copy] with
    its target there) comes only after the check that finds the entry of
    the artifact set, [index.html], in the build output directory. And
    for every request, when the handler answers 200 the run of
    [createPreview] ended with the copy, the positive check of the same
    entry at the destination and the listing, only the cleanup of the
    workspace followed, the entry is in the public directory, and the
    body is the serving path of the id. *)
Theorem publish_only_after_verification (env : Env) (root : string)
    (req : CreateRequest) (w : World) :
  let p := LocalStages.previewPath root req in
  let dist := Path.join p "dist" in
  let pub := LocalStages.publicOutputPath root req in
  let check := EvPathExists (Path.join dist "index.html") true in
  let out := LocalServer.createHandler env root req w in
  ∃ events,
    trace out.2 = trace w ++ events
    ∧ (keeps_out (Path.resolve pub) root req →
       comes_after check (writes_into (Path.resolve pub)) events)
    ∧ (∀ resp, out.1 = Ok resp → status resp = 200 →
         (∃ before after,
            events = before
                     ++ [EvPathExists dist true; check; EvEnsureDir pub; EvCopy dist pub;
                         EvPathExists (Path.join pub "index.html") true; EvReaddir pub]
                     ++ after
            ∧ Forall (fun e => e = EvRemove p ∨ ∃ msg, e = EvWarn msg) after)
         ∧ Fs.exists_at (fs out.2) (Path.resolve (Path.join pub "index.html")) = true
         ∧ body resp = BodyPreview ("/preview/" +:+ req_id req) (req_id req)).
Proof.
  intros p dist pub check out.
  assert (∃ events, trace out.2 = trace w ++ events) as [events Ht].
  { subst out. rewrite createHandler_split.
    destruct (pipeline_not_removal env root req w) as (ev & Hev & _).
    destruct (LocalStages.pipeline env root req w) as [[b|e] w1]; cbn [snd] in *.
    - destruct (cleanupAfterSuccess_emits env root req w1) as (tail & Htail & _).
      exists (ev ++ tail). by rewrite Htail, Hev, app_assoc.
    - destruct (cleanupAfterError_emits env root req w1) as (tail & Htail & _).
      exists (ev ++ tail). by rewrite Htail, Hev, app_assoc. }
  exists events. split_and!; [done| |].
  - intros Hreq. destruct (handler_checked env root req w Hreq) as (ev & Hev & Hafter).
    fold out in Hev. rewrite Ht in Hev. by apply app_inv_head in Hev as ->.
  - intros resp Hresp Hstatus. split_and!.
    + destruct (handler_published env root req w resp Hresp Hstatus)
        as (before & after & Hev & Hall).
      fold out p dist pub check in Hev. rewrite Ht in Hev. apply app_inv_head in Hev.
      by exists before, after.
    + destruct (answered_200 env root req w resp Hresp Hstatus) as (b & Hb & _).
      destruct (pipeline_ok_published env root req w b Hb) as [_ Hp].
      subst out. by rewrite public_entry_framed.
    + destruct (answered_200 env root req w resp Hresp Hstatus) as (b & Hb & ->).
      by destruct (pipeline_ok_published env root req w b Hb) as [-> _].
Qed.

Lemma publish_only_after_verification_witness :
  let out := LocalServer.createHandler Demo.env_ok Demo.root Demo.scenario Demo.world0 in
  comes_after (EvPathExists "/app/previews/abc123/dist/index.html" true)
    (writes_into ["app"; "public"; "abc123"]) (trace out.2)
  ∧ Fs.exists_at (fs out.2) ["app"; "public"; "abc123"; "index.html"] = true.
Proof.
  intros out.
  destruct (publish_only_after_verification Demo.env_ok Demo.root Demo.scenario Demo.world0)
    as (events & Ht & Hafter & Hok).
  split.
  - fold out in Ht. rewrite Ht. exact (Hafter scenario_keeps_out).
  - destruct (Hok (mkResponse 200 (BodyPreview "/preview/abc123" "abc123")))
      as (_ & Hp & _); [by vm_compute|done|exact Hp].
Defined.

(** C1 as written fails. With an id that leads out of the previews
    directory the workspace is the public directory of the id: the first
    effects of the handler create it and copy the template into it,
    before anything was built or checked, and the request is answered
    with 200. With a file node whose path leads out of the workspace the
    submitted file is written into the public directory of the id during
    materialization, before the check. *)
Lemma public_directory_populated_before_verification :
  let dist := fun req => Path.join (LocalStages.previewPath Demo.root req) "dist" in
  let pub := fun req => LocalStages.publicOutputPath Demo.root req in
  let out := fun req => LocalServer.createHandler Demo.env_ok Demo.root req Demo.world0 in
  (¬ comes_after (EvPathExists (Path.join (dist Demo.escaping) "index.html") true)
       (writes_into (Path.resolve (pub Demo.escaping))) (trace (out Demo.escaping).2)
   ∧ trace (out Demo.escaping).2 !! 1%nat = Some (EvCopy "/app/template" (pub Demo.escaping))
   ∧ status <$> (match (out Demo.escaping).1 with Ok resp => Some resp | Throw _ => None end)
     = Some 200)
  ∧ (¬ comes_after (EvPathExists (Path.join (dist Demo.escaping_file) "index.html") true)
         (writes_into (Path.resolve (pub Demo.escaping_file)))
         (trace (out Demo.escaping_file).2)
     ∧ trace (out Demo.escaping_file).2 !! 3%nat
       = Some (EvWriteFile "/app/public/abc123/index.html" "<html>draft</html>")).
Proof.
  intros dist pub out. split_and!; try by vm_compute.
  - intros H.
    destruct (H 0%nat (EvEnsureDir (pub Demo.escaping))) as (j & Hj & _);
      [by vm_compute|by exists []|lia].
  - intros H.
    destruct (H 3%nat (EvWriteFile "/app/public/abc123/index.html" "<html>draft</html>"))
      as (j & Hj & Hcheck); [by vm_compute|by exists ["index.html"]|].
    do 3 (destruct j as [|j]; [by vm_compute in Hcheck|]). lia.
Qed.




(** C4, as the code has it: when the stages before it went through and
    the install exited with status 0, [createPreview] throws a build
    error exactly when the build command exits with a non-zero status,
    or exits with status 0 and leaves no [dist] directory. In the first
    case the error carries the captured standard error and the run stops
    at the command; in the second the run stops at the check of [dist].
    In both cases no later step runs and the handler answers 500 with
    the message of the error; and for a request that keeps out of the
    public directory of its id during materialization, the commands
    themselves touching nothing at or below that directory, everything
    there is as it was before the request. *)
Theorem build_failure_stops_pipeline (env : Env) (root : string)
    (req : CreateRequest) (w wa w2 : World) (o : string) :
  let p := LocalStages.previewPath root req in
  let dist := Path.join p "dist" in
  let pub := Path.resolve (LocalStages.publicOutputPath root req) in
  let result := run env "npm run build" p w2 in
  let w3 := set_fs result.2 (emit (EvExec "npm run build" p) w2) in
  let cp := LocalServer.createPreview env root p (req_id req) wa in
  let out := LocalServer.createHandler env root req w in
  LocalStages.prepared env root req w = (Ok tt, wa) →
  LocalStages.installed env p wa = (Ok o, w2) →
  ((∃ e, cp.1 = Throw e ∧ BuildError e)
   ↔ (∃ code err, result.1 = ExitFail code err)
     ∨ ((∃ so, result.1 = ExitOk so)
        ∧ Fs.exists_at result.2 (Path.resolve dist) = false))
  ∧ (∀ code err, result.1 = ExitFail code err →
       cp = (Throw (ExecError "npm run build" code err), w3)
       ∧ stderr_of (ExecError "npm run build" code err) = Some err)
  ∧ (∀ so, result.1 = ExitOk so →
       Fs.exists_at result.2 (Path.resolve dist) = false →
       cp = (Throw (Err "Build completed but dist folder not found"),
             emit (EvPathExists dist false) w3))
  ∧ (∀ e, cp.1 = Throw e → BuildError e →
       out.1 = Ok (mkResponse 500 (BodyError (message e)))
       ∧ (keeps_out pub root req → spares pub env p →
          ∀ k, pub `prefix_of` k → fs out.2 !! k = fs w !! k)).
Proof.
  intros p dist pub result w3 cp out Hprep Hinst.
  pose proof (built_after_installed env p wa o w2 Hinst) as Hbuilt.
  fold result in Hbuilt. fold w3 in Hbuilt.
  assert (cp = match result.1 with
               | ExitOk _ => LocalStages.verifyAndPublish env root p (req_id req) w3
               | ExitFail code err => (Throw (ExecError "npm run build" code err), w3)
               end) as Hcp.
  { subst cp. rewrite createPreview_split, Hbuilt. by destruct (result.1). }
  assert (out.1 = Ok (match cp.1 with Ok b => res_json b | Throw e => res_error e end)
          ∧ ∀ k, pub `prefix_of` k → fs out.2 !! k = fs cp.2 !! k) as [Hresp Hframe].
  { subst out. split.
    - by rewrite response_of_pipeline, pipeline_split, Hprep.
    - intros k Hk. rewrite (cleanup_frame_handler env root req w k Hk).
      by rewrite pipeline_split, Hprep. }
  assert (∀ code err, result.1 = ExitFail code err →
            cp = (Throw (ExecError "npm run build" code err), w3)) as Hfail.
  { intros code err Hr. by rewrite Hcp, Hr. }
  assert (∀ so, result.1 = ExitOk so →
            Fs.exists_at result.2 (Path.resolve dist) = false →
            cp = (Throw (Err "Build completed but dist folder not found"),
                  emit (EvPathExists dist false) w3)) as Hnodist.
  { intros so Hr Hd. rewrite Hcp, Hr. by apply verifyAndPublish_no_dist. }
  assert ((∃ e, cp.1 = Throw e ∧ BuildError e)
          → (∃ code err, result.1 = ExitFail code err)
            ∨ ((∃ so, result.1 = ExitOk so)
               ∧ Fs.exists_at result.2 (Path.resolve dist) = false)) as Honly.
  { intros (e & He & Hbe).
    destruct (result.1) as [so|code err] eqn:Hr; [|left; eauto].
    right. split; [eauto|].
    destruct (Fs.exists_at result.2 (Path.resolve dist)) eqn:Hd; [|done].
    rewrite Hcp in He.
    by destruct (verifyAndPublish_no_build_error env root p (req_id req) w3 e Hd He). }
  split_and!.
  - split; [exact Honly|].
    intros [(code & err & Hr)|[(so & Hr) Hd]].
    + exists (ExecError "npm run build" code err). rewrite (Hfail _ _ Hr).
      split; [done|]. left. eauto.
    + exists (Err "Build completed but dist folder not found").
      rewrite (Hnodist _ Hr Hd). split; [done|]. by right.
  - intros code err Hr. split; [by apply Hfail|done].
  - exact Hnodist.
  - intros e He Hbe. rewrite Hresp, He. split; [done|].
    intros Hreq Hspares k Hk. rewrite (Hframe k Hk).
    assert (fs cp.2 = fs w3) as ->.
    { destruct (Honly (ex_intro _ e (conj He Hbe))) as [(code & err & Hr)|[(so & Hr) Hd]].
      - by rewrite (Hfail _ _ Hr).
      - by rewrite (Hnodist _ Hr Hd). }
    pose proof (built_below env pub p Hspares wa k Hk) as H3. rewrite Hbuilt in H3.
    pose proof (prepared_below env root pub req Hreq Hspares w k Hk) as Ha.
    rewrite Hprep in Ha.
    cbn [snd] in H3, Ha. by rewrite H3, Ha.
Qed.

Lemma build_failure_stops_pipeline_witness :
  let failed := LocalServer.createHandler Demo.env_build_fails Demo.root Demo.scenario
                  Demo.world0 in
  let empty := LocalServer.createHandler Demo.env_no_dist Demo.root Demo.scenario
                 Demo.world0 in
  failed.1
  = Ok (mkResponse 500
          (BodyError (message (ExecError "npm run build" 1
                                 "error TS2304: Cannot find name 'x'."))))
  ∧ fs failed.2 !! ["app"; "public"; "abc123"] = None
  ∧ empty.1 = Ok (mkResponse 500 (BodyError "Build completed but dist folder not found"))
  ∧ fs empty.2 !! ["app"; "public"; "abc123"] = None.
Proof.
  intros failed empty.
  pose proof (run_eta (LocalStages.prepared Demo.env_build_fails Demo.root Demo.scenario
                         Demo.world0) (Ok tt) ltac:(vm_compute; reflexivity)) as Hprep1.
  pose proof (run_eta (LocalStages.installed Demo.env_build_fails
                         (LocalStages.previewPath Demo.root Demo.scenario)
                         (LocalStages.prepared Demo.env_build_fails Demo.root Demo.scenario
                            Demo.world0).2)
                (Ok "installed") ltac:(vm_compute; reflexivity)) as Hinst1.
  destruct (build_failure_stops_pipeline Demo.env_build_fails Demo.root
              Demo.scenario Demo.world0 _ _ "installed" Hprep1 Hinst1)
    as (_ & _ & _ & Hf).
  destruct (Hf (ExecError "npm run build" 1 "error TS2304: Cannot find name 'x'."))
    as [Hfr Hffs]; [by vm_compute|left; eauto|].
  pose proof (run_eta (LocalStages.prepared Demo.env_no_dist Demo.root Demo.scenario
                         Demo.world0) (Ok tt) ltac:(vm_compute; reflexivity)) as Hprep2.
  pose proof (run_eta (LocalStages.installed Demo.env_no_dist
                         (LocalStages.previewPath Demo.root Demo.scenario)
                         (LocalStages.prepared Demo.env_no_dist Demo.root Demo.scenario
                            Demo.world0).2)
                (Ok "done") ltac:(vm_compute; reflexivity)) as Hinst2.
  destruct (build_failure_stops_pipeline Demo.env_no_dist Demo.root
              Demo.scenario Demo.world0 _ _ "done" Hprep2 Hinst2)
    as (_ & _ & _ & He).
  destruct (He (Err "Build completed but dist folder not found"))
    as [Her Hefs]; [by vm_compute|by right|].
  subst failed empty. split_and!; [exact Hfr| |exact Her|].
  - rewrite (Hffs scenario_keeps_out (build_fails_spares _ _) ["app"; "public"; "abc123"]);
      [by vm_compute|by exists []].
  - rewrite (Hefs scenario_keeps_out (no_dist_spares _ _) ["app"; "public"; "abc123"]);
      [by vm_compute|by exists []].
Defined.

(** C4 as written fails. A file node whose path leads out of the
    workspace is written into the public directory of the id during
    materialization; the build then exits with status 1, the request is
    answered with the build error, and the submitted file is in the
    public directory of the id, which was absent before the request.
    And a build script that writes into the public directory of the id
    before it fails leaves its file there, whatever the request. *)
Lemma public_artifact_survives_build_failure :
  let out := LocalServer.createHandler Demo.env_build_fails Demo.root Demo.escaping_file
               Demo.world0 in
  let stray := LocalServer.createHandler Demo.env_strays Demo.root Demo.scenario
                 Demo.world0 in
  fs Demo.world0 !! ["app"; "public"; "abc123"] = None
  ∧ (out.1
     = Ok (mkResponse 500
             (BodyError (message (ExecError "npm run build" 1
                                    "error TS2304: Cannot find name 'x'."))))
     ∧ fs out.2 !! ["app"; "public"; "abc123"; "index.html"]
       = Some (File "<html>draft</html>"))
  ∧ (stray.1
     = Ok (mkResponse 500 (BodyError (message (ExecError "npm run build" 1 "build failed"))))
     ∧ fs stray.2 !! ["app"; "public"; "abc123"; "index.html"]
       = Some (File "<html>stray</html>")).
Proof. intros out stray. split_and!; by vm_compute. Qed.
